(** * Melody Maestro: the serverless proxy in front of the music providers

    A shallow embedding of the request handlers under [api/]
    ([ai-music/suno-music/index.ts], [wait.ts], [wait-upload.ts] and the
    cover callback receiver) together with the helpers of [_utils.ts],
    and the properties of the poll-until-done orchestration proved on it.

    Conventions.
    - A JavaScript number is a [jsnum]: a finite double is the rational
      it denotes, next to [NaN] and the two infinities.  Comparisons and
      [Math.min] are exact on doubles, so nothing is lost for them.
    - A JavaScript string is a Rocq [string], one [ascii] per UTF-16 code
      unit (code units below 256); [String.length] is [.length].
    - The two conversions of the runtime between strings and numbers
      (ECMAScript StringToNumber and Number::toString) are parameters of
      the development: the theorems hold for every such pair. *)

From Stdlib Require Import ZArith QArith Qround Lia Lqa Ascii String.
From stdpp Require Import base option list gmap strings pretty.

Set Warnings "-register-all".
Local Open Scope string_scope.
Local Open Scope Z_scope.
Local Open Scope list_scope.

(** ** JavaScript values *)

Inductive jsnum : Type :=
  | NaN
  | PInf
  | NInf
  | Fin (q : Q).

Inductive jsval : Type :=
  | JUndefined
  | JNull
  | JBool (b : bool)
  | JNum (n : jsnum)
  | JStr (s : string)
  | JArr (items : list jsval)
  | JObj (props : list (string * jsval)).

Definition num (z : Z) : jsnum := Fin (inject_Z z).

(** [Number.isFinite(n)] *)
Definition isFinite (n : jsnum) : bool :=
  match n with Fin _ => true | _ => false end.

Definition Qlt_bool (p q : Q) : bool := negb (Qle_bool q p).

(** [a < b] and [a <= b] on numbers; every comparison with [NaN] is false. *)
Definition num_lt (a b : jsnum) : bool :=
  match a, b with
  | NaN, _ | _, NaN => false
  | _, NInf => false
  | NInf, _ => true
  | PInf, _ => false
  | Fin _, PInf => true
  | Fin p, Fin q => Qlt_bool p q
  end.

Definition num_le (a b : jsnum) : bool :=
  match a, b with
  | NaN, _ | _, NaN => false
  | NInf, _ => true
  | _, NInf => false
  | _, PInf => true
  | PInf, Fin _ => false
  | Fin p, Fin q => Qle_bool p q
  end.

(** [a === b] on numbers. *)
Definition num_eqb (a b : jsnum) : bool :=
  match a, b with
  | PInf, PInf | NInf, NInf => true
  | Fin p, Fin q => Qeq_bool p q
  | _, _ => false
  end.

(** [Math.min(a, b)] *)
Definition Math_min (a b : jsnum) : jsnum :=
  match a, b with
  | NaN, _ | _, NaN => NaN
  | _, _ => if num_lt b a then b else a
  end.

(** Truthiness: [undefined], [null], [false], [0], [NaN] and [""] are falsy. *)
Definition truthy (v : jsval) : bool :=
  match v with
  | JUndefined | JNull => false
  | JBool b => b
  | JNum NaN => false
  | JNum (Fin q) => negb (Qeq_bool q 0)
  | JNum _ => true
  | JStr s => negb (String.eqb s "")
  | JArr _ | JObj _ => true
  end.

(** [a ?? b] *)
Definition nullish (a b : jsval) : jsval :=
  match a with JUndefined | JNull => b | _ => a end.

(** [a || b] *)
Definition js_or (a b : jsval) : jsval := if truthy a then a else b.

(** Property lookup in an object: the binding of [k], if any. *)
Fixpoint assoc (k : string) (props : list (string * jsval)) : option jsval :=
  match props with
  | [] => None
  | (k', v) :: rest => if String.eqb k k' then Some v else assoc k rest
  end.

(** [v?.k] for the keys the handlers read ([status], [ok], [jobId], ...):
    a property of an object, [undefined] on everything else. *)
Definition get (k : string) (v : jsval) : jsval :=
  match v with
  | JObj props => default JUndefined (assoc k props)
  | _ => JUndefined
  end.

(** [o[k] = v]: overwrite in place, or append a new property. *)
Fixpoint obj_set (k : string) (v : jsval) (props : list (string * jsval))
  : list (string * jsval) :=
  match props with
  | [] => [(k, v)]
  | (k', v') :: rest =>
      if String.eqb k k' then (k, v) :: rest else (k', v') :: obj_set k v rest
  end.

(** [{...base, ...more}] *)
Definition spread (base more : list (string * jsval)) : list (string * jsval) :=
  fold_left (fun o kv => obj_set kv.1 kv.2 o) more base.

(** [const { k, ...rest } = o] keeps [rest]. *)
Definition without (k : string) (props : list (string * jsval))
  : list (string * jsval) :=
  filter (fun kv => negb (String.eqb kv.1 k)) props.

(** ** The runtime's conversions *)

(** ECMAScript StringToNumber ([Number(s)] on a string) and
    Number::toString (a number inside a template literal). *)
Class Runtime : Type := {
  StringToNumber : string -> jsnum;
  NumberToString : jsnum -> string;
}.

(** A runtime for the examples: it reads the empty string, an
    optionally signed run of decimal digits (exactly, so it agrees with
    the runtime up to 2^53) and the three spellings of infinity, and it
    prints the integers; it covers no other literal (fractions,
    exponents, radix prefixes, surrounding blanks). *)
Definition digit_of (c : ascii) : option Z :=
  let n := Z.of_nat (nat_of_ascii c) in
  if (48 <=? n) && (n <=? 57) then Some (n - 48) else None.

Fixpoint digits_value (acc : Z) (s : string) : option Z :=
  match s with
  | EmptyString => Some acc
  | String c rest =>
      match digit_of c with
      | Some d => digits_value (10 * acc + d) rest
      | None => None
      end
  end.

Definition unsigned_literal (s : string) : jsnum :=
  match s with
  | EmptyString => NaN
  | _ => if String.eqb s "Infinity" then PInf
         else match digits_value 0 s with Some n => num n | None => NaN end
  end.

Definition negate (n : jsnum) : jsnum :=
  match n with
  | NaN => NaN | PInf => NInf | NInf => PInf | Fin q => Fin (- q)
  end.

Definition sampleStringToNumber (s : string) : jsnum :=
  match s with
  | EmptyString => num 0
  | String "-" rest => negate (unsigned_literal rest)
  | String "+" rest => unsigned_literal rest
  | _ => unsigned_literal s
  end.

Definition sampleNumberToString (n : jsnum) : string :=
  match n with
  | NaN => "NaN"
  | PInf => "Infinity"
  | NInf => "-Infinity"
  | Fin q => pretty (Qfloor q)
  end.

Definition sampleRuntime : Runtime :=
  {| StringToNumber := sampleStringToNumber;
     NumberToString := sampleNumberToString |}.

(** [String(v)], as a template literal applies it. *)
Fixpoint ToString {rt : Runtime} (v : jsval) : string :=
  match v with
  | JUndefined => "undefined"
  | JNull => "null"
  | JBool true => "true"
  | JBool false => "false"
  | JNum n => NumberToString n
  | JStr s => s
  | JArr items =>
      let element x :=
        match x with JUndefined | JNull => "" | _ => ToString x end in
      String.concat "," (map element items)
  | JObj _ => "[object Object]"
  end.

(** [Number(v)] *)
Definition Number {rt : Runtime} (v : jsval) : jsnum :=
  match v with
  | JUndefined => NaN
  | JNull => num 0
  | JBool true => num 1
  | JBool false => num 0
  | JNum n => n
  | JStr s => StringToNumber s
  | JArr _ | JObj _ => StringToNumber (ToString v)
  end.

(** [s.trim()]: the blanks and line terminators among the code units
    below 256 are TAB, LF, VT, FF, CR, SP and NBSP. *)
Definition is_space (c : ascii) : bool :=
  let n := nat_of_ascii c in
  bool_decide (n = 9 \/ n = 10 \/ n = 11 \/ n = 12 \/ n = 13 \/ n = 32 \/ n = 160)%nat.

Fixpoint trimStart (s : string) : string :=
  match s with
  | EmptyString => EmptyString
  | String c rest => if is_space c then trimStart rest else s
  end.

Fixpoint trimEnd (s : string) : string :=
  match s with
  | EmptyString => EmptyString
  | String c rest =>
      let t := trimEnd rest in
      if is_space c && String.eqb t "" then EmptyString else String c t
  end.

Definition trim (s : string) : string := trimEnd (trimStart s).

(** Every code unit of [s] is one that [trim] removes. *)
Fixpoint allSpaces (s : string) : bool :=
  match s with
  | EmptyString => true
  | String c rest => is_space c && allSpaces rest
  end.

(** ** Shared helpers ([api/_utils.ts]) *)

Definition AUTHOR : string := "@Dafidxcode".
Definition PAXSENIX_BASE_URL : string := "https://api.paxsenix.org".
Definition DEFAULT_POLL_INTERVAL_MS : Z := 5000.
Definition DEFAULT_TIMEOUT_MS : Z := 300000.

(** What [json(res, status, body)] leaves in the response: the status
    code and the value handed to [JSON.stringify]; [res.status(204).end()]
    sends no body. *)
Record httpResponse : Type := {
  statusCode : Z;
  body : option jsval;
}.

Definition json (status : Z) (payload : jsval) : httpResponse :=
  {| statusCode := status; body := Some payload |}.

(** The own enumerable properties of an array are its indices. *)
Definition indexed (items : list jsval) : list (string * jsval) :=
  imap (fun i v => (pretty i, v)) items.

(** [normalizeAuthor]: primitives and [null] pass through; an object
    loses [creator] and gains [Author] in front (an [Author] of its own
    overrides the value, as the spread does).  The place the runtime
    gives to integer-like keys when it enumerates an object is not
    modelled; nothing below reads the order of the properties. *)
Definition normalizeAuthor (payload : jsval) : jsval :=
  match payload with
  | JObj props => JObj (spread [("Author", JStr AUTHOR)] (without "creator" props))
  | JArr items => JObj (spread [("Author", JStr AUTHOR)] (without "creator" (indexed items)))
  | _ => payload
  end.

(** A computation that may throw an [Error] with a message. *)
Inductive result (A : Type) : Type :=
  | Ok (a : A)
  | Throw (message : string).
Arguments Ok {A} a.
Arguments Throw {A} message.

(** [process.env]: the two credentials. *)
Record environment : Type := {
  PAXSENIX_API_KEY : option string;
  KIE_API_KEY : option string;
}.

Definition requireKey (name : string) (key : option string) : result string :=
  match key with
  | Some k => if String.eqb k "" then Throw ("Missing env " +:+ name) else Ok k
  | None => Throw ("Missing env " +:+ name)
  end.

Definition getApiKey (env : environment) : result string :=
  requireKey "PAXSENIX_API_KEY" (PAXSENIX_API_KEY env).

Definition getKieApiKey (env : environment) : result string :=
  requireKey "KIE_API_KEY" (KIE_API_KEY env).

(** ** Polling parameters ([wait.ts], [wait-upload.ts]) *)

(** A query-string value: one string, or the strings of a repeated key. *)
Inductive qval : Type :=
  | QStr (s : string)
  | QArr (l : list string).

(** [Array.isArray(raw) ? raw[0] : raw] *)
Definition queryArg (raw : qval) : jsval :=
  match raw with
  | QStr s => JStr s
  | QArr [] => JUndefined
  | QArr (s :: _) => JStr s
  end.

(** [req.query?.a ?? req.query?.b ?? undefined] *)
Definition queryEither (a b : string) (query : gmap string qval) : option qval :=
  match query !! a with
  | Some raw => Some raw
  | None => query !! b
  end.

Definition timeoutRaw : gmap string qval -> option qval :=
  queryEither "timeoutMs" "timeout".

Definition pollIntervalRaw : gmap string qval -> option qval :=
  queryEither "pollIntervalMs" "poll".

Definition parseTimeoutMs {rt : Runtime} (query : gmap string qval) : jsnum :=
  match timeoutRaw query with
  | None => num DEFAULT_TIMEOUT_MS
  | Some raw =>
      let n := Number (queryArg raw) in
      if negb (isFinite n) || num_le n (num 0) then num DEFAULT_TIMEOUT_MS
      else Math_min n (num (15 * 60 * 1000))
  end.

Definition parsePollIntervalMs {rt : Runtime} (query : gmap string qval) : jsnum :=
  match pollIntervalRaw query with
  | None => num DEFAULT_POLL_INTERVAL_MS
  | Some raw =>
      let n := Number (queryArg raw) in
      if negb (isFinite n) || num_lt n (num 1000) then num DEFAULT_POLL_INTERVAL_MS
      else Math_min n (num 30000)
  end.

(** ** Request validation ([requestSchema]) *)

Inductive Model : Type := V3_5 | V4 | V4_5 | V4_5PLUS | V5.

Definition modelName (m : Model) : string :=
  match m with
  | V3_5 => "V3_5" | V4 => "V4" | V4_5 => "V4_5"
  | V4_5PLUS => "V4_5PLUS" | V5 => "V5"
  end.

(** The object the base schema yields, defaults applied. *)
Record GenerationRequest : Type := {
  customMode : bool;
  instrumental : bool;
  title : string;
  style : string;
  prompt : string;
  model : Model;
  negativeTags : string;
}.

(** [if (cond) ctx.addIssue({ message })] *)
Definition addIssueIf (cond : bool) (message : string) : list string :=
  if cond then [message] else [].

Definition blank (s : string) : bool := String.eqb (trim s) "".

Definition len (s : string) : Z := Z.of_nat (String.length s).

(** The branch of [superRefine] taken when [customMode === false];
    it ends in [return]. *)
Definition nonCustomIssues (v : GenerationRequest) : list string :=
  addIssueIf (blank (prompt v)) "prompt is required when customMode=false"
  ++ addIssueIf (400 <? len (prompt v)) "prompt max length is 400 when customMode=false".

Definition isV35orV4 (m : Model) : bool :=
  match m with V3_5 | V4 => true | _ => false end.

Definition promptLimit (m : Model) : Z := if isV35orV4 m then 3000 else 5000.
Definition styleLimit (m : Model) : Z := if isV35orV4 m then 200 else 1000.

Definition customIssues (v : GenerationRequest) : list string :=
  addIssueIf (blank (title v)) "title is required when customMode=true"
  ++ addIssueIf (blank (style v)) "style is required when customMode=true"
  ++ addIssueIf (negb (instrumental v) && blank (prompt v))
       "prompt is required when customMode=true and instrumental=false"
  ++ addIssueIf (80 <? len (title v)) "title max length is 80"
  ++ addIssueIf (promptLimit (model v) <? len (prompt v))
       ("prompt max length is " +:+ pretty (promptLimit (model v))
        +:+ " for model " +:+ modelName (model v))
  ++ addIssueIf (styleLimit (model v) <? len (style v))
       ("style max length is " +:+ pretty (styleLimit (model v))
        +:+ " for model " +:+ modelName (model v)).

(** [superRefine] of [index.ts] and [wait.ts]: the issues it adds. *)
Definition superRefine (v : GenerationRequest) : list string :=
  if negb (customMode v) then nonCustomIssues v else customIssues v.

(** [wait-upload.ts] validates two more fields. *)
Record UploadRequest : Type := {
  generation : GenerationRequest;
  kieUploadPath : string;
  kieFileName : string;
}.

Definition superRefineUpload (u : UploadRequest) : list string :=
  let v := generation u in
  if negb (customMode v) then nonCustomIssues v
  else customIssues v
       ++ addIssueIf (blank (kieUploadPath u)) "kieUploadPath is required".

(** [parsed.error.flatten()] for issues without a path. *)
Definition flatten (issues : list string) : jsval :=
  JObj [("formErrors", JArr (map JStr issues)); ("fieldErrors", JObj [])].

(** What [readJsonBody] followed by the base object schema leaves of a
    request body: unreadable JSON, a shape the schema refuses (with its
    flattened errors), or the typed object. *)
Inductive parsedBody (A : Type) : Type :=
  | InvalidJson
  | Malformed (errors : jsval)
  | Typed (v : A).
Arguments InvalidJson {A}.
Arguments Malformed {A} errors.
Arguments Typed {A} v.

Record request (A : Type) : Type := {
  method : string;
  query : gmap string qval;
  payload : parsedBody A;
}.
Arguments method {A} r.
Arguments query {A} r.
Arguments payload {A} r.

(** ** The upstream providers, as the handlers see them *)

(** A [fetch] response: its HTTP status and what [.json()] decodes
    ([None] when decoding rejects). *)
Record response : Type := {
  status : Z;
  decoded : option jsval;
}.

(** [resp.ok]: the status is in the range 200-299. *)
Definition ok (r : response) : bool := (200 <=? status r) && (status r <=? 299).

(** [await resp.json().catch(() => null)] *)
Definition jsonOrNull (r : response) : jsval := default JNull (decoded r).

(** [await fetch(...)] either rejects (the network failed) or resolves. *)
Inductive fetched : Type :=
  | NetworkError (message : string)
  | Responded (r : response).

(** The parameters of [kieUploadFromUrl]; the body it posts carries
    [fileName] only when that is not empty. *)
Record kieRequest : Type := {
  fileUrl : string;
  uploadPath : string;
  fileName : string;
}.

(** The effects of a handler, in the order it issues them. *)
Inductive event : Type :=
  | StartJob (sent : jsval)
  | GetStatus (url : jsval)
  | Sleep (ms : jsnum)
  | Upload (sent : kieRequest).

(** One run of the outside world: what each request is answered with,
    how long the [k]-th status read and the [k]-th [sleep] take on the
    clock of [Date.now()], and the order in which the uploads of a batch
    settle. *)
Record network : Type := {
  startJob : jsval -> fetched;
  statusAt : nat -> fetched;
  fetchMs : nat -> Z;
  sleepMs : nat -> jsnum -> Z;
  kieUpload : nat -> kieRequest -> fetched;
  completion : list nat;
}.

(** ** Launching a job *)

Definition toJson (v : GenerationRequest) : jsval :=
  JObj [("customMode", JBool (customMode v));
        ("instrumental", JBool (instrumental v));
        ("title", JStr (title v));
        ("style", JStr (style v));
        ("prompt", JStr (prompt v));
        ("model", JStr (modelName (model v)));
        ("negativeTags", JStr (negativeTags v))].

Definition payloadToUpstream (v : GenerationRequest) : jsval :=
  if customMode v then toJson v
  else JObj [("customMode", JBool false);
             ("prompt", JStr (prompt v));
             ("instrumental", JBool false);
             ("title", JStr "");
             ("style", JStr "");
             ("model", JStr "");
             ("negativeTags", JStr "")].

Definition methodNotAllowed : httpResponse :=
  json 405 (normalizeAuthor
    (JObj [("ok", JBool false); ("message", JStr "Method not allowed")])).

Definition invalidRequest (errors : jsval) : httpResponse :=
  json 400 (normalizeAuthor
    (JObj [("ok", JBool false); ("message", JStr "Invalid request");
           ("errors", errors)])).

(** The [catch (e)] clause of every handler. *)
Definition internalError (message : string) : httpResponse :=
  json 500 (normalizeAuthor
    (JObj [("ok", JBool false); ("message", JStr message)])).

(** [readJsonBody] and [requestSchema.safeParse]: the typed request, or
    the response that ends the handler. *)
Definition checked {A : Type} (refine : A -> list string) (p : parsedBody A)
  : httpResponse + A :=
  match p with
  | InvalidJson => inl (internalError "Invalid JSON body")
  | Malformed errors => inl (invalidRequest errors)
  | Typed v =>
      match refine v with
      | [] => inr v
      | issues => inl (invalidRequest (flatten issues))
      end
  end.

(** [index.ts]: launch a job and relay the provider's answer. *)
Definition generateHandler (env : environment) (net : network)
    (req : request GenerationRequest) : list event * httpResponse :=
  if String.eqb (method req) "OPTIONS" then ([], {| statusCode := 204; body := None |})
  else if negb (String.eqb (method req) "POST") then ([], methodNotAllowed)
  else
    match checked superRefine (payload req) with
    | inl refused => ([], refused)
    | inr v =>
        match getApiKey env with
        | Throw m => ([], internalError m)
        | Ok _ =>
            let sent := payloadToUpstream v in
            match startJob net sent with
            | NetworkError m => ([StartJob sent], internalError m)
            | Responded upstream =>
                let data := jsonOrNull upstream in
                if negb (ok upstream) then
                  ([StartJob sent],
                   json 502 (normalizeAuthor
                     (JObj [("ok", JBool false); ("message", JStr "Upstream error");
                            ("status", JNum (num (status upstream)));
                            ("upstream", data)])))
                else ([StartJob sent], json 200 (normalizeAuthor data))
            end
        end
    end.

(** [!startResp.ok || !startJson?.jobId] *)
Definition startRefused (startResp : response) : bool :=
  negb (ok startResp) || negb (truthy (get "jobId" (jsonOrNull startResp))).

Definition startFailed (startResp : response) : httpResponse :=
  json 502 (normalizeAuthor
    (JObj [("ok", JBool false); ("message", JStr "Upstream start job failed");
           ("status", JNum (num (status startResp)));
           ("upstream", jsonOrNull startResp)])).

(** [startJson.task_url || `${PAXSENIX_BASE_URL}/task/${jobId}`] *)
Definition taskUrlOf {rt : Runtime} (startJson : jsval) : jsval :=
  js_or (get "task_url" startJson)
        (JStr (PAXSENIX_BASE_URL +:+ "/task/" +:+ ToString (get "jobId" startJson))).

(** ** The poll loop *)

(** [statusJson?.status === "done" && statusJson?.ok === true] *)
Definition isDone (statusJson : jsval) : bool :=
  match get "status" statusJson with
  | JStr s => String.eqb s "done"
  | _ => false
  end
  &&
  match get "ok" statusJson with
  | JBool true => true
  | _ => false
  end.

(** How the [while] loop is left: through the [return] of a finished
    job, by its guard turning false, or by a rejected [fetch]. *)
Inductive loopExit : Type :=
  | Done (statusJson : jsval)
  | TimedOut (last : jsval)
  | Failed (message : string).

(** The loop of [wait.ts] and [wait-upload.ts], state passed explicitly:
    the number [k] of status reads so far, [Date.now() - startedAt], the
    variable [last] and the effects so far.  One unit of [fuel] is one
    evaluation of the guard. *)
Fixpoint pollUntilDone (net : network) (taskUrl : jsval)
    (timeoutMs pollIntervalMs : jsnum)
    (fuel k : nat) (elapsed : Z) (last : jsval) (trace : list event)
  : option (loopExit * list event) :=
  match fuel with
  | O => None
  | S fuel' =>
      if num_lt (num elapsed) timeoutMs then
        match statusAt net k with
        | NetworkError m => Some (Failed m, trace ++ [GetStatus taskUrl])
        | Responded statusResp =>
            let statusJson := jsonOrNull statusResp in
            if isDone statusJson then
              Some (Done statusJson, trace ++ [GetStatus taskUrl])
            else
              pollUntilDone net taskUrl timeoutMs pollIntervalMs fuel' (S k)
                (elapsed + fetchMs net k + sleepMs net k pollIntervalMs)
                statusJson
                (trace ++ [GetStatus taskUrl; Sleep pollIntervalMs])
        end
      else Some (TimedOut last, trace)
  end.

Definition timedOut (jobId taskUrl last : jsval) : httpResponse :=
  json 408 (normalizeAuthor
    (JObj [("ok", JBool false);
           ("status", nullish (get "status" last) (JStr "unknown"));
           ("message", JStr "Timeout waiting for music generation to finish");
           ("jobId", jobId);
           ("task_url", taskUrl);
           ("lastResponse", last)])).

(** The part of the [wait] handlers from [getApiKey()] to the end of
    the loop; [finish] is what the handler does with a finished job. *)
Definition launchAndPoll {rt : Runtime} (env : environment) (net : network)
    (fuel : nat) (timeoutMs pollIntervalMs : jsnum) (sent : jsval)
    (finish : jsval -> jsval -> jsval -> list event -> option (list event * httpResponse))
  : option (list event * httpResponse) :=
  match getApiKey env with
  | Throw m => Some ([], internalError m)
  | Ok _ =>
      match startJob net sent with
      | NetworkError m => Some ([StartJob sent], internalError m)
      | Responded startResp =>
          if startRefused startResp then Some ([StartJob sent], startFailed startResp)
          else
            let startJson := jsonOrNull startResp in
            let jobId := get "jobId" startJson in
            let taskUrl := taskUrlOf startJson in
            match pollUntilDone net taskUrl timeoutMs pollIntervalMs fuel
                    O 0 JNull [StartJob sent] with
            | None => None
            | Some (Done statusJson, trace) => finish jobId taskUrl statusJson trace
            | Some (TimedOut last, trace) => Some (trace, timedOut jobId taskUrl last)
            | Some (Failed m, trace) => Some (trace, internalError m)
            end
      end
  end.

(** [wait.ts] *)
Definition waitHandler {rt : Runtime} (env : environment) (net : network)
    (fuel : nat) (req : request GenerationRequest)
  : option (list event * httpResponse) :=
  if String.eqb (method req) "OPTIONS" then Some ([], {| statusCode := 204; body := None |})
  else if negb (String.eqb (method req) "POST") then Some ([], methodNotAllowed)
  else
    let timeoutMs := parseTimeoutMs (query req) in
    let pollIntervalMs := parsePollIntervalMs (query req) in
    match checked superRefine (payload req) with
    | inl refused => Some ([], refused)
    | inr v =>
        launchAndPoll env net fuel timeoutMs pollIntervalMs (payloadToUpstream v)
          (fun _ _ statusJson trace =>
             Some (trace, json 200 (normalizeAuthor statusJson)))
    end.

(** ** Re-hosting the records of a finished job ([wait-upload.ts]) *)

(** [Math.round((bytes / 1024 / 1024) * 100) / 100], in exact arithmetic:
    the rounding of the intermediate doubles is not modelled, and no
    statement below depends on the value of [fileSizeMB]. *)
Definition bytesToMb (bytes : jsnum) : jsnum :=
  match bytes with
  | Fin q => Fin (inject_Z (Qfloor (q / 1024 / 1024 * 100 + (1 # 2))) / 100)%Q
  | other => other
  end.

(** The seven fields both uploaders copy out of the storage provider's
    decoded answer [data] ([up.result] there, [up.upstream] in the
    callback receiver). *)
Definition kieFields {rt : Runtime} (data : jsval) : list (string * jsval) :=
  let file := get "data" data in
  let bytes := Number (nullish (get "fileSize" file) (JNum (num 0))) in
  [("downloadUrl", get "downloadUrl" file);
   ("fileSizeBytes", JNum bytes);
   ("fileSizeMB", if truthy (JNum bytes) then JNum (bytesToMb bytes) else JNum (num 0));
   ("mimeType", get "mimeType" file);
   ("fileName", get "fileName" file);
   ("filePath", get "filePath" file);
   ("uploadedAt", get "uploadedAt" file)].

(** A settled promise. *)
Inductive settled : Type :=
  | Fulfilled (v : jsval)
  | Rejected (message : string).

(** [typeof r?.audio_url === "string" ? r.audio_url : ""] *)
Definition audioUrlOf (r : jsval) : string :=
  match get "audio_url" r with JStr s => s | _ => "" end.

(** [(parsed.data.kieFileName || "").trim() || `${jobId}-${idx + 1}.mp3`] *)
Definition fileNameFor {rt : Runtime} (u : UploadRequest) (jobId : jsval) (idx : nat)
  : string :=
  let given := trim (kieFileName u) in
  if String.eqb given "" then
    ToString jobId +:+ "-" +:+ pretty (Z.of_nat idx + 1) +:+ ".mp3"
  else given.

Definition missingAudio (idx : nat) : jsval :=
  JObj [("ok", JBool false); ("message", JStr "missing audio_url");
        ("recordIndex", JNum (num (Z.of_nat idx)))].

(** The entry for a record whose upload request was answered. *)
Definition uploadEntry {rt : Runtime} (idx : nat) (audioUrl : string) (resp : response)
  : jsval :=
  if negb (ok resp) then
    JObj [("ok", JBool false);
          ("recordIndex", JNum (num (Z.of_nat idx)));
          ("uploadError",
           JObj [("ok", JBool false);
                 ("status", JNum (num (status resp)));
                 ("upstream", jsonOrNull resp)])]
  else
    JObj [("ok", JBool true);
          ("recordIndex", JNum (num (Z.of_nat idx)));
          ("sourceAudioUrl", JStr audioUrl);
          ("kie", JObj (kieFields (jsonOrNull resp)))].

(** The argument of [kieUploadFromUrl] for record [r] at [idx]. *)
Definition uploadRequestFor {rt : Runtime} (u : UploadRequest) (jobId : jsval)
    (idx : nat) (r : jsval) : kieRequest :=
  {| fileUrl := audioUrlOf r;
     uploadPath := kieUploadPath u;
     fileName := fileNameFor u jobId idx |}.

(** The callback of [records.map] on record [r] at [idx]: the request
    it issues before it first suspends, and how its promise settles. *)
Definition recordTask {rt : Runtime} (env : environment) (net : network)
    (u : UploadRequest) (jobId : jsval) (idx : nat) (r : jsval)
  : list event * settled :=
  let audioUrl := audioUrlOf r in
  if String.eqb audioUrl "" then ([], Fulfilled (missingAudio idx))
  else
    let sent := uploadRequestFor u jobId idx r in
    match getKieApiKey env with
    | Throw m => ([], Rejected m)
    | Ok _ =>
        match kieUpload net idx sent with
        | NetworkError m => ([Upload sent], Rejected m)
        | Responded resp => ([Upload sent], Fulfilled (uploadEntry idx audioUrl resp))
        end
    end.

(** [Promise.all]: every promise writes its value into the slot of its
    own index when it settles; the first rejection rejects the whole;
    the array is delivered once no slot is empty. *)
Fixpoint promiseAll (promises : list settled) (order : list nat)
    (slots : list (option jsval)) : option settled :=
  match order with
  | [] => Fulfilled ∘ JArr <$> mapM id slots
  | i :: later =>
      match promises !! i with
      | None => None
      | Some (Rejected m) => Some (Rejected m)
      | Some (Fulfilled v) => promiseAll promises later (<[i := Some v]> slots)
      end
  end.

(** The value the promise of record [r] at [idx] is fulfilled with. *)
Definition entryOf {rt : Runtime} (env : environment) (net : network)
    (u : UploadRequest) (jobId : jsval) (idx : nat) (r : jsval) : jsval :=
  match (recordTask env net u jobId idx r).2 with
  | Fulfilled entry => entry
  | Rejected _ => JUndefined
  end.

(** The upload requests a batch issues, in the order it issues them. *)
Definition uploadsIssued {rt : Runtime} (env : environment) (net : network)
    (u : UploadRequest) (jobId : jsval) (records : list jsval) : list event :=
  concat (fst <$> imap (recordTask env net u jobId) records).

(** [Array.isArray(statusJson?.records) ? statusJson.records : []] *)
Definition recordsOf (statusJson : jsval) : list jsval :=
  match get "records" statusJson with JArr items => items | _ => [] end.

(** The own enumerable properties [{...v}] copies. *)
Definition propsOf (v : jsval) : list (string * jsval) :=
  match v with JObj props => props | JArr items => indexed items | _ => [] end.

(** The response of [wait-upload.ts] for a finished job:
    [{...statusJson, jobId, task_url: taskUrl, kieUploads: uploads}]. *)
Definition uploaded (jobId taskUrl statusJson uploads : jsval) : httpResponse :=
  json 200 (normalizeAuthor
    (JObj (spread (propsOf statusJson)
             [("jobId", jobId); ("task_url", taskUrl);
              ("kieUploads", uploads)]))).

(** Step 3 of [wait-upload.ts]: what happens once the job is done. *)
Definition uploadAll {rt : Runtime} (env : environment) (net : network)
    (u : UploadRequest) (jobId taskUrl statusJson : jsval) (trace : list event)
  : option (list event * httpResponse) :=
  let tasks := imap (recordTask env net u jobId) (recordsOf statusJson) in
  let trace' := trace ++ concat (fst <$> tasks) in
  match promiseAll (snd <$> tasks) (completion net)
          (replicate (length tasks) None) with
  | None => None
  | Some (Rejected m) => Some (trace', internalError m)
  | Some (Fulfilled uploads) =>
      Some (trace', uploaded jobId taskUrl statusJson uploads)
  end.

(** [wait-upload.ts] *)
Definition waitUploadHandler {rt : Runtime} (env : environment) (net : network)
    (fuel : nat) (req : request UploadRequest)
  : option (list event * httpResponse) :=
  if String.eqb (method req) "OPTIONS" then Some ([], {| statusCode := 204; body := None |})
  else if negb (String.eqb (method req) "POST") then Some ([], methodNotAllowed)
  else
    let timeoutMs := parseTimeoutMs (query req) in
    let pollIntervalMs := parsePollIntervalMs (query req) in
    match checked superRefineUpload (payload req) with
    | inl refused => Some ([], refused)
    | inr u =>
        launchAndPoll env net fuel timeoutMs pollIntervalMs
          (payloadToUpstream (generation u)) (uploadAll env net u)
    end.

(** ** The cover callback receiver *)

Module Cover.

(** The envelope [callbackSchema] yields: every field is optional and
    unknown keys are dropped. *)
Record item : Type := {
  id : option string;
  audio_url : option string;
  image_url : option string;
  title : option string;
  prompt : option string;
  duration : option jsnum;
}.

Record notification : Type := {
  callbackType : option string;
  task_id : option string;
  items : option (list item);
}.

Record envelope : Type := {
  code : option jsnum;
  msg : option string;
  data : option notification;
}.

(** A property that is present only when its value is defined. *)
Definition field {A : Type} (k : string) (f : A -> jsval) (o : option A)
  : list (string * jsval) :=
  match o with Some a => [(k, f a)] | None => [] end.

Definition itemJson (i : item) : jsval :=
  JObj (field "id" JStr (id i) ++ field "audio_url" JStr (audio_url i)
        ++ field "image_url" JStr (image_url i) ++ field "title" JStr (title i)
        ++ field "prompt" JStr (prompt i) ++ field "duration" JNum (duration i)).

Definition notificationJson (d : notification) : jsval :=
  JObj (field "callbackType" JStr (callbackType d)
        ++ field "task_id" JStr (task_id d)
        ++ field "data" (fun l => JArr (map itemJson l)) (items d)).

Definition envelopeJson (e : envelope) : jsval :=
  JObj (field "code" JNum (code e) ++ field "msg" JStr (msg e)
        ++ field "data" notificationJson (data e)).

(** [payload.code === 200 && callbackType === "complete" && items.length > 0] *)
Definition complete (e : envelope) : bool :=
  match code e with Some n => num_eqb n (num 200) | None => false end
  && match data e ≫= callbackType with
     | Some t => String.eqb t "complete"
     | None => false
     end
  && bool_decide (default [] (data e ≫= items) ≠ []).

(** [`${payload.data?.task_id ?? "task"}-${first.id ?? "track"}.mp3`] *)
Definition fileNameOf (e : envelope) (first : item) : string :=
  default "task" (data e ≫= task_id) +:+ "-" +:+ default "track" (id first)
  +:+ ".mp3".

Definition coverUploadPath : string := "music/cover-audio".

(** The upload the receiver asks for, if any: the first item's
    [audio_url], when the callback is a completion and that URL is set. *)
Definition wanted (e : envelope) : option kieRequest :=
  if complete e then
    match default [] (data e ≫= items) with
    | [] => None
    | first :: _ =>
        match audio_url first with
        | Some audioUrl =>
            if String.eqb audioUrl "" then None
            else Some {| fileUrl := audioUrl;
                         uploadPath := coverUploadPath;
                         fileName := fileNameOf e first |}
        | None => None
        end
    end
  else None.

(** [uploaded], once [kieUploadFromUrl] has resolved with [resp]. *)
Definition uploadedOf {rt : Runtime} (audioUrl : string) (resp : response) : jsval :=
  if ok resp then
    JObj (("sourceAudioUrl", JStr audioUrl) :: kieFields (jsonOrNull resp))
  else
    JObj [("ok", JBool false);
          ("uploadError",
           JObj [("ok", JBool (ok resp));
                 ("status", JNum (num (status resp)));
                 ("upstream", jsonOrNull resp)])].

Definition acknowledged (e : envelope) (uploaded : jsval) : httpResponse :=
  json 200 (normalizeAuthor
    (JObj [("ok", JBool true); ("received", envelopeJson e);
           ("kieUploadedFirstTrack", uploaded)])).

Definition invalidCallback (errors : jsval) : httpResponse :=
  json 400 (normalizeAuthor
    (JObj [("ok", JBool false); ("message", JStr "Invalid callback payload");
           ("errors", errors)])).

Definition handler {rt : Runtime} (env : environment) (net : network)
    (req : request envelope) : list event * httpResponse :=
  if String.eqb (method req) "OPTIONS" then ([], {| statusCode := 204; body := None |})
  else if negb (String.eqb (method req) "POST") then ([], methodNotAllowed)
  else
    match payload req with
    | InvalidJson => ([], internalError "Invalid JSON body")
    | Malformed errors => ([], invalidCallback errors)
    | Typed e =>
        match wanted e with
        | None => ([], acknowledged e JNull)
        | Some sent =>
            match getKieApiKey env with
            | Throw m => ([], internalError m)
            | Ok _ =>
                match kieUpload net O sent with
                | NetworkError m => ([Upload sent], internalError m)
                | Responded resp =>
                    ([Upload sent], acknowledged e (uploadedOf (fileUrl sent) resp))
                end
            end
        end
    end.

End Cover.

(** ** The course of the poll loop *)

Section Course.
Context (net : network) (taskUrl : jsval) (timeoutMs pollIntervalMs : jsnum).

(** [Date.now() - startedAt] when the guard is evaluated for the
    [k]-th time (counting from 0). *)
Fixpoint clock (k : nat) : Z :=
  match k with
  | O => 0
  | S j => clock j + fetchMs net j + sleepMs net j pollIntervalMs
  end.

(** The guard holds at its [k]-th evaluation. *)
Definition inBudget (k : nat) : bool := num_lt (num (clock k)) timeoutMs.

(** The [k]-th status read is answered and its decoded body does not
    end the loop. *)
Definition nonTerminal (k : nat) : bool :=
  match statusAt net k with
  | Responded r => negb (isDone (jsonOrNull r))
  | NetworkError _ => false
  end.

(** The value of [last] before the [k]-th status read. *)
Definition lastSeen (k : nat) : jsval :=
  match k with
  | O => JNull
  | S j =>
      match statusAt net j with
      | Responded r => jsonOrNull r
      | NetworkError _ => JNull
      end
  end.

(** The loop comes to its [n]-th status read: every earlier guard held
    and every earlier read was non-terminal. *)
Definition reaches (n : nat) : Prop :=
  forall j, (j < n)%nat -> inBudget j = true /\ nonTerminal j = true.

(** The effects of [n] rounds that ended in [sleep]. *)
Definition rounds (n : nat) : list event :=
  concat (replicate n [GetStatus taskUrl; Sleep pollIntervalMs]).

(** The loop stops at its [n]-th guard or read. *)
Definition stops (n : nat) : bool := negb (inBudget n && nonTerminal n).

(** How the loop ends when it stops there, and the read it ends with. *)
Definition exitAt (n : nat) : loopExit :=
  if inBudget n then
    match statusAt net n with
    | NetworkError m => Failed m
    | Responded r => Done (jsonOrNull r)
    end
  else TimedOut (lastSeen n).

Definition lastRead (n : nat) : list event :=
  if inBudget n then [GetStatus taskUrl] else [].

(** The loop with its initial state, as the handlers enter it after
    the effects [before]. *)
Definition pollFrom (fuel : nat) (before : list event)
  : option (loopExit * list event) :=
  pollUntilDone net taskUrl timeoutMs pollIntervalMs fuel O 0 JNull before.
End Course.

(** Time moves on: a status read takes no negative time and a [sleep]
    lasts a millisecond at least. *)
Definition timely (net : network) (pollIntervalMs : jsnum) : Prop :=
  forall k, 0 <= fetchMs net k /\ 1 <= sleepMs net k pollIntervalMs.

(** The ideal clock of a test bench: a status read takes no time and
    every [sleep] lasts exactly [i] milliseconds. *)
Definition ideal (net : network) (pollIntervalMs : jsnum) (i : Z) : Prop :=
  forall k, fetchMs net k = 0 /\ sleepMs net k pollIntervalMs = i.

(** [b / i] rounded up. *)
Definition ceilDiv (b i : Z) : Z := - ((- b) / i).

(** The number of status reads in a trace. *)
Definition isGetStatus (e : event) : bool :=
  match e with GetStatus _ => true | _ => false end.

Definition polls (trace : list event) : nat :=
  length (filter (fun e => isGetStatus e) trace).

(** ** Runs of the world, and reading responses *)

(** Every upload request of the batch is answered by the storage
    provider (with whatever status). *)
Definition answered {rt : Runtime} (net : network) (u : UploadRequest)
    (jobId : jsval) (records : list jsval) : Prop :=
  forall i r, records !! i = Some r -> audioUrlOf r <> "" ->
    exists resp, kieUpload net i (uploadRequestFor u jobId i r) = Responded resp.

(** The same run of the world with the uploads settling in [order]. *)
Definition withCompletion (order : list nat) (net : network) : network :=
  {| startJob := startJob net;
     statusAt := statusAt net;
     fetchMs := fetchMs net;
     sleepMs := sleepMs net;
     kieUpload := kieUpload net;
     completion := order |}.

(** The same run of the world, except that the [k]-th status read comes
    back with HTTP status [codes k]. *)
Definition recode (code : Z) (f : fetched) : fetched :=
  match f with
  | Responded r => Responded {| status := code; decoded := decoded r |}
  | NetworkError m => NetworkError m
  end.

Definition withStatusCodes (codes : nat -> Z) (net : network) : network :=
  {| startJob := startJob net;
     statusAt := fun k => recode (codes k) (statusAt net k);
     fetchMs := fetchMs net;
     sleepMs := sleepMs net;
     kieUpload := kieUpload net;
     completion := completion net |}.

(** A top-level field of a response body. *)
Definition bodyField (k : string) (resp : httpResponse) : jsval :=
  match body resp with Some b => get k b | None => JUndefined end.

(** A [POST] carrying a body the base schema accepted. *)
Definition post {A : Type} (q : gmap string qval) (v : A) : request A :=
  {| method := "POST"; query := q; payload := Typed v |}.

(** ** Sample data for the examples *)

Definition lofi : GenerationRequest :=
  {| customMode := false; instrumental := false; title := ""; style := "";
     prompt := "lofi chill beat"; model := V5; negativeTags := "" |}.

Definition blankPrompt : GenerationRequest :=
  {| customMode := false; instrumental := false; title := ""; style := "";
     prompt := " "; model := V5; negativeTags := "" |}.

Definition bothKeys : environment :=
  {| PAXSENIX_API_KEY := Some "pax-key"; KIE_API_KEY := Some "kie-key" |}.

(** A network on an ideal clock: a status read takes no time and a
    [sleep] lasts exactly the (whole) delay asked for. *)
Definition idealNet (start : fetched) (statuses : nat -> fetched)
    (uploads : nat -> kieRequest -> fetched) (order : list nat) : network :=
  {| startJob := fun _ => start;
     statusAt := statuses;
     fetchMs := fun _ => 0;
     sleepMs := fun _ ms => match ms with Fin q => Qfloor q | _ => 1 end;
     kieUpload := uploads;
     completion := order |}.

Definition answer (code : Z) (props : list (string * jsval)) : fetched :=
  Responded {| status := code; decoded := Some (JObj props) |}.

Definition lofiUpload : UploadRequest :=
  {| generation := lofi; kieUploadPath := "music/paxsenix"; kieFileName := "" |}.

Definition noStatus : nat -> fetched := fun _ => NetworkError "unreachable".
Definition noUpload : nat -> kieRequest -> fetched :=
  fun _ _ => NetworkError "unreachable".

(** The provider answers the launch with 200 and a body without [jobId]. *)
Definition queueFull : response :=
  {| status := 200;
     decoded := Some (JObj [("ok", JBool false); ("message", JStr "queue full")]) |}.

Definition queueFullNet : network :=
  idealNet (Responded queueFull) noStatus noUpload [].

(** The provider accepts the launch as job [abc]. *)
Definition accepted : response :=
  {| status := 200;
     decoded := Some (JObj [("ok", JBool true); ("jobId", JStr "abc")]) |}.

Definition processing : fetched :=
  answer 200 [("ok", JBool false); ("status", JStr "processing")].

(** The job is reported as done, without the success flag. *)
Definition doneNotOk : fetched :=
  answer 200 [("ok", JBool false); ("status", JStr "done")].

Definition doneNotOkNet : network :=
  idealNet (Responded accepted) (fun _ => doneNotOk) noUpload [].

Definition pending : fetched :=
  answer 200 [("ok", JBool false); ("status", JStr "pending")].

Definition finished : fetched :=
  answer 200 [("ok", JBool true); ("status", JStr "done");
              ("records", JArr [JObj [("audio_url", JStr "https://x/a.mp3")]])].

(** The status reads [pending, processing, done, done, ...]. *)
Definition threeReads (k : nat) : fetched :=
  match k with
  | O => pending
  | S O => processing
  | _ => finished
  end.

Definition threeReadsNet : network :=
  idealNet (Responded accepted) threeReads noUpload [O].

(** The job never leaves [processing]. *)
Definition stuckNet : network :=
  idealNet (Responded accepted) (fun _ => processing) noUpload [].

Definition abcUrl : jsval := JStr "https://api.paxsenix.org/task/abc".

(** The first status read fails (HTTP 500, no JSON), the next ones
    report the finished job. *)
Definition flakyNet : network :=
  idealNet (Responded accepted)
    (fun k => match k with
              | O => Responded {| status := 500; decoded := None |}
              | _ => finished
              end)
    noUpload [O].

Definition timeoutQuery : gmap string qval :=
  {[ "timeoutMs" := QStr "10000"; "pollIntervalMs" := QStr "3000" ]}.

(** A finished job with three records, the second without [audio_url]. *)
Definition threeRecords : jsval :=
  JObj [("ok", JBool true); ("status", JStr "done");
        ("records",
         JArr [JObj [("id", JStr "r1"); ("audio_url", JStr "https://x/a.mp3")];
               JObj [("id", JStr "r2")];
               JObj [("id", JStr "r3"); ("audio_url", JStr "https://x/b.mp3")]])].

Definition stored : response :=
  {| status := 200;
     decoded := Some (JObj [("success", JBool true);
                            ("data", JObj [("downloadUrl", JStr "https://files/a.mp3");
                                           ("fileSize", JNum (num 154832))])]) |}.

Definition storageDown : response := {| status := 500; decoded := None |}.

(** The upload of the third record fails upstream; the uploads settle
    in the order third, first, second. *)
Definition batchNet : network :=
  idealNet (Responded accepted) (fun _ => Responded {| status := 200; decoded := Some threeRecords |})
    (fun i _ => if (i =? 2)%nat then Responded storageDown else Responded stored)
    [2; 0; 1]%nat.

(** A completion callback with one track, and the same without the
    track's [audio_url]. *)
Definition trackT1 : Cover.item :=
  {| Cover.id := Some "t1"; Cover.audio_url := Some "https://x/a.mp3";
     Cover.image_url := None; Cover.title := None; Cover.prompt := None;
     Cover.duration := None |}.

Definition silentT1 : Cover.item :=
  {| Cover.id := Some "t1"; Cover.audio_url := None;
     Cover.image_url := None; Cover.title := None; Cover.prompt := None;
     Cover.duration := None |}.

Definition completion200 (tracks : list Cover.item) : Cover.envelope :=
  {| Cover.code := Some (num 200); Cover.msg := Some "success";
     Cover.data := Some {| Cover.callbackType := Some "complete";
                           Cover.task_id := Some "task9";
                           Cover.items := Some tracks |} |}.

Definition storageDownNet : network :=
  idealNet (Responded accepted) noStatus (fun _ _ => Responded storageDown) [].

(** The scenario of the documentation: the job [abc] is read as
    processing twice and then as done with one record, which the storage
    provider takes. *)
Definition scenarioNet : network :=
  idealNet (Responded accepted)
    (fun k => if (k <? 2)%nat then processing else finished)
    (fun _ _ => Responded stored) [O].

(** A deployment without the storage credential. *)
Definition paxKeyOnly : environment :=
  {| PAXSENIX_API_KEY := Some "pax-key"; KIE_API_KEY := None |}.

(** ** Objects as the runtime has them *)

(** The keys of an object, in order.  A JavaScript object holds each key
    once; [distinctKeys] says so of the top level of a value. *)
Definition keys (props : list (string * jsval)) : list string := props.*1.

Definition distinctKeys (v : jsval) : Prop :=
  match v with JObj props => NoDup (keys props) | _ => True end.

(** ** The test page ([src/pages/MusicTest.tsx]) *)

Module UI.

(** [superRefine] of the form schema ([formSchema], [paxFormSchema]):
    the rules of the server's schema, with messages of its own. *)
Definition nonCustomIssues (v : GenerationRequest) : list string :=
  addIssueIf (blank (prompt v)) "prompt wajib saat customMode=false"
  ++ addIssueIf (400 <? len (prompt v)) "prompt max 400 karakter saat customMode=false".

Definition customIssues (v : GenerationRequest) : list string :=
  addIssueIf (blank (title v)) "title wajib saat customMode=true"
  ++ addIssueIf (blank (style v)) "style wajib saat customMode=true"
  ++ addIssueIf (negb (instrumental v) && blank (prompt v))
       "prompt wajib saat customMode=true dan instrumental=false"
  ++ addIssueIf (80 <? len (title v)) "title max 80 karakter"
  ++ addIssueIf (promptLimit (model v) <? len (prompt v))
       ("prompt max " +:+ pretty (promptLimit (model v))
        +:+ " karakter untuk model " +:+ modelName (model v))
  ++ addIssueIf (styleLimit (model v) <? len (style v))
       ("style max " +:+ pretty (styleLimit (model v))
        +:+ " karakter untuk model " +:+ modelName (model v)).

Definition formIssues (v : GenerationRequest) : list string :=
  if negb (customMode v) then nonCustomIssues v else customIssues v.

(** [validate] / [validatePaxPayload]: the payload to send, or the text
    of the toast ([parsed.error.errors[0]?.message ?? "Periksa input Anda."]). *)
Definition validatePaxPayload (v : GenerationRequest) : string + GenerationRequest :=
  match formIssues v with
  | [] => inr v
  | first :: _ => inl first
  end.

End UI.

(** A custom-mode request: an instrumental, so no lyrics are needed. *)
Definition anthem : GenerationRequest :=
  {| customMode := true; instrumental := true; title := "Anthem"; style := "rock";
     prompt := ""; model := V4; negativeTags := "" |}.

(** Timers are never early: a status read takes no negative time and a
    [sleep] lasts the delay asked for at least. *)
Definition patient (net : network) (pollIntervalMs : jsnum) : Prop :=
  forall k, 0 <= fetchMs net k
            /\ num_le pollIntervalMs (num (sleepMs net k pollIntervalMs)) = true.

Definition isUpload (e : event) : bool :=
  match e with Upload _ => true | _ => false end.

(** A request that names the uploaded file itself. *)
Definition namedUpload : UploadRequest :=
  {| generation := lofi; kieUploadPath := "music/paxsenix"; kieFileName := " song.mp3 " |}.

(** Some record has an audio URL: an [audio_url] that is a string and
    not empty. *)
Definition someAudio (records : list jsval) : bool :=
  existsb (fun r => negb (String.eqb (audioUrlOf r) "")) records.

(** The job is done with three records; the storage provider cannot be
    reached for the third. *)
Definition unreachableNet : network :=
  idealNet (Responded accepted)
    (fun _ => Responded {| status := 200; decoded := Some threeRecords |})
    (fun i _ => if (i =? 2)%nat then NetworkError "fetch failed" else Responded stored)
    [2; 0; 1]%nat.

(** ** The status endpoint ([GET /api/task/:jobId]) *)

(** [encodeURIComponent] on code units below 256: letters, digits and
    the marks [- _ . ! ~ * ' ( )] stay; every other code unit is replaced
    by the escaped bytes of its UTF-8 encoding, one byte below 128 and
    two from 128 on. *)
Definition unreserved (c : ascii) : bool :=
  let n := nat_of_ascii c in
  ((65 <=? n) && (n <=? 90))%nat || ((97 <=? n) && (n <=? 122))%nat
  || ((48 <=? n) && (n <=? 57))%nat
  || existsb (Ascii.eqb c) (list_ascii_of_string "-_.!~*'()").

Definition hexDigit (n : nat) : ascii :=
  nth n (list_ascii_of_string "0123456789ABCDEF") "0"%char.

Definition escape (byte : nat) : string :=
  String "%" (String (hexDigit (byte / 16)) (String (hexDigit (byte mod 16)) "")).

Definition encodeUnit (c : ascii) : string :=
  let n := nat_of_ascii c in
  if unreserved c then String c ""
  else if (n <? 128)%nat then escape n
  else escape (192 + n / 64) +:+ escape (128 + n mod 64).

Fixpoint encodeURIComponent (s : string) : string :=
  match s with
  | EmptyString => ""
  | String c rest => encodeUnit c +:+ encodeURIComponent rest
  end.

Definition jobIdRequired : httpResponse :=
  json 400 (normalizeAuthor
    (JObj [("ok", JBool false); ("message", JStr "jobId is required")])).

(** [`${PAXSENIX_BASE_URL}/task/${encodeURIComponent(jobId)}`] *)
Definition statusUrl (jobId : string) : jsval :=
  JStr (PAXSENIX_BASE_URL +:+ "/task/" +:+ encodeURIComponent jobId).

(** The handler: one status read, relayed; it is the first read of the
    run, [statusAt net 0].  [req.query.jobId] is a string, or an array
    when the key is repeated. *)
Definition statusHandler {A : Type} (env : environment) (net : network)
    (req : request A) : list event * httpResponse :=
  if String.eqb (method req) "OPTIONS" then ([], {| statusCode := 204; body := None |})
  else if negb (String.eqb (method req) "GET") then ([], methodNotAllowed)
  else
    match query req !! "jobId" with
    | Some (QStr jobId) =>
        if String.eqb jobId "" then ([], jobIdRequired)
        else
          match getApiKey env with
          | Throw m => ([], internalError m)
          | Ok _ =>
              match statusAt net O with
              | NetworkError m => ([GetStatus (statusUrl jobId)], internalError m)
              | Responded upstream =>
                  let data := jsonOrNull upstream in
                  if negb (ok upstream) then
                    ([GetStatus (statusUrl jobId)],
                     json 502 (normalizeAuthor
                       (JObj [("ok", JBool false); ("message", JStr "Upstream error");
                              ("status", JNum (num (status upstream)));
                              ("upstream", data)])))
                  else ([GetStatus (statusUrl jobId)], json 200 (normalizeAuthor data))
              end
          end
    | _ => ([], jobIdRequired)
    end.

(** A [GET] of the status of job [jobId]. *)
Definition statusOf (jobId : string) : request unit :=
  {| method := "GET"; query := {[ "jobId" := QStr jobId ]}; payload := Typed tt |}.

(** ** Starting a cover ([POST /api/ai-music/cover-audio]) *)

Module CoverStart.

Inductive Model : Type := V4 | V4_5 | V4_5PLUS | V4_5ALL | V5.

Definition modelName (m : Model) : string :=
  match m with
  | V4 => "V4" | V4_5 => "V4_5" | V4_5PLUS => "V4_5PLUS"
  | V4_5ALL => "V4_5ALL" | V5 => "V5"
  end.

Inductive Gender : Type := Male | Female.

Definition genderName (g : Gender) : string :=
  match g with Male => "m" | Female => "f" end.

(** The object [requestSchema] yields: defaults applied, the optional
    fields without a default present or not. *)
Record Request : Type := {
  uploadUrl : string;
  callBackUrl : option string;
  prompt : string;
  customMode : bool;
  instrumental : bool;
  model : Model;
  style : string;
  title : string;
  negativeTags : string;
  vocalGender : option Gender;
  styleWeight : option jsnum;
  weirdnessConstraint : option jsnum;
  audioWeight : option jsnum;
  personaId : option string;
}.

(** The properties of [parsed.data]. *)
Definition toProps (v : Request) : list (string * jsval) :=
  [("uploadUrl", JStr (uploadUrl v))]
  ++ Cover.field "callBackUrl" JStr (callBackUrl v)
  ++ [("prompt", JStr (prompt v));
      ("customMode", JBool (customMode v));
      ("instrumental", JBool (instrumental v));
      ("model", JStr (modelName (model v)));
      ("style", JStr (style v));
      ("title", JStr (title v));
      ("negativeTags", JStr (negativeTags v))]
  ++ Cover.field "vocalGender" (fun g => JStr (genderName g)) (vocalGender v)
  ++ Cover.field "styleWeight" JNum (styleWeight v)
  ++ Cover.field "weirdnessConstraint" JNum (weirdnessConstraint v)
  ++ Cover.field "audioWeight" JNum (audioWeight v)
  ++ Cover.field "personaId" JStr (personaId v).

(** [a || b] on header values: a string, or [undefined]. *)
Definition orElse (a b : option string) : option string :=
  match a with
  | Some s => if String.eqb s "" then b else a
  | None => b
  end.

(** A string or [undefined] inside a template literal. *)
Definition shown (a : option string) : string := default "undefined" a.

Definition getBaseUrl (headers : gmap string string) : string :=
  let proto := orElse (headers !! "x-forwarded-proto") (Some "https") in
  let host := orElse (headers !! "x-forwarded-host") (headers !! "host") in
  shown proto +:+ "://" +:+ shown host.

(** [parsed.data.callBackUrl || `${getBaseUrl(req)}/api/ai-music/cover-audio/callback`] *)
Definition callBackUrlOf (headers : gmap string string) (v : Request) : string :=
  shown (orElse (callBackUrl v)
           (Some (getBaseUrl headers +:+ "/api/ai-music/cover-audio/callback"))).

Definition styleAndTitleRequired : httpResponse :=
  json 400 (normalizeAuthor
    (JObj [("ok", JBool false);
           ("message", JStr "style & title wajib saat customMode=true")])).

(** The own enumerable properties [{...data}] copies, whatever the
    provider's body decodes to. *)
Definition spreadable (data : jsval) : list (string * jsval) :=
  match data with
  | JObj props => props
  | JArr items => indexed items
  | JStr s => indexed (map (fun c => JStr (String c "")) (list_ascii_of_string s))
  | _ => []
  end.

Definition started (callBackUrl : string) (data : jsval) : httpResponse :=
  json 200 (normalizeAuthor
    (JObj (spread [("ok", JBool true); ("provider", JStr "kie");
                   ("callBackUrl", JStr callBackUrl)]
             (spreadable data)))).

(** The handler; [upstream] is the provider's answer to the body
    posted, and the first component lists the bodies posted. *)
Definition handler (env : environment) (upstream : jsval -> fetched)
    (headers : gmap string string) (req : request Request)
  : list jsval * httpResponse :=
  if String.eqb (method req) "OPTIONS" then ([], {| statusCode := 204; body := None |})
  else if negb (String.eqb (method req) "POST") then ([], methodNotAllowed)
  else
    match payload req with
    | InvalidJson => ([], internalError "Invalid JSON body")
    | Malformed errors => ([], invalidRequest errors)
    | Typed v =>
        let callBackUrl := callBackUrlOf headers v in
        if customMode v && (blank (style v) || blank (title v))
        then ([], styleAndTitleRequired)
        else
          match getKieApiKey env with
          | Throw m => ([], internalError m)
          | Ok _ =>
              let sent := JObj (spread (toProps v) [("callBackUrl", JStr callBackUrl)]) in
              match upstream sent with
              | NetworkError m => ([sent], internalError m)
              | Responded r =>
                  let data := jsonOrNull r in
                  if negb (ok r) then
                    ([sent],
                     json 502 (normalizeAuthor
                       (JObj [("ok", JBool false); ("message", JStr "Upstream error");
                              ("status", JNum (num (status r)));
                              ("upstream", data)])))
                  else ([sent], started callBackUrl data)
              end
          end
    end.

(** A cover request as the test page sends it, and headers as the
    platform sets them. *)
Definition remix : Request :=
  {| uploadUrl := "https://x/in.mp3"; callBackUrl := None; prompt := "";
     customMode := false; instrumental := true; model := V5; style := "";
     title := ""; negativeTags := ""; vocalGender := None; styleWeight := None;
     weirdnessConstraint := None; audioWeight := None; personaId := None |}.

Definition forwarded : gmap string string :=
  {[ "x-forwarded-proto" := "http"; "x-forwarded-host" := "melody.example";
     "host" := "internal:3000" ]}.

(** The provider accepts the request with 200 and a body that says
    [ok: false]. *)
Definition grudging : jsval -> fetched :=
  fun _ => answer 200 [("ok", JBool false); ("code", JNum (num 200));
                        ("data", JObj [("taskId", JStr "t-1")])].

End CoverStart.

(** ** What a client reads *)

(** [JSON.parse(JSON.stringify(v))]: a property whose value is
    [undefined] is dropped, [undefined] in an array and the numbers that
    are not finite become [null]. *)
Fixpoint wire (v : jsval) : jsval :=
  match v with
  | JNum (Fin q) => v
  | JNum _ => JNull
  | JArr items =>
      JArr (map (fun x => match x with JUndefined => JNull | _ => wire x end) items)
  | JObj props =>
      JObj (flat_map (fun kv => match kv with
                                | (k, JUndefined) => []
                                | (k, x) => [(k, wire x)]
                                end) props)
  | _ => v
  end.

(** What the round trip leaves of the properties of an object. *)
Definition wireProps (props : list (string * jsval)) : list (string * jsval) :=
  flat_map (fun kv => match kv with
                      | (k, JUndefined) => []
                      | (k, x) => [(k, wire x)]
                      end) props.

(** What it leaves of a property read, [undefined] when the property
    is missing. *)
Definition wireField (v : jsval) : jsval :=
  match v with JUndefined => JUndefined | _ => wire v end.

(** The values [JSON.parse] yields: no [undefined], finite numbers,
    objects with distinct keys. *)
Fixpoint isJson (v : jsval) : bool :=
  match v with
  | JUndefined => false
  | JNum (Fin _) => true
  | JNum _ => false
  | JArr items => forallb isJson items
  | JObj props =>
      bool_decide (NoDup (map fst props))
      && forallb (fun kv => match kv with (_, x) => isJson x end) props
  | _ => true
  end.

(** The URLs of the upload requests in a trace. *)
Definition urlsUploaded (trace : list event) : list string :=
  flat_map (fun e => match e with Upload sent => [fileUrl sent] | _ => [] end) trace.

(** The records whose upload the storage provider answered with a 2xx
    status: the record's audio URL and the [downloadUrl] of the answer. *)
Definition storedAt {rt : Runtime} (net : network) (u : UploadRequest) (jobId : jsval)
    (idx : nat) (r : jsval) : list (string * jsval) :=
  if String.eqb (audioUrlOf r) "" then []
  else match kieUpload net idx (uploadRequestFor u jobId idx r) with
       | Responded resp =>
           if ok resp
           then [(audioUrlOf r, get "downloadUrl" (get "data" (jsonOrNull resp)))]
           else []
       | NetworkError _ => []
       end.

Definition storedRecords {rt : Runtime} (net : network) (u : UploadRequest)
    (jobId : jsval) (records : list jsval) : list (string * jsval) :=
  concat (imap (storedAt net u jobId) records).

(** ** The test console (the page of [extractPaxRecords]) *)

Module Page.

(** [await resp.json().catch(() => ({}))] on what [json(res, ...)] or
    [res.status(204).end()] sent. *)
Definition received (resp : httpResponse) : jsval :=
  match body resp with
  | None | Some JUndefined => JObj []
  | Some sent => wire sent
  end.

(** [typeof v === "string" ? v : undefined] and the like. *)
Definition stringOf (v : jsval) : option string :=
  match v with JStr s => Some s | _ => None end.

Definition numberOf (v : jsval) : option jsnum :=
  match v with JNum n => Some n | _ => None end.

(** Truthiness of a string or [undefined]. *)
Definition given (s : option string) : bool :=
  match s with Some s => negb (String.eqb s "") | None => false end.

Record track : Type := {
  audio_url : option string;
  image_url : option string;
  title : option string;
  duration : option jsnum;
}.

Definition trackOf (r : jsval) : track :=
  {| audio_url := stringOf (get "audio_url" r);
     image_url := stringOf (get "image_url" r);
     title := stringOf (get "title" r);
     duration := numberOf (get "duration" r) |}.

Definition extractPaxRecords (result : jsval) : list track :=
  filter (fun t => given (audio_url t)) (trackOf <$> recordsOf result).

Record hosted : Type := {
  sourceAudioUrl : option string;
  downloadUrl : option string;
  fileName : option string;
  fileSizeMB : option jsnum;
}.

Definition hostedOf (u : jsval) : hosted :=
  {| sourceAudioUrl := stringOf (get "sourceAudioUrl" u);
     downloadUrl := stringOf (get "downloadUrl" (get "kie" u));
     fileName := stringOf (get "fileName" (get "kie" u));
     fileSizeMB := numberOf (get "fileSizeMB" (get "kie" u)) |}.

(** [Array.isArray(result?.kieUploads) ? result.kieUploads : []] *)
Definition uploadsOf (result : jsval) : list jsval :=
  match get "kieUploads" result with JArr items => items | _ => [] end.

Definition extractKieUploads (result : jsval) : list hosted :=
  filter (fun h => given (sourceAudioUrl h) || given (downloadUrl h))
         (hostedOf <$> uploadsOf result).



(** [coverCallbackResult?.kieUploadedFirstTrack?.downloadUrl]: the
    cover the console offers for playing, when it is truthy. *)
Definition coverUploadedUrl (result : jsval) : jsval :=
  get "downloadUrl" (get "kieUploadedFirstTrack" result).

End Page.

(** * Properties *)

(** ** Numbers *)

Lemma Qle_bool_spec (p q : Q) : reflect (p <= q)%Q (Qle_bool p q).
Proof.
  destruct (Qle_bool p q) eqn:E; constructor.
  - by apply Qle_bool_iff.
  - intros Hle. apply Qle_bool_iff in Hle. congruence.
Qed.

Lemma Qlt_bool_spec (p q : Q) : reflect (p < q)%Q (Qlt_bool p q).
Proof.
  unfold Qlt_bool. destruct (Qle_bool_spec q p) as [Hle | Hnle]; constructor.
  - by apply Qle_not_lt.
  - by apply Qnot_le_lt.
Qed.

Lemma num_lt_Fin (p q : Q) : num_lt (Fin p) (Fin q) = true <-> (p < q)%Q.
Proof. simpl. by destruct (Qlt_bool_spec p q). Qed.

Lemma num_lt_num (a b : Z) : num_lt (num a) (num b) = true <-> a < b.
Proof. unfold num. rewrite num_lt_Fin. by rewrite <- Zlt_Qlt. Qed.

Lemma num_lt_num_false (a b : Z) : num_lt (num a) (num b) = false <-> b <= a.
Proof.
  destruct (num_lt (num a) (num b)) eqn:E.
  - apply num_lt_num in E. split; [done | lia].
  - split; [| done]. intros _. destruct (Z_lt_le_dec a b) as [Hlt | Hle]; [| done].
    apply num_lt_num in Hlt. congruence.
Qed.

(** ** C2: the polling parameters *)

Lemma parseTimeoutMs_range {rt : Runtime} (query : gmap string qval) :
  exists q, parseTimeoutMs query = Fin q /\ (0 < q <= 900000)%Q.
Proof.
  unfold parseTimeoutMs.
  destruct (timeoutRaw query) as [raw|]; [| by exists 300000%Q].
  destruct (Number (queryArg raw)) as [| | |q]; try by exists 300000%Q.
  cbn [isFinite negb orb num_le num Math_min num_lt].
  change (inject_Z 0) with 0%Q. change (inject_Z (15 * 60 * 1000)) with 900000%Q.
  destruct (Qle_bool_spec q 0) as [Hle | Hnle]; [by exists 300000%Q |].
  destruct (Qlt_bool_spec 900000 q) as [Hgt | Hngt]; [by exists 900000%Q |].
  exists q. split; [done | lra].
Qed.

Lemma parsePollIntervalMs_range {rt : Runtime} (query : gmap string qval) :
  exists q, parsePollIntervalMs query = Fin q /\ (1000 <= q <= 30000)%Q.
Proof.
  unfold parsePollIntervalMs.
  destruct (pollIntervalRaw query) as [raw|]; [| by exists 5000%Q].
  destruct (Number (queryArg raw)) as [| | |q]; try by exists 5000%Q.
  cbn [isFinite negb orb num Math_min num_lt].
  change (inject_Z 1000) with 1000%Q. change (inject_Z 30000) with 30000%Q.
  destruct (Qlt_bool_spec q 1000) as [Hlt | Hnlt]; [by exists 5000%Q |].
  destruct (Qlt_bool_spec 30000 q) as [Hgt | Hngt]; [by exists 30000%Q |].
  exists q. split; [done | lra].
Qed.

(** C2 (as the code has it).  For every query the two parameters are
    read without error: [timeoutMs] that is absent, not a finite number
    (non-numeric, or infinite), zero or negative gives the default
    300000, above 900000 it gives 900000, and in between it is kept;
    [pollIntervalMs] that is absent, not a finite number or below the
    floor 1000 gives the default 5000 (it is not raised to the floor),
    above 30000 it gives 30000, and in between it is kept.  The results
    are always finite, in (0, 900000] and in [1000, 30000]. *)
Theorem polling_parameters_clamped {rt : Runtime} (query : gmap string qval) :
  (timeoutRaw query = None -> parseTimeoutMs query = num 300000)
  /\ (forall raw, timeoutRaw query = Some raw ->
        match Number (queryArg raw) with
        | Fin q =>
            ((q <= 0)%Q -> parseTimeoutMs query = num 300000)
            /\ ((900000 < q)%Q -> parseTimeoutMs query = num 900000)
            /\ ((0 < q <= 900000)%Q -> parseTimeoutMs query = Fin q)
        | _ => parseTimeoutMs query = num 300000
        end)
  /\ (pollIntervalRaw query = None -> parsePollIntervalMs query = num 5000)
  /\ (forall raw, pollIntervalRaw query = Some raw ->
        match Number (queryArg raw) with
        | Fin q =>
            ((q < 1000)%Q -> parsePollIntervalMs query = num 5000)
            /\ ((30000 < q)%Q -> parsePollIntervalMs query = num 30000)
            /\ ((1000 <= q <= 30000)%Q -> parsePollIntervalMs query = Fin q)
        | _ => parsePollIntervalMs query = num 5000
        end)
  /\ (exists q, parseTimeoutMs query = Fin q /\ (0 < q <= 900000)%Q)
  /\ (exists q, parsePollIntervalMs query = Fin q /\ (1000 <= q <= 30000)%Q).
Proof.
  unfold parseTimeoutMs, parsePollIntervalMs.
  split; [by intros -> |].
  split.
  { intros raw ->. destruct (Number (queryArg raw)) as [| | |q]; try done.
    cbn [isFinite negb orb num_le num Math_min num_lt].
    change (inject_Z 0) with 0%Q. change (inject_Z (15 * 60 * 1000)) with 900000%Q.
    destruct (Qle_bool_spec q 0) as [Hle | Hnle],
             (Qlt_bool_spec 900000 q) as [Hgt | Hngt];
      repeat split; intros; try reflexivity; exfalso; lra. }
  split; [by intros -> |].
  split.
  { intros raw ->. destruct (Number (queryArg raw)) as [| | |q]; try done.
    cbn [isFinite negb orb num Math_min num_lt].
    change (inject_Z 1000) with 1000%Q. change (inject_Z 30000) with 30000%Q.
    destruct (Qlt_bool_spec q 1000) as [Hlt | Hnlt],
             (Qlt_bool_spec 30000 q) as [Hgt | Hngt];
      repeat split; intros; try reflexivity; exfalso; lra. }
  split; [apply parseTimeoutMs_range | apply parsePollIntervalMs_range].
Qed.

Lemma polling_parameters_clamped_witness :
  parseTimeoutMs (rt := sampleRuntime) {[ "timeoutMs" := QStr "10000000" ]} = num 900000
  /\ parseTimeoutMs (rt := sampleRuntime) {[ "timeoutMs" := QStr "-5" ]} = num 300000
  /\ parseTimeoutMs (rt := sampleRuntime) {[ "timeoutMs" := QStr "abc" ]} = num 300000
  /\ parsePollIntervalMs (rt := sampleRuntime) {[ "pollIntervalMs" := QStr "100" ]} = num 5000
  /\ parsePollIntervalMs (rt := sampleRuntime) {[ "pollIntervalMs" := QStr "60000" ]} = num 30000
  /\ parsePollIntervalMs (rt := sampleRuntime) ∅ = num 5000.
Proof.
  refine (conj _ (conj _ (conj _ (conj _ (conj _ _))))).
  - destruct (polling_parameters_clamped (rt := sampleRuntime)
                {[ "timeoutMs" := QStr "10000000" ]}) as (_ & H & _).
    apply (H (QStr "10000000") eq_refl). reflexivity.
  - destruct (polling_parameters_clamped (rt := sampleRuntime)
                {[ "timeoutMs" := QStr "-5" ]}) as (_ & H & _).
    apply (H (QStr "-5") eq_refl). vm_compute. discriminate.
  - destruct (polling_parameters_clamped (rt := sampleRuntime)
                {[ "timeoutMs" := QStr "abc" ]}) as (_ & H & _).
    apply (H (QStr "abc") eq_refl).
  - destruct (polling_parameters_clamped (rt := sampleRuntime)
                {[ "pollIntervalMs" := QStr "100" ]}) as (_ & _ & _ & H & _).
    apply (H (QStr "100") eq_refl). reflexivity.
  - destruct (polling_parameters_clamped (rt := sampleRuntime)
                {[ "pollIntervalMs" := QStr "60000" ]}) as (_ & _ & _ & H & _).
    apply (H (QStr "60000") eq_refl). reflexivity.
  - destruct (polling_parameters_clamped (rt := sampleRuntime) ∅) as (_ & _ & H & _).
    apply H. reflexivity.
Defined.

(** C2, as stated, fails: an interval of 100 is not raised to the floor
    1000, it is replaced by the default 5000; and a budget that is above
    the ceiling without being finite gives the default, not 900000. *)
Lemma poll_interval_below_floor_is_not_clamped :
  parsePollIntervalMs (rt := sampleRuntime) {[ "pollIntervalMs" := QStr "100" ]} = num 5000
  /\ parsePollIntervalMs (rt := sampleRuntime) {[ "pollIntervalMs" := QStr "100" ]}
     <> num 1000
  /\ parseTimeoutMs (rt := sampleRuntime) {[ "timeoutMs" := QStr "Infinity" ]} = num 300000.
Proof. split; [reflexivity | split; [vm_compute; discriminate | reflexivity]]. Qed.

(** ** C6: validation when [customMode] is false *)

Lemma trimStart_empty (s : string) : trimStart s = "" <-> allSpaces s = true.
Proof.
  induction s as [|c s IH]; simpl; [done |].
  destruct (is_space c); simpl; [done |]. split; discriminate.
Qed.

Lemma trimStart_allSpaces (s : string) : allSpaces (trimStart s) = allSpaces s.
Proof.
  induction s as [|c s IH]; simpl; [done |].
  destruct (is_space c) eqn:E; simpl; [done |]. by rewrite E.
Qed.

Lemma trimEnd_empty (s : string) : trimEnd s = "" <-> allSpaces s = true.
Proof.
  induction s as [|c s IH]; simpl; [done |].
  destruct (is_space c); simpl.
  - destruct (String.eqb_spec (trimEnd s) "") as [E | E]; rewrite <- IH.
    + done.
    + split; [discriminate | done].
  - split; discriminate.
Qed.

Lemma blank_allSpaces (s : string) : blank s = allSpaces s.
Proof.
  unfold blank, trim. destruct (String.eqb_spec (trimEnd (trimStart s)) "") as [E | E].
  - apply trimEnd_empty in E. by rewrite trimStart_allSpaces in E.
  - destruct (allSpaces s) eqn:A; [| done]. exfalso. apply E.
    apply trimEnd_empty. by rewrite trimStart_allSpaces.
Qed.

Lemma allSpaces_false (s : string) :
  allSpaces s = false <->
  exists c, In c (list_ascii_of_string s) /\ is_space c = false.
Proof.
  induction s as [|c s IH]; simpl.
  - split; [done | by intros (c & [] & _)].
  - destruct (is_space c) eqn:E; simpl.
    + rewrite IH. split.
      * intros (c' & Hin & Hc'). eauto.
      * intros (c' & [-> | Hin] & Hc'); [congruence | eauto].
    + split; [| done]. intros _. exists c. auto.
Qed.

Lemma nonCustomIssues_nil (v : GenerationRequest) :
  nonCustomIssues v = [] <-> blank (prompt v) = false /\ len (prompt v) <= 400.
Proof.
  unfold nonCustomIssues, addIssueIf.
  destruct (blank (prompt v)), (Z.ltb_spec 400 (len (prompt v))); simpl;
    split; try done; try (intros [? ?]; done || lia).
Qed.

(** C6 (as the code has it).  With [customMode = false] validation
    succeeds exactly when [prompt] is not blank (it has a character that
    [trim] keeps; a prompt of blanks only is refused like the empty one)
    and is at most 400 code units long; no other field matters, in the
    three request schemas alike. *)
Theorem non_custom_validation (v : GenerationRequest) :
  customMode v = false ->
  (checked superRefine (Typed v) = inr v
   <-> (exists c, In c (list_ascii_of_string (prompt v)) /\ is_space c = false)
       /\ len (prompt v) <= 400)
  /\ (forall v', customMode v' = false -> prompt v' = prompt v ->
        superRefine v' = superRefine v)
  /\ (forall u, generation u = v -> superRefineUpload u = superRefine v).
Proof.
  intros Hmode. split; [| split].
  - rewrite <- allSpaces_false, <- blank_allSpaces, <- nonCustomIssues_nil.
    unfold checked, superRefine. rewrite Hmode. simpl.
    destruct (nonCustomIssues v); split; done.
  - intros v' Hmode' Hprompt. unfold superRefine, nonCustomIssues.
    by rewrite Hmode, Hmode', Hprompt.
  - intros u <-. unfold superRefineUpload, superRefine. by rewrite Hmode.
Qed.

Lemma non_custom_validation_witness : checked superRefine (Typed lofi) = inr lofi.
Proof.
  apply (non_custom_validation lofi eq_refl). split.
  - exists "l"%char. split; [simpl; auto | reflexivity].
  - vm_compute. discriminate.
Defined.

(** C6, as stated, fails: a prompt of one blank is non-empty and within
    400 characters, and validation refuses it. *)
Lemma blank_prompt_is_refused :
  prompt blankPrompt <> "" /\ len (prompt blankPrompt) <= 400
  /\ checked superRefine (Typed blankPrompt)
     = inl (invalidRequest (flatten ["prompt is required when customMode=false"])).
Proof. split; [discriminate | split; [vm_compute; discriminate | reflexivity]]. Qed.

(** ** C3: launching a job *)

Lemma checked_valid {A : Type} (refine : A -> list string) (v : A) :
  refine v = [] -> checked refine (Typed v) = inr v.
Proof. unfold checked. by intros ->. Qed.

Lemma startRefused_false (r : response) :
  startRefused r = false <->
  ok r = true /\ truthy (get "jobId" (jsonOrNull r)) = true.
Proof.
  unfold startRefused. destruct (ok r), (truthy _); simpl; split; try done;
    intros [? ?]; done.
Qed.

Lemma launchAndPoll_refused {rt : Runtime} env net fuel B I sent finish key r :
  getApiKey env = Ok key ->
  startJob net sent = Responded r ->
  startRefused r = true ->
  launchAndPoll env net fuel B I sent finish = Some ([StartJob sent], startFailed r).
Proof. unfold launchAndPoll. by intros -> -> ->. Qed.

Lemma waitHandler_post {rt : Runtime} env net fuel q (v : GenerationRequest) :
  superRefine v = [] ->
  waitHandler env net fuel (post q v)
  = launchAndPoll env net fuel (parseTimeoutMs q) (parsePollIntervalMs q)
      (payloadToUpstream v)
      (fun _ _ statusJson trace => Some (trace, json 200 (normalizeAuthor statusJson))).
Proof.
  intros Hv. unfold waitHandler, post. cbn [method query payload].
  by rewrite (checked_valid _ _ Hv).
Qed.

Lemma waitUploadHandler_post {rt : Runtime} env net fuel q (u : UploadRequest) :
  superRefineUpload u = [] ->
  waitUploadHandler env net fuel (post q u)
  = launchAndPoll env net fuel (parseTimeoutMs q) (parsePollIntervalMs q)
      (payloadToUpstream (generation u)) (uploadAll env net u).
Proof.
  intros Hu. unfold waitUploadHandler, post. cbn [method query payload].
  by rewrite (checked_valid _ _ Hu).
Qed.

(** C3 (as the code has it).  In the two waiting flows the launch is
    taken as successful only when the provider answers 2xx and the
    decoded body has a (truthy) [jobId]; otherwise the flow ends at once
    with a 502 that carries the provider's status code and decoded body
    (null when it did not decode).  The plain generate flow inspects the
    status code only: not-2xx gives the same kind of 502, and a 2xx
    answer is relayed with 200 whether or not it has a [jobId]. *)
Theorem launch_outcome {rt : Runtime} (env : environment) (net : network)
    (fuel : nat) (q : gmap string qval) (v : GenerationRequest)
    (u : UploadRequest) (key : string) (r : response) :
  getApiKey env = Ok key ->
  superRefine v = [] ->
  superRefineUpload u = [] ->
  generation u = v ->
  startJob net (payloadToUpstream v) = Responded r ->
  let sent := [StartJob (payloadToUpstream v)] in
  (startRefused r = false <->
     ok r = true /\ truthy (get "jobId" (jsonOrNull r)) = true)
  /\ (startRefused r = true ->
        waitHandler env net fuel (post q v) = Some (sent, startFailed r)
        /\ waitUploadHandler env net fuel (post q u) = Some (sent, startFailed r))
  /\ (statusCode (startFailed r) = 502
      /\ bodyField "ok" (startFailed r) = JBool false
      /\ bodyField "status" (startFailed r) = JNum (num (status r))
      /\ bodyField "upstream" (startFailed r) = jsonOrNull r)
  /\ (ok r = false ->
        exists refused,
          generateHandler env net (post q v) = (sent, refused)
          /\ statusCode refused = 502
          /\ bodyField "ok" refused = JBool false
          /\ bodyField "status" refused = JNum (num (status r))
          /\ bodyField "upstream" refused = jsonOrNull r)
  /\ (ok r = true ->
        generateHandler env net (post q v)
        = (sent, json 200 (normalizeAuthor (jsonOrNull r)))).
Proof.
  intros Hkey Hv Hu Hgen Hstart sent.
  split; [apply startRefused_false |].
  split.
  { intros Hrefused.
    rewrite (waitHandler_post _ _ _ _ _ Hv), (waitUploadHandler_post _ _ _ _ _ Hu), Hgen.
    by rewrite !(launchAndPoll_refused _ _ _ _ _ _ _ key r). }
  split; [done |].
  split.
  - intros Hok. eexists. unfold generateHandler, post. cbn [method query payload].
    rewrite (checked_valid _ _ Hv), Hkey. cbn [String.eqb Ascii.eqb Bool.eqb negb].
    rewrite Hstart, Hok. done.
  - intros Hok. unfold generateHandler, post. cbn [method query payload].
    rewrite (checked_valid _ _ Hv), Hkey. cbn [String.eqb Ascii.eqb Bool.eqb negb].
    by rewrite Hstart, Hok.
Qed.

Lemma launch_outcome_witness :
  waitHandler (rt := sampleRuntime) bothKeys queueFullNet 0 (post ∅ lofi)
  = Some ([StartJob (payloadToUpstream lofi)], startFailed queueFull)
  /\ waitUploadHandler (rt := sampleRuntime) bothKeys queueFullNet 0 (post ∅ lofiUpload)
     = Some ([StartJob (payloadToUpstream lofi)], startFailed queueFull).
Proof.
  destruct (launch_outcome (rt := sampleRuntime) bothKeys queueFullNet 0 ∅
              lofi lofiUpload "pax-key" queueFull
              eq_refl eq_refl eq_refl eq_refl eq_refl) as (_ & H & _).
  apply H. reflexivity.
Defined.

(** C3, as stated, fails for the generate flow: a 2xx answer without a
    [jobId] is relayed with HTTP 200, not turned into a 502. *)
Lemma generate_relays_answer_without_jobId :
  ok queueFull = true
  /\ get "jobId" (jsonOrNull queueFull) = JUndefined
  /\ generateHandler bothKeys queueFullNet (post ∅ lofi)
     = ([StartJob (payloadToUpstream lofi)],
        json 200 (JObj [("Author", JStr "@Dafidxcode"); ("ok", JBool false);
                        ("message", JStr "queue full")])).
Proof. split; [reflexivity | split; reflexivity]. Qed.

(** ** The poll loop *)

Section Loop.
Context (net : network) (taskUrl : jsval) (timeoutMs pollIntervalMs : jsnum).

Local Abbreviation loop := (pollUntilDone net taskUrl timeoutMs pollIntervalMs).
Local Abbreviation clk := (clock net pollIntervalMs).
Local Abbreviation inB := (inBudget net timeoutMs pollIntervalMs).
Local Abbreviation nonT := (nonTerminal net).
Local Abbreviation lastS := (lastSeen net).
Local Abbreviation reach := (reaches net timeoutMs pollIntervalMs).
Local Abbreviation rnds := (rounds taskUrl pollIntervalMs).
Local Abbreviation stop := (stops net timeoutMs pollIntervalMs).
Local Abbreviation exitA := (exitAt net timeoutMs pollIntervalMs).
Local Abbreviation lastR := (lastRead net taskUrl timeoutMs pollIntervalMs).

Lemma rounds_S (n : nat) :
  rnds (S n) = [GetStatus taskUrl; Sleep pollIntervalMs] ++ rnds n.
Proof. reflexivity. Qed.

Lemma rounds_snoc (n : nat) :
  rnds (S n) = rnds n ++ [GetStatus taskUrl; Sleep pollIntervalMs].
Proof.
  induction n as [|n IH]; [done |].
  rewrite rounds_S, IH at 1. by rewrite rounds_S, app_assoc.
Qed.

Lemma polls_app (t1 t2 : list event) : polls (t1 ++ t2) = (polls t1 + polls t2)%nat.
Proof. unfold polls. by rewrite filter_app, length_app. Qed.

Lemma polls_rounds (n : nat) : polls (rnds n) = n.
Proof.
  induction n as [|n IH]; [done |].
  rewrite rounds_S, polls_app, IH. reflexivity.
Qed.

(** One evaluation of the guard, on the state the loop has there. *)
Lemma loop_step (fuel k : nat) (trace : list event) :
  loop (S fuel) k (clk k) (lastS k) trace =
  if inB k then
    match statusAt net k with
    | NetworkError m => Some (Failed m, trace ++ [GetStatus taskUrl])
    | Responded r =>
        if isDone (jsonOrNull r) then
          Some (Done (jsonOrNull r), trace ++ [GetStatus taskUrl])
        else
          loop fuel (S k) (clk (S k)) (lastS (S k))
            (trace ++ [GetStatus taskUrl; Sleep pollIntervalMs])
    end
  else Some (TimedOut (lastS k), trace).
Proof.
  cbn [pollUntilDone]. unfold inBudget.
  destruct (num_lt (num (clk k)) timeoutMs); [| done].
  destruct (statusAt net k) as [m | r] eqn:E; [done |].
  destruct (isDone (jsonOrNull r)); [done |].
  cbn [lastSeen]. by rewrite E.
Qed.

(** The loop started in the state it has at guard [k] runs through [d]
    further rounds and stops. *)
Lemma loop_run (d : nat) : forall (k fuel : nat) (trace : list event),
  (forall j, (k <= j < k + d)%nat -> inB j = true /\ nonT j = true) ->
  stop (k + d) = true ->
  (d < fuel)%nat ->
  loop fuel k (clk k) (lastS k) trace
  = Some (exitA (k + d), trace ++ rnds d ++ lastR (k + d)).
Proof.
  induction d as [|d IH]; intros k fuel trace Hgo Hstop Hfuel;
    (destruct fuel as [|fuel]; [lia |]); rewrite loop_step.
  - rewrite Nat.add_0_r in *. unfold stops, nonTerminal in Hstop.
    unfold exitAt, lastRead. destruct (inB k); simpl in *.
    + destruct (statusAt net k) as [m | r]; [done |].
      destruct (isDone (jsonOrNull r)); done.
    + by rewrite app_nil_r.
  - destruct (Hgo k ltac:(lia)) as [Hin Hnon]. rewrite Hin.
    unfold nonTerminal in Hnon. destruct (statusAt net k) as [m | r]; [done |].
    destruct (isDone (jsonOrNull r)); [done |].
    rewrite (IH (S k) fuel); [| intros j Hj; apply Hgo; lia | | lia].
    + replace (S k + d)%nat with (k + S d)%nat by lia.
      by rewrite rounds_S, <- !app_assoc.
    + by replace (S k + d)%nat with (k + S d)%nat by lia.
Qed.

Lemma loop_inv (fuel : nat) : forall (k : nat) (trace : list event) out,
  loop fuel k (clk k) (lastS k) trace = Some out ->
  exists d, (d < fuel)%nat
    /\ (forall j, (k <= j < k + d)%nat -> inB j = true /\ nonT j = true)
    /\ stop (k + d) = true
    /\ out = (exitA (k + d), trace ++ rnds d ++ lastR (k + d)).
Proof.
  induction fuel as [|fuel IH]; intros k trace out; [done |].
  rewrite loop_step. destruct (inB k) eqn:Hin.
  - destruct (statusAt net k) as [m | r] eqn:Hst.
    + intros [= <-]. exists O. rewrite Nat.add_0_r.
      unfold stops, exitAt, lastRead, nonTerminal. rewrite Hin, Hst.
      split; [lia |]. split; [intros; lia |]. split; done.
    + destruct (isDone (jsonOrNull r)) eqn:Hdone.
      * intros [= <-]. exists O. rewrite Nat.add_0_r.
        unfold stops, exitAt, lastRead, nonTerminal. rewrite Hin, Hst, Hdone.
        split; [lia |]. split; [intros; lia |]. split; done.
      * intros Hrec. apply IH in Hrec as (d & Hd & Hgo & Hstop & ->).
        exists (S d). replace (k + S d)%nat with (S k + d)%nat by lia.
        split; [lia |]. split; [| split; [done |]].
        -- intros j Hj. destruct (decide (j = k)) as [-> | Hne].
           ++ unfold nonTerminal. by rewrite Hst, Hdone.
           ++ apply Hgo. lia.
        -- by rewrite rounds_S, <- !app_assoc.
  - intros [= <-]. exists O. rewrite Nat.add_0_r.
    unfold stops, exitAt, lastRead. rewrite Hin.
    split; [lia |]. split; [intros; lia |]. split; [done |]. by rewrite app_nil_r.
Qed.

(** The loop, entered as the handlers enter it, stops at [n] exactly
    when it reaches [n] and stops there; its exit and effects follow. *)
Lemma pollFrom_iff (fuel : nat) (before : list event) out :
  pollFrom net taskUrl timeoutMs pollIntervalMs fuel before = Some out <->
  exists n, (n < fuel)%nat /\ reach n /\ stop n = true
    /\ out = (exitA n, before ++ rnds n ++ lastR n).
Proof.
  unfold pollFrom. split.
  - intros H. apply (loop_inv fuel O) in H as (d & Hd & Hgo & Hstop & ->).
    exists d. split; [done |]. split; [| done]. intros j Hj. apply Hgo. lia.
  - intros (n & Hn & Hreach & Hstop & ->).
    apply (loop_run n O); [| done | done]. intros j Hj. apply Hreach. lia.
Qed.

Lemma isDone_iff (v : jsval) :
  isDone v = true <-> get "status" v = JStr "done" /\ get "ok" v = JBool true.
Proof.
  unfold isDone. destruct (get "status" v) as [| | | | s | |];
    try (split; [done | by intros [? _]]).
  destruct (get "ok" v) as [| | [|] | | | |]; rewrite ?andb_false_r, ?andb_true_r;
    try (split; [done | by intros [_ ?]]).
  destruct (String.eqb_spec s "done") as [-> | Hne]; split; try done.
  intros [[= ->] _]. done.
Qed.

(** Among the guards up to one at which the loop would stop there is
    the one at which it does stop. *)
Lemma first_stop (m : nat) :
  stop m = true -> exists n, (n <= m)%nat /\ reach n /\ stop n = true.
Proof.
  assert (Hsearch : forall m, reach m \/ exists n, (n < m)%nat /\ reach n /\ stop n = true).
  { clear m. induction m as [|m [IH | (n & Hn & Hr & Hs)]].
    - left. intros j Hj. lia.
    - destruct (stop m) eqn:Hs.
      + right. exists m. split; [lia | done].
      + left. intros j Hj. destruct (decide (j = m)) as [-> | Hne].
        * unfold stops in Hs. apply negb_false_iff, andb_true_iff in Hs. done.
        * apply IH. lia.
    - right. exists n. split; [lia | done]. }
  intros Hstop. destruct (Hsearch m) as [Hr | (n & Hn & Hr & Hs)].
  - exists m. done.
  - exists n. split; [lia | done].
Qed.

Lemma clock_grows : timely net pollIntervalMs -> forall k, Z.of_nat k <= clk k.
Proof.
  intros Htime. induction k as [|k IH]; [done |].
  cbn [clock]. destruct (Htime k). lia.
Qed.

Lemma budget_ends (b : Q) (k : nat) :
  timely net pollIntervalMs -> timeoutMs = Fin b ->
  Qceiling b <= Z.of_nat k -> inB k = false.
Proof.
  intros Htime -> Hk. unfold inBudget, num. cbn [num_lt].
  destruct (Qlt_bool_spec (inject_Z (clk k)) b) as [Hlt | Hnlt]; [| done].
  exfalso. pose proof (clock_grows Htime k) as Hclk.
  pose proof (Qle_ceiling b) as Hceil.
  assert (Hz : (inject_Z (Qceiling b) <= inject_Z (clk k))%Q) by (rewrite <- Zle_Qle; lia).
  lra.
Qed.

(** On a clock that moves on, a finite budget ends the loop: there is a
    guard at which it stops, and fuel beyond it gives the result. *)
Lemma loop_terminates (b : Q) (before : list event) :
  timely net pollIntervalMs -> timeoutMs = Fin b ->
  exists n, (n <= Z.to_nat (Qceiling b))%nat /\ reach n /\ stop n = true
    /\ forall fuel, (n < fuel)%nat ->
         pollFrom net taskUrl timeoutMs pollIntervalMs fuel before
         = Some (exitA n, before ++ rnds n ++ lastR n).
Proof.
  intros Htime HB.
  assert (Hend : stop (Z.to_nat (Qceiling b)) = true).
  { unfold stops. rewrite (budget_ends b); [done | done | done | lia]. }
  destruct (first_stop _ Hend) as (n & Hn & Hr & Hs).
  exists n. split; [done |]. split; [done |]. split; [done |].
  intros fuel Hfuel. apply pollFrom_iff. exists n. done.
Qed.

End Loop.

(** ** C4: when the loop returns success *)

(** C4.  The loop returns success exactly when it reaches a status read
    whose decoded body has [status] equal to "done" and [ok] equal to
    [true]; that body is what it returns.  A body reporting "done" whose
    [ok] is not [true] is non-terminal: the loop goes on to its next
    guard, and a loop that meets nothing but non-terminal reads ends with
    the timeout exit once the budget is used up, which on a clock that
    moves on happens after finitely many reads. *)
Theorem poll_success_iff_done_ok (net : network) (taskUrl : jsval)
    (timeoutMs pollIntervalMs : jsnum) (before : list event) :
  (forall v, isDone v = true <->
             get "status" v = JStr "done" /\ get "ok" v = JBool true)
  /\ (forall body,
        (exists fuel trace,
           pollFrom net taskUrl timeoutMs pollIntervalMs fuel before
           = Some (Done body, trace))
        <-> exists n r,
              reaches net timeoutMs pollIntervalMs n
              /\ inBudget net timeoutMs pollIntervalMs n = true
              /\ statusAt net n = Responded r
              /\ jsonOrNull r = body
              /\ get "status" body = JStr "done"
              /\ get "ok" body = JBool true)
  /\ (forall k r,
        statusAt net k = Responded r ->
        get "status" (jsonOrNull r) = JStr "done" ->
        get "ok" (jsonOrNull r) <> JBool true ->
        nonTerminal net k = true)
  /\ (forall n,
        reaches net timeoutMs pollIntervalMs n ->
        inBudget net timeoutMs pollIntervalMs n = false ->
        forall fuel, (n < fuel)%nat ->
          pollFrom net taskUrl timeoutMs pollIntervalMs fuel before
          = Some (TimedOut (lastSeen net n), before ++ rounds taskUrl pollIntervalMs n))
  /\ (forall b,
        timely net pollIntervalMs -> timeoutMs = Fin b ->
        (forall k, nonTerminal net k = true) ->
        exists n, (n <= Z.to_nat (Qceiling b))%nat
          /\ reaches net timeoutMs pollIntervalMs n
          /\ inBudget net timeoutMs pollIntervalMs n = false).
Proof.
  split; [apply isDone_iff |]. split; [| split; [| split]].
  - intros body. split.
    + intros (fuel & trace & H). apply pollFrom_iff in H as (n & _ & Hr & Hs & [= He _]).
      unfold exitAt in He. unfold stops, nonTerminal in Hs.
      destruct (inBudget net timeoutMs pollIntervalMs n) eqn:Hin; [| done].
      destruct (statusAt net n) as [m | r] eqn:Hst; [done |].
      injection He as ->. simpl in Hs. rewrite negb_involutive in Hs.
      apply isDone_iff in Hs as [Hstatus Hok]. exists n, r. done.
    + intros (n & r & Hr & Hin & Hst & <- & Hstatus & Hok).
      exists (S n), (before ++ rounds taskUrl pollIntervalMs n ++ [GetStatus taskUrl]).
      apply pollFrom_iff. exists n. split; [lia |]. split; [done |].
      unfold stops, nonTerminal, exitAt, lastRead. rewrite Hin, Hst.
      assert (Hd : isDone (jsonOrNull r) = true) by by apply isDone_iff.
      by rewrite Hd.
  - intros k r Hst Hstatus Hok. unfold nonTerminal. rewrite Hst.
    destruct (isDone (jsonOrNull r)) eqn:Hd; [| done].
    apply isDone_iff in Hd as [_ Hd]. done.
  - intros n Hr Hin fuel Hfuel. apply pollFrom_iff. exists n.
    unfold stops, exitAt, lastRead. rewrite Hin. by rewrite app_nil_r.
  - intros b Htime HB Hnon.
    destruct (loop_terminates net taskUrl timeoutMs pollIntervalMs b before Htime HB)
      as (n & Hn & Hr & Hs & _).
    exists n. split; [done |]. split; [done |].
    unfold stops in Hs. rewrite Hnon, andb_true_r in Hs. by apply negb_true_iff.
Qed.

Lemma poll_success_iff_done_ok_witness :
  pollFrom doneNotOkNet (JStr "https://api.paxsenix.org/task/abc")
    (num 10000) (num 3000) 5 []
  = Some (TimedOut (JObj [("ok", JBool false); ("status", JStr "done")]),
          rounds (JStr "https://api.paxsenix.org/task/abc") (num 3000) 4).
Proof.
  destruct (poll_success_iff_done_ok doneNotOkNet
              (JStr "https://api.paxsenix.org/task/abc") (num 10000) (num 3000) [])
    as (_ & _ & _ & H & _).
  apply (H 4%nat); [| reflexivity | lia].
  intros j Hj. destruct j as [|[|[|[|j]]]]; try lia; split; reflexivity.
Defined.

(** ** C5: the number of status reads on an ideal clock *)

Lemma ideal_clock (net : network) (I : jsnum) (i : Z) (k : nat) :
  ideal net I i -> clock net I k = Z.of_nat k * i.
Proof.
  intros Hideal. induction k as [|k IH]; [done |].
  cbn [clock]. destruct (Hideal k) as [-> ->]. lia.
Qed.

Lemma ceilDiv_spec (b i k : Z) : 0 < i -> k * i < b <-> k < ceilDiv b i.
Proof.
  intros Hi. unfold ceilDiv.
  pose proof (Z.div_mod (- b) i ltac:(lia)) as Hdm.
  pose proof (Z.mod_pos_bound (- b) i Hi) as Hm.
  split; intros H; nia.
Qed.

Lemma ideal_inBudget (net : network) (I : jsnum) (i b : Z) (k : nat) :
  0 < i -> ideal net I i ->
  inBudget net (num b) I k = true <-> Z.of_nat k < ceilDiv b i.
Proof.
  intros Hi Hideal. unfold inBudget. rewrite (ideal_clock net I i k Hideal).
  rewrite num_lt_num. by apply ceilDiv_spec.
Qed.

(** C5 (as the code has it).  On an ideal clock, with an interval
    [i > 0] and a budget [b]: when the first two status reads are
    non-terminal and the third is a successful done, and [b >= 3 i], the
    loop returns success after exactly 3 status reads; when the first
    [N] reads are non-terminal and [b < N i], the loop returns the
    timeout exit after exactly [b / i] rounded up status reads, one more
    than the rounded-down quotient whenever [i] does not divide [b]. *)
Theorem poll_counts_on_ideal_clock (net : network) (taskUrl : jsval)
    (i b : Z) (before : list event) :
  0 < i ->
  ideal net (num i) i ->
  (forall r,
     nonTerminal net 0 = true -> nonTerminal net 1 = true ->
     statusAt net 2 = Responded r -> isDone (jsonOrNull r) = true ->
     3 * i <= b ->
     forall fuel, (3 <= fuel)%nat ->
       exists trace,
         pollFrom net taskUrl (num b) (num i) fuel before
         = Some (Done (jsonOrNull r), trace)
         /\ polls trace = (polls before + 3)%nat)
  /\ (forall N : nat,
        (forall k, (k < N)%nat -> nonTerminal net k = true) ->
        b < Z.of_nat N * i ->
        forall fuel, (Z.to_nat (ceilDiv b i) < fuel)%nat ->
          exists trace,
            pollFrom net taskUrl (num b) (num i) fuel before
            = Some (TimedOut (lastSeen net (Z.to_nat (ceilDiv b i))), trace)
            /\ polls trace = (polls before + Z.to_nat (ceilDiv b i))%nat).
Proof.
  intros Hi Hideal. split.
  - intros r H0 H1 H2 Hdone Hb fuel Hfuel.
    assert (Hin : forall k, (k <= 2)%nat -> inBudget net (num b) (num i) k = true).
    { intros k Hk. apply (ideal_inBudget net (num i) i b k Hi Hideal).
      apply ceilDiv_spec; [done | nia]. }
    exists (before ++ rounds taskUrl (num i) 2 ++ [GetStatus taskUrl]). split.
    + apply pollFrom_iff. exists 2%nat. split; [lia |]. split; [| split].
      * intros j Hj. split; [apply Hin; lia |].
        destruct j as [|[|j]]; [done | done | lia].
      * unfold stops, nonTerminal. by rewrite H2, Hdone, andb_false_r.
      * unfold exitAt, lastRead. by rewrite (Hin 2%nat ltac:(lia)), H2.
    + rewrite !polls_app, polls_rounds. reflexivity.
  - intros N Hnon Hb fuel Hfuel. remember (Z.to_nat (ceilDiv b i)) as n eqn:Hn.
    assert (HN : ceilDiv b i <= Z.of_nat N).
    { destruct (Z_lt_le_dec (Z.of_nat N) (ceilDiv b i)) as [Hlt | Hle]; [| done].
      apply ceilDiv_spec in Hlt; [lia | done]. }
    assert (Hout : inBudget net (num b) (num i) n = false).
    { destruct (inBudget net (num b) (num i) n) eqn:E; [| done].
      apply (ideal_inBudget net (num i) i b n Hi Hideal) in E. lia. }
    exists (before ++ rounds taskUrl (num i) n). split.
    + apply pollFrom_iff. exists n. split; [lia |]. split; [| split].
      * intros j Hj. split; [| apply Hnon; lia].
        apply (ideal_inBudget net (num i) i b j Hi Hideal). lia.
      * unfold stops. by rewrite Hout.
      * unfold exitAt, lastRead. by rewrite Hout, app_nil_r.
    + by rewrite !polls_app, polls_rounds.
Qed.

Lemma ideal_idealNet start statuses uploads order (i : Z) :
  ideal (idealNet start statuses uploads order) (num i) i.
Proof.
  intros k. split; [reflexivity |].
  unfold idealNet, num. cbn [sleepMs]. apply Qfloor_Z.
Qed.

Lemma poll_counts_on_ideal_clock_witness :
  (exists trace,
     pollFrom threeReadsNet abcUrl (num 15000) (num 5000) 3 [] 
     = Some (Done (JObj [("ok", JBool true); ("status", JStr "done");
                         ("records", JArr [JObj [("audio_url", JStr "https://x/a.mp3")]])]),
             trace)
     /\ polls trace = 3%nat)
  /\ (exists trace,
        pollFrom stuckNet abcUrl (num 10000) (num 3000) 5 []
        = Some (TimedOut (JObj [("ok", JBool false); ("status", JStr "processing")]),
                trace)
        /\ polls trace = 4%nat).
Proof.
  split.
  - destruct (poll_counts_on_ideal_clock threeReadsNet abcUrl 5000 15000 []
                ltac:(lia) (ideal_idealNet _ _ _ _ 5000)) as [H _].
    apply (H {| status := 200;
                decoded := Some (JObj [("ok", JBool true); ("status", JStr "done");
                  ("records", JArr [JObj [("audio_url", JStr "https://x/a.mp3")]])]) |});
      try reflexivity; lia.
  - destruct (poll_counts_on_ideal_clock stuckNet abcUrl 3000 10000 []
                ltac:(lia) (ideal_idealNet _ _ _ _ 3000)) as [_ H].
    apply (H 4%nat); [reflexivity | lia | vm_compute; lia].
Defined.

(** C5, as stated, fails: with a budget of 10000 and an interval of
    3000 the guard holds at 0, 3000, 6000 and 9000, so a job that never
    finishes is read 4 times before the timeout, not 10000 / 3000 = 3. *)
Lemma timeout_after_more_than_the_quotient :
  ideal stuckNet (num 3000) 3000
  /\ (forall k, nonTerminal stuckNet k = true)
  /\ exists last trace,
       pollFrom stuckNet abcUrl (num 10000) (num 3000) 5 [] = Some (TimedOut last, trace)
       /\ polls trace = 4%nat
       /\ Z.of_nat (polls trace) <> 10000 / 3000.
Proof.
  split; [apply ideal_idealNet |]. split; [done |].
  eexists _, _. split; [vm_compute; reflexivity |].
  split; [reflexivity | vm_compute; discriminate].
Qed.

(** ** C7: the timeout response *)

Lemma launchAndPoll_accepted {rt : Runtime} env net fuel B I sent finish key r :
  getApiKey env = Ok key ->
  startJob net sent = Responded r ->
  startRefused r = false ->
  launchAndPoll env net fuel B I sent finish
  = match pollFrom net (taskUrlOf (jsonOrNull r)) B I fuel [StartJob sent] with
    | None => None
    | Some (Done statusJson, trace) =>
        finish (get "jobId" (jsonOrNull r)) (taskUrlOf (jsonOrNull r)) statusJson trace
    | Some (TimedOut last, trace) =>
        Some (trace, timedOut (get "jobId" (jsonOrNull r)) (taskUrlOf (jsonOrNull r)) last)
    | Some (Failed m, trace) => Some (trace, internalError m)
    end.
Proof. unfold launchAndPoll, pollFrom. by intros -> -> ->. Qed.

Lemma first_guard_holds {rt : Runtime} net (q : gmap string qval) :
  inBudget net (parseTimeoutMs q) (parsePollIntervalMs q) 0 = true.
Proof.
  destruct (parseTimeoutMs_range q) as (b & -> & Hb & _).
  unfold inBudget. cbn [clock]. apply num_lt_Fin. done.
Qed.

(** C7.  When the loop uses up its budget (it reaches its [n]-th guard
    and the guard fails), both waiting flows answer 408 with a body that
    carries the job's [jobId], as [task_url] the status URL that the [n]
    reads went to and, as [lastResponse], the decoded body of the last
    status read; at least one status read was made.  On a clock that moves on, a job that
    never finishes does bring the loop to that point. *)
Theorem timeout_response {rt : Runtime} (env : environment) (net : network)
    (q : gmap string qval) (v : GenerationRequest) (u : UploadRequest)
    (key : string) (r : response) :
  getApiKey env = Ok key ->
  superRefine v = [] ->
  superRefineUpload u = [] ->
  generation u = v ->
  startJob net (payloadToUpstream v) = Responded r ->
  startRefused r = false ->
  let B := parseTimeoutMs q in
  let I := parsePollIntervalMs q in
  let jobId := get "jobId" (jsonOrNull r) in
  let taskUrl := taskUrlOf (jsonOrNull r) in
  (forall n,
     reaches net B I n -> inBudget net B I n = false ->
     forall fuel, (n < fuel)%nat ->
       exists trace resp,
         waitHandler env net fuel (post q v) = Some (trace, resp)
         /\ waitUploadHandler env net fuel (post q u) = Some (trace, resp)
         /\ trace = [StartJob (payloadToUpstream v)] ++ rounds taskUrl I n
         /\ polls trace = n
         /\ statusCode resp = 408
         /\ bodyField "ok" resp = JBool false
         /\ bodyField "jobId" resp = jobId
         /\ bodyField "task_url" resp = taskUrl
         /\ bodyField "lastResponse" resp = lastSeen net n
         /\ exists j last,
              n = S j /\ statusAt net j = Responded last
              /\ lastSeen net n = jsonOrNull last)
  /\ (timely net I -> (forall k, nonTerminal net k = true) ->
      exists n, (Z.of_nat n <= 900000) /\ reaches net B I n /\ inBudget net B I n = false).
Proof.
  intros Hkey Hv Hu Hgen Hstart Haccepted B I jobId taskUrl. split.
  - intros n Hreach Hout fuel Hfuel.
    exists ([StartJob (payloadToUpstream v)] ++ rounds taskUrl I n),
           (timedOut jobId taskUrl (lastSeen net n)).
    assert (Hloop : pollFrom net taskUrl B I fuel [StartJob (payloadToUpstream v)]
                    = Some (TimedOut (lastSeen net n),
                            [StartJob (payloadToUpstream v)] ++ rounds taskUrl I n)).
    { apply pollFrom_iff. exists n. unfold stops, exitAt, lastRead. rewrite Hout.
      by rewrite app_nil_r. }
    split; [| split].
    + rewrite (waitHandler_post _ _ _ _ _ Hv).
      rewrite (launchAndPoll_accepted _ _ _ _ _ _ _ key r Hkey Hstart Haccepted).
      fold taskUrl B I. rewrite Hloop. reflexivity.
    + rewrite (waitUploadHandler_post _ _ _ _ _ Hu), Hgen.
      rewrite (launchAndPoll_accepted _ _ _ _ _ _ _ key r Hkey Hstart Haccepted).
      fold taskUrl B I. rewrite Hloop. reflexivity.
    + split; [reflexivity |]. split; [by rewrite polls_app, polls_rounds |].
      do 5 (split; [reflexivity |]).
      destruct n as [|j].
      { pose proof (first_guard_holds net q) as H0. fold B I in H0. congruence. }
      destruct (Hreach j ltac:(lia)) as [_ Hnon]. unfold nonTerminal in Hnon.
      destruct (statusAt net j) as [m | last] eqn:Hst; [done |].
      exists j, last. split; [reflexivity |]. split; [done |].
      cbn [lastSeen]. by rewrite Hst.
  - intros Htime Hnon. destruct (parseTimeoutMs_range q) as (b & HB & Hb0 & Hb1).
    destruct (loop_terminates net taskUrl B I b [] Htime HB) as (n & Hn & Hr & Hs & _).
    exists n. split; [| split; [done |]].
    + assert (Qceiling b <= 900000).
      { apply Qceiling_resp_le in Hb1.
        by replace (Qceiling 900000) with 900000 in Hb1 by reflexivity. }
      lia.
    + unfold stops in Hs. rewrite Hnon, andb_true_r in Hs. by apply negb_true_iff.
Qed.

Lemma timeout_response_witness :
  exists trace resp,
    waitHandler (rt := sampleRuntime) bothKeys stuckNet 5 (post timeoutQuery lofi)
    = Some (trace, resp)
    /\ waitUploadHandler (rt := sampleRuntime) bothKeys stuckNet 5
         (post timeoutQuery lofiUpload) = Some (trace, resp)
    /\ polls trace = 4%nat
    /\ statusCode resp = 408
    /\ bodyField "jobId" resp = JStr "abc"
    /\ bodyField "task_url" resp = abcUrl
    /\ bodyField "lastResponse" resp
       = JObj [("ok", JBool false); ("status", JStr "processing")].
Proof.
  destruct (timeout_response (rt := sampleRuntime) bothKeys stuckNet timeoutQuery
              lofi lofiUpload "pax-key" accepted
              eq_refl eq_refl eq_refl eq_refl eq_refl eq_refl) as [H _].
  destruct (H 4%nat) with (fuel := 5%nat)
    as (trace & resp & Hw & Hu & _ & Hp & Hc & _ & Hj & Ht & Hl & _).
  - intros j Hj. destruct j as [|[|[|[|j]]]]; try lia; split; reflexivity.
  - reflexivity.
  - lia.
  - exists trace, resp. repeat (split; [assumption |]). assumption.
Defined.

(** ** C1: status reads that fail *)

Lemma pollUntilDone_recode (codes : nat -> Z) (net : network) taskUrl B I (fuel : nat) :
  forall k elapsed last trace,
    pollUntilDone (withStatusCodes codes net) taskUrl B I fuel k elapsed last trace
    = pollUntilDone net taskUrl B I fuel k elapsed last trace.
Proof.
  induction fuel as [|fuel IH]; intros k elapsed last trace; [done |].
  cbn [pollUntilDone withStatusCodes statusAt fetchMs sleepMs].
  destruct (num_lt (num elapsed) B); [| done].
  destruct (statusAt net k) as [m | r]; [done |].
  cbn [recode]. unfold jsonOrNull. cbn [decoded].
  destruct (isDone (default JNull (decoded r))); [done |]. apply IH.
Qed.

Lemma launchAndPoll_recode {rt : Runtime} codes env net fuel B I sent finish :
  launchAndPoll env (withStatusCodes codes net) fuel B I sent finish
  = launchAndPoll env net fuel B I sent finish.
Proof.
  unfold launchAndPoll. cbn [withStatusCodes startJob].
  destruct (getApiKey env); [| done]. destruct (startJob net sent) as [m | r]; [done |].
  destruct (startRefused r); [done |]. by rewrite pollUntilDone_recode.
Qed.

Lemma internalError_code (m : string) : statusCode (internalError m) = 500.
Proof. reflexivity. Qed.

Lemma uploadAll_code {rt : Runtime} env net u jobId taskUrl statusJson trace trace' resp :
  uploadAll env net u jobId taskUrl statusJson trace = Some (trace', resp) ->
  statusCode resp = 200 \/ statusCode resp = 500.
Proof.
  unfold uploadAll. destruct (promiseAll _ _ _) as [[uploads | m] |]; [| | done].
  - intros [= _ <-]. by left.
  - intros [= _ <-]. by right.
Qed.

(** C1 (as the code has it).  In the poll loop a status read that comes
    back with a non-2xx status or with a body that does not decode is
    never turned into an upstream error.  The loop itself goes on after
    such a read: a read that is answered, whose body does not decode
    (it is taken as [null]) or is not a successful done, is followed by
    a sleep and the next read, with that body as the last one seen.  The
    HTTP status is not looked at (the flows answer the same whatever
    status codes the reads carry).  So a run in which reads of this kind
    come before a successful done ends in that done: the wait flow
    answers 200 with the finished job, the wait-upload flow goes into
    its upload step.  Once the launch has succeeded both flows answer
    200, 408 or 500, never 502. *)
Theorem failed_status_reads_are_polled_past {rt : Runtime} (env : environment)
    (net : network) (q : gmap string qval) (v : GenerationRequest)
    (u : UploadRequest) :
  (forall taskUrl B I fuel k elapsed last trace resp,
     num_lt (num elapsed) B = true ->
     statusAt net k = Responded resp ->
     (decoded resp = None \/ isDone (jsonOrNull resp) = false) ->
     pollUntilDone net taskUrl B I (S fuel) k elapsed last trace
     = pollUntilDone net taskUrl B I fuel (S k)
         (elapsed + fetchMs net k + sleepMs net k I)
         (match decoded resp with Some decodedBody => decodedBody | None => JNull end)
         (trace ++ [GetStatus taskUrl; Sleep I]))
  /\ (forall codes fuel,
        waitHandler env (withStatusCodes codes net) fuel (post q v)
        = waitHandler env net fuel (post q v)
        /\ waitUploadHandler env (withStatusCodes codes net) fuel (post q u)
           = waitUploadHandler env net fuel (post q u))
  /\ (forall key r fuel trace resp,
        getApiKey env = Ok key ->
        superRefine v = [] -> superRefineUpload u = [] -> generation u = v ->
        startJob net (payloadToUpstream v) = Responded r ->
        startRefused r = false ->
        (waitHandler env net fuel (post q v) = Some (trace, resp)
         \/ waitUploadHandler env net fuel (post q u) = Some (trace, resp)) ->
        statusCode resp = 200 \/ statusCode resp = 408 \/ statusCode resp = 500)
  /\ (forall key r n settled fuel,
        getApiKey env = Ok key ->
        superRefine v = [] -> superRefineUpload u = [] -> generation u = v ->
        startJob net (payloadToUpstream v) = Responded r ->
        startRefused r = false ->
        let B := parseTimeoutMs q in
        let I := parsePollIntervalMs q in
        let taskUrl := taskUrlOf (jsonOrNull r) in
        (forall j, (j < n)%nat ->
           inBudget net B I j = true
           /\ exists resp, statusAt net j = Responded resp
                           /\ (decoded resp = None \/ isDone (jsonOrNull resp) = false)) ->
        inBudget net B I n = true ->
        statusAt net n = Responded settled ->
        isDone (jsonOrNull settled) = true ->
        (n < fuel)%nat ->
        let trace := [StartJob (payloadToUpstream v)] ++ rounds taskUrl I n
                     ++ [GetStatus taskUrl] in
        waitHandler env net fuel (post q v)
        = Some (trace, json 200 (normalizeAuthor (jsonOrNull settled)))
        /\ waitUploadHandler env net fuel (post q u)
           = uploadAll env net u (get "jobId" (jsonOrNull r)) taskUrl
               (jsonOrNull settled) trace
        /\ polls trace = S n).
Proof.
  split; [| split; [| split]].
  - intros taskUrl B I fuel k elapsed last trace resp Hguard Hst Hbad.
    cbn [pollUntilDone]. rewrite Hguard, Hst.
    assert (Hnot : isDone (jsonOrNull resp) = false).
    { destruct Hbad as [Hnone | Hnot]; [| done]. unfold jsonOrNull. by rewrite Hnone. }
    rewrite Hnot. unfold jsonOrNull. by destruct (decoded resp).
  - intros codes fuel. unfold waitHandler, waitUploadHandler, post.
    cbn [method query payload]. split.
    + destruct (checked superRefine (Typed v)); [done |]. simpl.
      apply launchAndPoll_recode.
    + destruct (checked superRefineUpload (Typed u)); [done |]. simpl.
      apply launchAndPoll_recode.
  - intros key r fuel trace resp Hkey Hv Hu Hgen Hstart Haccepted Hrun.
    rewrite (waitHandler_post _ _ _ _ _ Hv), (waitUploadHandler_post _ _ _ _ _ Hu),
      Hgen in Hrun.
    rewrite !(launchAndPoll_accepted _ _ _ _ _ _ _ key r Hkey Hstart Haccepted) in Hrun.
    destruct (pollFrom _ _ _ _ _ _) as [[[statusJson | last | m] trace0] |].
    + destruct Hrun as [[= _ <-] | Hrun]; [by left |].
      apply uploadAll_code in Hrun as [-> | ->]; auto.
    + destruct Hrun as [[= _ <-] | [= _ <-]]; right; by left.
    + destruct Hrun as [[= _ <-] | [= _ <-]]; right; by right.
    + by destruct Hrun.
  - intros key r n settled fuel Hkey Hv Hu Hgen Hstart Haccepted B I taskUrl
      Hbefore Hin Hst Hdone Hfuel trace.
    assert (Hloop : pollFrom net taskUrl B I fuel [StartJob (payloadToUpstream v)]
                    = Some (Done (jsonOrNull settled), trace)).
    { apply pollFrom_iff. exists n. split; [done |]. split.
      - intros j Hj. destruct (Hbefore j Hj) as (Hinj & resp & Hresp & Hbad).
        split; [done |]. unfold nonTerminal. rewrite Hresp.
        destruct Hbad as [Hnone | ->]; [| done]. unfold jsonOrNull. by rewrite Hnone.
      - unfold stops, nonTerminal, exitAt, lastRead. fold B I. by rewrite Hin, Hst, Hdone. }
    split; [| split].
    + rewrite (waitHandler_post _ _ _ _ _ Hv).
      rewrite (launchAndPoll_accepted _ _ _ _ _ _ _ key r Hkey Hstart Haccepted).
      fold B I taskUrl. by rewrite Hloop.
    + rewrite (waitUploadHandler_post _ _ _ _ _ Hu), Hgen.
      rewrite (launchAndPoll_accepted _ _ _ _ _ _ _ key r Hkey Hstart Haccepted).
      fold B I taskUrl. by rewrite Hloop.
    + unfold trace. rewrite !polls_app, polls_rounds.
      change (0 + (n + 1) = S n)%nat. lia.
Qed.

Lemma failed_status_reads_are_polled_past_witness :
  statusAt flakyNet 0 = Responded {| status := 500; decoded := None |}
  /\ exists resp,
       waitHandler (rt := sampleRuntime) bothKeys flakyNet 5 (post ∅ lofi)
       = Some ([StartJob (payloadToUpstream lofi);
                GetStatus abcUrl; Sleep (num 5000); GetStatus abcUrl], resp)
       /\ statusCode resp = 200
       /\ bodyField "status" resp = JStr "done".
Proof.
  split; [reflexivity |].
  destruct (failed_status_reads_are_polled_past (rt := sampleRuntime)
              bothKeys flakyNet ∅ lofi lofiUpload) as (_ & _ & _ & H).
  destruct (H "pax-key" accepted 1%nat
              {| status := 200;
                 decoded := Some (JObj [("ok", JBool true); ("status", JStr "done");
                                        ("records",
                                         JArr [JObj [("audio_url",
                                                      JStr "https://x/a.mp3")]])]) |}
              5%nat eq_refl eq_refl eq_refl eq_refl eq_refl eq_refl)
    as (Hwait & _ & _).
  - intros j Hj. assert (j = O) as -> by lia. split; [reflexivity |].
    exists {| status := 500; decoded := None |}. split; [reflexivity | by left].
  - reflexivity.
  - reflexivity.
  - reflexivity.
  - lia.
  - eexists. split; [exact Hwait |]. split; reflexivity.
Defined.

(** C1, as stated, fails: the first status read comes back with HTTP
    500 and no JSON; the flow does not answer with an upstream error, it
    sleeps, reads again and answers 200 with the finished job. *)
Lemma failed_status_read_is_not_an_upstream_error :
  statusAt flakyNet 0 = Responded {| status := 500; decoded := None |}
  /\ waitHandler (rt := sampleRuntime) bothKeys flakyNet 5 (post ∅ lofi)
     = Some ([StartJob (payloadToUpstream lofi);
              GetStatus abcUrl; Sleep (num 5000); GetStatus abcUrl],
             json 200
               (JObj [("Author", JStr "@Dafidxcode"); ("ok", JBool true);
                      ("status", JStr "done");
                      ("records",
                       JArr [JObj [("audio_url", JStr "https://x/a.mp3")]])])).
Proof. split; [reflexivity | vm_compute; reflexivity]. Qed.

(** ** The batch of uploads *)

(** [Promise.all] over promises that are all fulfilled delivers their
    values in index order, in whatever order they settle. *)
Lemma promiseAll_fulfilled (vals : list jsval) :
  forall (order : list nat) (slots : list (option jsval)),
    length slots = length vals ->
    (forall i, i ∈ order -> (i < length vals)%nat) ->
    (forall i v, slots !! i = Some (Some v) -> vals !! i = Some v) ->
    (forall i, slots !! i = Some None -> i ∈ order) ->
    promiseAll (Fulfilled <$> vals) order slots = Some (Fulfilled (JArr vals)).
Proof.
  induction order as [|i later IH]; intros slots Hlen Hin Hfilled Hempty.
  - cbn [promiseAll]. assert (Hslots : slots = Some <$> vals).
    { apply list_eq. intros i. rewrite list_lookup_fmap.
      destruct (slots !! i) as [[v|]|] eqn:E.
      - by rewrite (Hfilled i v E).
      - apply Hempty in E. by apply elem_of_nil in E.
      - apply lookup_ge_None in E. rewrite Hlen in E.
        apply lookup_ge_None in E. by rewrite E. }
    rewrite Hslots, (mapM_fmap_Some id Some vals); done.
  - cbn [promiseAll]. rewrite list_lookup_fmap.
    destruct (lookup_lt_is_Some_2 vals i) as [v Hv]; [apply Hin; left |].
    rewrite Hv. cbn [fmap option_fmap option_map].
    apply IH.
    + by rewrite length_insert.
    + intros j Hj. apply Hin. by right.
    + intros j w. destruct (decide (i = j)) as [<- | Hne].
      * rewrite list_lookup_insert_eq; [congruence |].
        rewrite Hlen. by apply lookup_lt_Some in Hv.
      * rewrite list_lookup_insert_ne; [apply Hfilled | done].
    + intros j. destruct (decide (i = j)) as [<- | Hne].
      * rewrite list_lookup_insert_eq; [done |].
        rewrite Hlen. by apply lookup_lt_Some in Hv.
      * rewrite list_lookup_insert_ne; [| done]. intros Hj.
        apply Hempty in Hj. apply elem_of_cons in Hj as [-> | Hj]; done.
Qed.

Lemma promiseAll_permutation (vals : list jsval) (order : list nat) :
  order ≡ₚ seq 0 (length vals) ->
  promiseAll (Fulfilled <$> vals) order (replicate (length vals) None)
  = Some (Fulfilled (JArr vals)).
Proof.
  intros Hperm. apply promiseAll_fulfilled.
  - apply length_replicate.
  - intros i Hi. rewrite Hperm in Hi. apply elem_of_seq in Hi. lia.
  - intros i v Hi. apply lookup_replicate in Hi as [[=] _].
  - intros i Hi. apply lookup_replicate in Hi as [_ Hi].
    rewrite Hperm. apply elem_of_seq. lia.
Qed.

Section Batch.
Context {rt : Runtime} (env : environment) (net : network) (u : UploadRequest)
  (jobId : jsval).

Lemma recordTask_missing (i : nat) (r : jsval) :
  audioUrlOf r = "" -> recordTask env net u jobId i r = ([], Fulfilled (missingAudio i)).
Proof. unfold recordTask. by intros ->. Qed.

Lemma recordTask_answered (i : nat) (r : jsval) (key : string) (resp : response) :
  audioUrlOf r <> "" ->
  getKieApiKey env = Ok key ->
  kieUpload net i (uploadRequestFor u jobId i r) = Responded resp ->
  recordTask env net u jobId i r
  = ([Upload (uploadRequestFor u jobId i r)],
     Fulfilled (uploadEntry i (audioUrlOf r) resp)).
Proof.
  intros Hurl Hkey Hresp. unfold recordTask.
  destruct (String.eqb_spec (audioUrlOf r) "") as [E | _]; [done |].
  by rewrite Hkey, Hresp.
Qed.

Lemma tasks_fulfilled (records : list jsval) (key : string) :
  getKieApiKey env = Ok key ->
  answered net u jobId records ->
  snd <$> imap (recordTask env net u jobId) records
  = Fulfilled <$> imap (entryOf env net u jobId) records.
Proof.
  intros Hkey Hans. apply list_eq. intros i.
  rewrite !list_lookup_fmap, !list_lookup_imap.
  destruct (records !! i) as [r|] eqn:Hr; [| done]. simpl. f_equal.
  unfold entryOf. destruct (String.eqb_spec (audioUrlOf r) "") as [E | E].
  - by rewrite (recordTask_missing i r E).
  - destruct (Hans i r Hr E) as [resp Hresp].
    by rewrite (recordTask_answered i r key resp E Hkey Hresp).
Qed.

Lemma uploadAll_fulfilled (taskUrl statusJson : jsval) (trace : list event)
    (key : string) :
  getKieApiKey env = Ok key ->
  answered net u jobId (recordsOf statusJson) ->
  completion net ≡ₚ seq 0 (length (recordsOf statusJson)) ->
  uploadAll env net u jobId taskUrl statusJson trace
  = Some (trace ++ uploadsIssued env net u jobId (recordsOf statusJson),
          uploaded jobId taskUrl statusJson
            (JArr (imap (entryOf env net u jobId) (recordsOf statusJson)))).
Proof.
  intros Hkey Hans Hperm. unfold uploadAll.
  rewrite (tasks_fulfilled _ key Hkey Hans), length_imap.
  pose proof (promiseAll_permutation
                (imap (entryOf env net u jobId) (recordsOf statusJson))
                (completion net)) as Hall.
  rewrite length_imap in Hall. by rewrite (Hall Hperm).
Qed.


End Batch.

(** The sample batch: every upload request is answered. *)
Lemma batchNet_answered :
  answered (rt := sampleRuntime) batchNet lofiUpload (JStr "abc") (recordsOf threeRecords).
Proof.
  intros i r _ _. unfold batchNet, idealNet. cbn [kieUpload].
  destruct (i =? 2)%nat; eauto.
Qed.

(** ** C9: the cover callback receiver *)

Lemma complete_iff (e : Cover.envelope) :
  Cover.complete e = true <->
  (exists n, Cover.code e = Some n /\ num_eqb n (num 200) = true)
  /\ Cover.data e ≫= Cover.callbackType = Some "complete"
  /\ default [] (Cover.data e ≫= Cover.items) <> [].
Proof.
  unfold Cover.complete. rewrite !andb_true_iff, bool_decide_eq_true.
  split.
  - intros [[Hcode Htype] Hitems]. split; [| split; [| done]].
    + destruct (Cover.code e) as [n|]; [by exists n | done].
    + destruct (Cover.data e ≫= Cover.callbackType) as [t|]; [| done].
      by apply String.eqb_eq in Htype as ->.
  - intros [(n & -> & Hn) [-> Hitems]]. done.
Qed.

Lemma wanted_iff (e : Cover.envelope) (sent : kieRequest) :
  Cover.wanted e = Some sent <->
  Cover.complete e = true
  /\ exists first rest url,
       Cover.data e ≫= Cover.items = Some (first :: rest)
       /\ Cover.audio_url first = Some url /\ url <> ""
       /\ sent = {| fileUrl := url;
                    uploadPath := "music/cover-audio";
                    fileName := default "task" (Cover.data e ≫= Cover.task_id)
                                +:+ "-" +:+ default "track" (Cover.id first)
                                +:+ ".mp3" |}.
Proof.
  unfold Cover.wanted. destruct (Cover.complete e); [| split; [done | by intros [? _]]].
  destruct (Cover.data e ≫= Cover.items) as [[|first rest]|]; simpl;
    try (split; [done | by intros [_ (? & ? & ? & ? & _)]]).
  destruct (Cover.audio_url first) as [url|] eqn:Ha.
  - destruct (String.eqb_spec url "") as [-> | Hne].
    + split; [done |]. intros [_ (? & ? & ? & [= <- <-] & Hurl & Hne & _)].
      congruence.
    + split.
      * intros [= <-]. split; [done |]. by exists first, rest, url.
      * intros [_ (? & ? & ? & [= <- <-] & Hurl & _ & ->)].
        rewrite Ha in Hurl. injection Hurl as <-. reflexivity.
  - split; [done |]. intros [_ (? & ? & ? & [= <- <-] & Hurl & _)]. congruence.
Qed.

(** C9 (as the code has it).  The receiver asks for an upload exactly
    when the envelope has [code] 200, [callbackType] "complete", a
    non-empty item list and an [audio_url] on the first item; the
    request is for that URL, with the upload path "music/cover-audio"
    and the file name [{task_id}-{id}.mp3] ("task" and "track" standing
    in for a missing id).  Every other accepted envelope causes no
    upload and is acknowledged with 200.  When the upload is asked for
    and the storage credential is set, exactly that one upload is
    issued; when moreover the request is answered, the receiver answers
    200, a non-2xx answer being reported inside the body. *)
Theorem callback_uploads_first_track {rt : Runtime} (env : environment)
    (net : network) (q : gmap string qval) (e : Cover.envelope) :
  (forall sent,
     Cover.wanted e = Some sent <->
     ((exists n, Cover.code e = Some n /\ num_eqb n (num 200) = true)
      /\ Cover.data e ≫= Cover.callbackType = Some "complete"
      /\ default [] (Cover.data e ≫= Cover.items) <> [])
     /\ exists first rest url,
          Cover.data e ≫= Cover.items = Some (first :: rest)
          /\ Cover.audio_url first = Some url /\ url <> ""
          /\ sent = {| fileUrl := url;
                       uploadPath := "music/cover-audio";
                       fileName := default "task" (Cover.data e ≫= Cover.task_id)
                                   +:+ "-" +:+ default "track" (Cover.id first)
                                   +:+ ".mp3" |})
  /\ (Cover.wanted e = None ->
        Cover.handler env net (post q e) = ([], Cover.acknowledged e JNull)
        /\ statusCode (Cover.acknowledged e JNull) = 200)
  /\ (forall sent key,
        Cover.wanted e = Some sent ->
        getKieApiKey env = Ok key ->
        (Cover.handler env net (post q e)).1 = [Upload sent])
  /\ (forall sent key resp,
        Cover.wanted e = Some sent ->
        getKieApiKey env = Ok key ->
        kieUpload net 0 sent = Responded resp ->
        let uploaded := Cover.uploadedOf (fileUrl sent) resp in
        Cover.handler env net (post q e) = ([Upload sent], Cover.acknowledged e uploaded)
        /\ statusCode (Cover.acknowledged e uploaded) = 200
        /\ bodyField "ok" (Cover.acknowledged e uploaded) = JBool true
        /\ bodyField "kieUploadedFirstTrack" (Cover.acknowledged e uploaded) = uploaded
        /\ (ok resp = false ->
              get "ok" uploaded = JBool false
              /\ get "status" (get "uploadError" uploaded) = JNum (num (status resp))
              /\ get "upstream" (get "uploadError" uploaded) = jsonOrNull resp)
        /\ (ok resp = true ->
              get "sourceAudioUrl" uploaded = JStr (fileUrl sent)
              /\ get "downloadUrl" uploaded
                 = get "downloadUrl" (get "data" (jsonOrNull resp)))).
Proof.
  split; [| split; [| split]].
  - intros sent. by rewrite wanted_iff, complete_iff.
  - intros Hnone. unfold Cover.handler, post. cbn [method query payload].
    by rewrite Hnone.
  - intros sent key Hwanted Hkey. unfold Cover.handler, post.
    cbn [method query payload]. rewrite Hwanted, Hkey.
    cbn [String.eqb Ascii.eqb Bool.eqb negb].
    by destruct (kieUpload net 0 sent).
  - intros sent key resp Hwanted Hkey Hresp uploaded.
    split; [| split; [reflexivity | split; [reflexivity | split; [reflexivity |]]]].
    + unfold Cover.handler, post. cbn [method query payload].
      rewrite Hwanted, Hkey. cbn [String.eqb Ascii.eqb Bool.eqb negb].
      by rewrite Hresp.
    + unfold uploaded, Cover.uploadedOf. destruct (ok resp); split; intros; done.
Qed.

Lemma callback_uploads_first_track_witness :
  Cover.handler (rt := sampleRuntime) bothKeys storageDownNet
    (post ∅ (completion200 [trackT1]))
  = ([Upload {| fileUrl := "https://x/a.mp3"; uploadPath := "music/cover-audio";
                fileName := "task9-t1.mp3" |}],
     Cover.acknowledged (completion200 [trackT1])
       (Cover.uploadedOf (rt := sampleRuntime) "https://x/a.mp3" storageDown))
  /\ statusCode
       (Cover.acknowledged (completion200 [trackT1])
          (Cover.uploadedOf (rt := sampleRuntime) "https://x/a.mp3" storageDown)) = 200
  /\ get "status"
       (get "uploadError" (Cover.uploadedOf (rt := sampleRuntime) "https://x/a.mp3" storageDown))
     = JNum (num 500).
Proof.
  destruct (callback_uploads_first_track (rt := sampleRuntime) bothKeys storageDownNet
              ∅ (completion200 [trackT1])) as (_ & _ & _ & H).
  destruct (H {| fileUrl := "https://x/a.mp3"; uploadPath := "music/cover-audio";
                 fileName := "task9-t1.mp3" |} "kie-key" storageDown
              eq_refl eq_refl eq_refl) as (Hrun & Hcode & _ & _ & Hfail & _).
  split; [exact Hrun |]. split; [exact Hcode |].
  destruct (Hfail eq_refl) as (_ & Hstatus & _). exact Hstatus.
Defined.

(** C9, as stated, fails: a completion callback with code 200 and one
    item that carries no [audio_url] meets the three conditions, and the
    receiver makes no upload call; and where the storage credential is
    missing, the upload a callback asks for fails before any request and
    the receiver answers 500, not 200. *)
Lemma complete_callback_without_audio_uploads_nothing :
  Cover.complete (completion200 [silentT1]) = true
  /\ Cover.handler (rt := sampleRuntime) bothKeys storageDownNet
       (post ∅ (completion200 [silentT1]))
     = ([], Cover.acknowledged (completion200 [silentT1]) JNull)
  /\ Cover.handler (rt := sampleRuntime) paxKeyOnly storageDownNet
       (post ∅ (completion200 [trackT1]))
     = ([], internalError "Missing env KIE_API_KEY").
Proof. split; [reflexivity | split; reflexivity]. Qed.

(** ** The flows end to end *)

(** A finished job takes the wait-upload flow into its upload step. *)
Lemma waitUploadHandler_finished {rt : Runtime} env net fuel q (u : UploadRequest)
    key r n done :
  getApiKey env = Ok key ->
  superRefineUpload u = [] ->
  startJob net (payloadToUpstream (generation u)) = Responded r ->
  startRefused r = false ->
  reaches net (parseTimeoutMs q) (parsePollIntervalMs q) n ->
  inBudget net (parseTimeoutMs q) (parsePollIntervalMs q) n = true ->
  statusAt net n = Responded done ->
  isDone (jsonOrNull done) = true ->
  (n < fuel)%nat ->
  waitUploadHandler env net fuel (post q u)
  = uploadAll env net u (get "jobId" (jsonOrNull r)) (taskUrlOf (jsonOrNull r))
      (jsonOrNull done)
      ([StartJob (payloadToUpstream (generation u))]
       ++ rounds (taskUrlOf (jsonOrNull r)) (parsePollIntervalMs q) n
       ++ [GetStatus (taskUrlOf (jsonOrNull r))]).
Proof.
  intros Hkey Hu Hstart Haccepted Hreach Hin Hst Hdone Hfuel.
  rewrite (waitUploadHandler_post _ _ _ _ _ Hu).
  rewrite (launchAndPoll_accepted _ _ _ _ _ _ _ key r Hkey Hstart Haccepted).
  assert (Hloop : pollFrom net (taskUrlOf (jsonOrNull r)) (parseTimeoutMs q)
                    (parsePollIntervalMs q) fuel
                    [StartJob (payloadToUpstream (generation u))]
                  = Some (Done (jsonOrNull done),
                          [StartJob (payloadToUpstream (generation u))]
                          ++ rounds (taskUrlOf (jsonOrNull r)) (parsePollIntervalMs q) n
                          ++ [GetStatus (taskUrlOf (jsonOrNull r))])).
  { apply pollFrom_iff. exists n. split; [done |]. split; [done |].
    unfold stops, nonTerminal, exitAt, lastRead. by rewrite Hin, Hst, Hdone. }
  by rewrite Hloop.
Qed.

Example documented_scenario :
  exists trace resp entry,
    waitUploadHandler (rt := sampleRuntime) bothKeys scenarioNet 5 (post ∅ lofiUpload)
    = Some (trace, resp)
    /\ polls trace = 3%nat
    /\ statusCode resp = 200
    /\ bodyField "status" resp = JStr "done"
    /\ bodyField "jobId" resp = JStr "abc"
    /\ bodyField "kieUploads" resp = JArr [entry]
    /\ get "ok" entry = JBool true
    /\ get "downloadUrl" (get "kie" entry) = JStr "https://files/a.mp3".
Proof.
  eexists _, _, _. split; [vm_compute; reflexivity |].
  repeat (split; [reflexivity |]). reflexivity.
Qed.

(** * Further properties *)

(** ** Object updates *)

Lemma assoc_None (k : string) (props : list (string * jsval)) :
  assoc k props = None <-> k ∉ keys props.
Proof.
  induction props as [|[k' v] props IH]; simpl.
  - split; [intros _; apply not_elem_of_nil | done].
  - rewrite not_elem_of_cons. destruct (String.eqb_spec k k') as [-> | Hne].
    + split; [done | by intros [? _]].
    + rewrite IH. split; [done | by intros [_ ?]].
Qed.

Lemma assoc_obj_set_eq (k : string) (v : jsval) (props : list (string * jsval)) :
  assoc k (obj_set k v props) = Some v.
Proof.
  induction props as [|[k' v'] props IH]; simpl.
  - by rewrite String.eqb_refl.
  - destruct (String.eqb_spec k k') as [-> | Hne]; simpl.
    + by rewrite String.eqb_refl.
    + destruct (String.eqb_spec k k'); [done | apply IH].
Qed.

Lemma assoc_obj_set_ne (k k' : string) (v : jsval) (props : list (string * jsval)) :
  k <> k' -> assoc k (obj_set k' v props) = assoc k props.
Proof.
  intros Hne. induction props as [|[k0 v0] props IH]; simpl.
  - by destruct (String.eqb_spec k k').
  - destruct (String.eqb_spec k' k0) as [-> | Hne0]; simpl.
    + by destruct (String.eqb_spec k k0).
    + destruct (String.eqb_spec k k0); [done | apply IH].
Qed.

Lemma obj_set_fresh (k : string) (v : jsval) (props : list (string * jsval)) :
  k ∉ keys props -> obj_set k v props = props ++ [(k, v)].
Proof.
  induction props as [|[k' v'] props IH]; simpl; [done |].
  rewrite not_elem_of_cons. intros [Hne Hnotin].
  destruct (String.eqb_spec k k'); [done |]. by rewrite IH.
Qed.

Lemma without_cons (c k : string) (v : jsval) (props : list (string * jsval)) :
  without c ((k, v) :: props)
  = if String.eqb k c then without c props else (k, v) :: without c props.
Proof.
  unfold without. rewrite filter_cons. simpl.
  destruct (String.eqb k c); reflexivity.
Qed.

Lemma keys_without (c k : string) (props : list (string * jsval)) :
  k ∈ keys (without c props) <-> k <> c /\ k ∈ keys props.
Proof.
  induction props as [|[k' v] props IH].
  - split; [intros H; by apply elem_of_nil in H | intros [_ H]; by apply elem_of_nil in H].
  - rewrite without_cons. destruct (String.eqb_spec k' c) as [-> | Hne].
    + rewrite IH. unfold keys. cbn [fmap list_fmap fst]. rewrite elem_of_cons.
      split; [intros [? ?]; auto | intros [? [-> | ?]]; done].
    + unfold keys in *. cbn [fmap list_fmap fst]. rewrite !elem_of_cons, IH.
      split; [intros [-> | [? ?]]; auto | intros [? [-> | ?]]; auto].
Qed.

Lemma assoc_without (c k : string) (props : list (string * jsval)) :
  k <> c -> assoc k (without c props) = assoc k props.
Proof.
  intros Hne. induction props as [|[k' v] props IH]; [done |].
  rewrite without_cons. destruct (String.eqb_spec k' c) as [-> | Hne']; simpl.
  - destruct (String.eqb_spec k c); [done | apply IH].
  - by rewrite IH.
Qed.

Lemma NoDup_without (c : string) (props : list (string * jsval)) :
  NoDup (keys props) -> NoDup (keys (without c props)).
Proof.
  induction props as [|[k v] props IH]; [done |].
  unfold keys at 1. cbn [fmap list_fmap fst]. rewrite NoDup_cons. intros [Hk Hnd].
  rewrite without_cons. destruct (String.eqb k c); [by apply IH |].
  unfold keys. cbn [fmap list_fmap fst]. apply NoDup_cons. split; [| by apply IH].
  intros Hin. apply keys_without in Hin as [_ Hin]. done.
Qed.

(** Spreading an object over a one-property object: the property keeps
    its place and takes the later value, the rest follows in order. *)
Lemma spread_onto (k0 : string) (more : list (string * jsval)) :
  NoDup (keys more) ->
  forall (v0 : jsval) (acc : list (string * jsval)),
    k0 ∉ keys acc ->
    (forall k, k ∈ keys acc -> k ∉ keys more) ->
    spread ((k0, v0) :: acc) more
    = (k0, default v0 (assoc k0 more)) :: acc ++ without k0 more.
Proof.
  unfold spread. induction more as [|[k1 v1] more IH]; intros Hnd v0 acc Hk0 Hdisj.
  - simpl. by rewrite app_nil_r.
  - unfold keys in Hnd. cbn [fmap list_fmap fst] in Hnd.
    apply NoDup_cons in Hnd as [Hk1 Hnd]. fold (keys more) in Hk1, Hnd.
    cbn [fold_left fst snd obj_set]. rewrite without_cons.
    destruct (String.eqb_spec k1 k0) as [-> | Hne].
    + rewrite IH; [| done | done |].
      * cbn [assoc]. rewrite String.eqb_refl.
        apply assoc_None in Hk1. by rewrite Hk1.
      * intros k Hk. specialize (Hdisj k Hk). unfold keys in Hdisj.
        cbn [fmap list_fmap fst] in Hdisj. by apply not_elem_of_cons in Hdisj as [_ ?].
    + rewrite obj_set_fresh.
      2:{ intros Hin. apply (Hdisj k1 Hin). unfold keys. cbn [fmap list_fmap fst]. by left. }
      rewrite IH; [| done | |].
      * cbn [assoc]. destruct (String.eqb_spec k0 k1); [congruence |].
        by rewrite <- app_assoc.
      * unfold keys. rewrite fmap_app. cbn. rewrite elem_of_app, list_elem_of_singleton.
        intros [? | ?]; [done | congruence].
      * intros k. unfold keys at 1. rewrite fmap_app. cbn.
        rewrite elem_of_app, list_elem_of_singleton. intros [Hk | ->]; [| done].
        specialize (Hdisj k Hk). unfold keys in Hdisj. cbn [fmap list_fmap fst] in Hdisj.
        by apply not_elem_of_cons in Hdisj as [_ ?].
Qed.

(** A list of literal keys has no duplicates. *)
Ltac distinct_keys :=
  repeat (apply NoDup_cons; split;
          [rewrite ?not_elem_of_cons; repeat split;
           first [discriminate | apply not_elem_of_nil] |]);
  apply NoDup_nil_2.

(** ** X1, X2: the attribution ([normalizeAuthor]) *)

Lemma normalizeAuthor_object (props : list (string * jsval)) :
  NoDup (keys props) ->
  normalizeAuthor (JObj props)
  = JObj (("Author", default (JStr AUTHOR) (assoc "Author" props))
          :: without "Author" (without "creator" props)).
Proof.
  intros Hnd. cbn [normalizeAuthor].
  rewrite (spread_onto "Author" (without "creator" props)); cbn [app].
  - by rewrite assoc_without.
  - by apply NoDup_without.
  - apply not_elem_of_nil.
  - intros k Hk. by apply elem_of_nil in Hk.
Qed.

(** X1.  A value that is not an object passes through unchanged.  An
    object comes back as an object that has [Author], has no [creator],
    and has every other property of the original with its value, and no
    further property; the value of [Author] is "@Dafidxcode" unless the
    object brings an [Author] of its own, which then stands.  Nothing is
    said of the order of the properties. *)
Theorem attribution_of_a_payload :
  (forall v, match v with
             | JObj _ | JArr _ => True
             | _ => normalizeAuthor v = v
             end)
  /\ (forall props,
        NoDup (keys props) ->
        exists props',
          normalizeAuthor (JObj props) = JObj props'
          /\ NoDup (keys props')
          /\ (forall k, k ∈ keys props' <->
                        k = "Author" \/ (k <> "creator" /\ k ∈ keys props))
          /\ get "Author" (JObj props')
             = default (JStr "@Dafidxcode") (assoc "Author" props)
          /\ get "creator" (JObj props') = JUndefined
          /\ forall k, k <> "creator" -> k <> "Author" ->
               get k (JObj props') = get k (JObj props)).
Proof.
  split; [by intros [] |]. intros props Hnd.
  exists (("Author", default (JStr AUTHOR) (assoc "Author" props))
          :: without "Author" (without "creator" props)).
  split; [by apply normalizeAuthor_object |].
  assert (Hrest : forall k, k ∈ keys (without "Author" (without "creator" props)) <->
                            k <> "Author" /\ k <> "creator" /\ k ∈ keys props).
  { intros k. rewrite keys_without, keys_without. tauto. }
  split; [| split; [| split; [| split]]].
  - unfold keys. cbn [fmap list_fmap fst]. apply NoDup_cons. split.
    + intros Hin. apply Hrest in Hin as [Hne _]. done.
    + by do 2 apply NoDup_without.
  - intros k. unfold keys at 1. cbn [fmap list_fmap fst]. rewrite elem_of_cons.
    fold (keys (without "Author" (without "creator" props))). rewrite Hrest.
    destruct (decide (k = "Author")) as [-> | Hne]; [tauto | tauto].
  - reflexivity.
  - cbn [get assoc String.eqb Ascii.eqb Bool.eqb].
    assert (Hnone : assoc "creator" (without "Author" (without "creator" props)) = None).
    { apply assoc_None. intros Hin. apply Hrest in Hin as (_ & Hne & _). done. }
    by rewrite Hnone.
  - intros k Hc Ha. cbn [get assoc].
    destruct (String.eqb_spec k "Author"); [done |].
    by rewrite !assoc_without.
Qed.

Lemma attribution_of_a_payload_witness :
  get "Author" (normalizeAuthor (JObj [("creator", JStr "X"); ("ok", JBool true)]))
  = JStr "@Dafidxcode"
  /\ get "creator" (normalizeAuthor (JObj [("creator", JStr "X"); ("ok", JBool true)]))
     = JUndefined
  /\ get "ok" (normalizeAuthor (JObj [("creator", JStr "X"); ("ok", JBool true)]))
     = JBool true.
Proof.
  destruct attribution_of_a_payload as [_ H].
  destruct (H [("creator", JStr "X"); ("ok", JBool true)])
    as (props' & -> & _ & _ & Hauthor & Hcreator & Hget).
  { distinct_keys. }
  split; [exact Hauthor |]. split; [exact Hcreator |].
  rewrite (Hget "ok"); [reflexivity | discriminate | discriminate].
Defined.

(** X2.  Attributing twice is the same as attributing once. *)
Theorem attribution_is_idempotent (props : list (string * jsval)) :
  NoDup (keys props) ->
  normalizeAuthor (normalizeAuthor (JObj props)) = normalizeAuthor (JObj props).
Proof.
  intros Hnd. rewrite (normalizeAuthor_object props Hnd).
  set (rest := without "Author" (without "creator" props)).
  assert (Hc : "creator" ∉ keys rest).
  { intros Hin. apply keys_without in Hin as [_ Hin].
    apply keys_without in Hin as [Hne _]. done. }
  assert (Ha : "Author" ∉ keys rest).
  { intros Hin. apply keys_without in Hin as [Hne _]. done. }
  assert (Hrest : NoDup (keys rest)) by by do 2 apply NoDup_without.
  assert (Hfix : forall c, c ∉ keys rest -> without c rest = rest).
  { intros c. clear. induction rest as [|[k v] l IH]; [done |].
    unfold keys. cbn [fmap list_fmap fst]. rewrite not_elem_of_cons. intros [Hne Hl].
    rewrite without_cons. destruct (String.eqb_spec k c); [congruence |].
    by rewrite IH. }
  rewrite normalizeAuthor_object.
  - cbn [assoc String.eqb Ascii.eqb Bool.eqb default]. f_equal. f_equal.
    rewrite without_cons. cbn [String.eqb Ascii.eqb Bool.eqb].
    rewrite (Hfix "creator" Hc), without_cons. cbn [String.eqb Ascii.eqb Bool.eqb].
    apply (Hfix "Author" Ha).
  - unfold keys. cbn [fmap list_fmap fst]. by apply NoDup_cons.
Qed.

Lemma attribution_is_idempotent_witness :
  normalizeAuthor (normalizeAuthor (JObj [("creator", JStr "X"); ("Author", JStr "me")]))
  = normalizeAuthor (JObj [("creator", JStr "X"); ("Author", JStr "me")]).
Proof.
  apply attribution_is_idempotent. distinct_keys.
Defined.

(** ** X3 - X6: validation *)

Lemma addIssueIf_length (c : bool) (m : string) : length (addIssueIf c m) = Nat.b2n c.
Proof. by destruct c. Qed.

Lemma addIssueIf_nil (c : bool) (m : string) : addIssueIf c m = [] <-> c = false.
Proof. by destruct c. Qed.

Lemma customIssues_length (v : GenerationRequest) :
  length (customIssues v)
  = (Nat.b2n (blank (title v)) + Nat.b2n (blank (style v))
     + Nat.b2n (negb (instrumental v) && blank (prompt v))
     + Nat.b2n (80 <? len (title v))%Z
     + Nat.b2n (promptLimit (model v) <? len (prompt v))%Z
     + Nat.b2n (styleLimit (model v) <? len (style v))%Z)%nat.
Proof. unfold customIssues. rewrite !length_app, !addIssueIf_length. lia. Qed.

Lemma customIssues_nil (v : GenerationRequest) :
  customIssues v = [] <->
  blank (title v) = false /\ blank (style v) = false
  /\ (instrumental v = true \/ blank (prompt v) = false)
  /\ len (title v) <= 80
  /\ len (prompt v) <= promptLimit (model v)
  /\ len (style v) <= styleLimit (model v).
Proof.
  rewrite <- length_zero_iff_nil, customIssues_length.
  destruct (blank (title v)), (blank (style v)), (instrumental v), (blank (prompt v)),
    (Z.ltb_spec 80 (len (title v))),
    (Z.ltb_spec (promptLimit (model v)) (len (prompt v))),
    (Z.ltb_spec (styleLimit (model v)) (len (style v)));
    simpl; split; try lia; intros (? & ? & [? | ?] & ? & ? & ?); try done; lia.
Qed.

(** X3.  With [customMode = true] the request is valid exactly when
    title and style are not blank, the prompt is not blank unless the
    track is instrumental, the title has at most 80 code units, and
    prompt and style are within the limits of the model: 3000 and 200
    for V3_5 and V4, 5000 and 1000 for the others.  Every violated rule
    is reported, none hides another; [negativeTags] is not looked at. *)
Theorem custom_mode_validation (v : GenerationRequest) :
  customMode v = true ->
  (checked superRefine (Typed v) = inr v <->
     blank (title v) = false /\ blank (style v) = false
     /\ (instrumental v = true \/ blank (prompt v) = false)
     /\ len (title v) <= 80
     /\ len (prompt v) <= (if isV35orV4 (model v) then 3000 else 5000)
     /\ len (style v) <= (if isV35orV4 (model v) then 200 else 1000))
  /\ length (superRefine v)
     = (Nat.b2n (blank (title v)) + Nat.b2n (blank (style v))
        + Nat.b2n (negb (instrumental v) && blank (prompt v))
        + Nat.b2n (80 <? len (title v))%Z
        + Nat.b2n ((if isV35orV4 (model v) then 3000 else 5000) <? len (prompt v))%Z
        + Nat.b2n ((if isV35orV4 (model v) then 200 else 1000) <? len (style v))%Z)%nat
  /\ (forall tags,
        superRefine {| customMode := customMode v; instrumental := instrumental v;
                       title := title v; style := style v; prompt := prompt v;
                       model := model v; negativeTags := tags |}
        = superRefine v).
Proof.
  intros Hmode. unfold superRefine, checked. rewrite Hmode. cbn [negb].
  split; [| split].
  - rewrite <- (customIssues_nil v). destruct (customIssues v); split; done.
  - apply customIssues_length.
  - intros tags. cbn [customMode]. reflexivity.
Qed.

Lemma custom_mode_validation_witness : checked superRefine (Typed anthem) = inr anthem.
Proof.
  apply (custom_mode_validation anthem); [reflexivity |].
  vm_compute. repeat split; (congruence || auto).
Defined.

(** X4.  What a stricter setting accepts, a laxer one accepts: a valid
    request stays valid when its model is replaced by one of the larger
    tier (or by any model, when it was valid for V3_5 or V4, or is not
    in custom mode), and when [instrumental] is switched on. *)
Theorem validity_is_kept_by_laxer_settings (v : GenerationRequest) (m : Model) :
  superRefine v = [] ->
  customMode v = false \/ isV35orV4 (model v) = true \/ isV35orV4 m = false ->
  superRefine {| customMode := customMode v; instrumental := instrumental v;
                 title := title v; style := style v; prompt := prompt v;
                 model := m; negativeTags := negativeTags v |} = []
  /\ superRefine {| customMode := customMode v; instrumental := true;
                    title := title v; style := style v; prompt := prompt v;
                    model := model v; negativeTags := negativeTags v |} = [].
Proof.
  unfold superRefine. cbn [customMode]. destruct (customMode v) eqn:Hmode; cbn [negb].
  - rewrite !customIssues_nil. cbn [title style prompt model instrumental].
    unfold promptLimit, styleLimit.
    intros (Ht & Hs & Hp & Htl & Hpl & Hsl) Htier. split.
    + repeat (split; [assumption |]).
      destruct Htier as [? | [Hv | ->]]; [done | rewrite Hv in Hpl, Hsl |];
        destruct (isV35orV4 m); lia || (destruct (isV35orV4 (model v)); lia).
    + repeat (split; [first [assumption | by left] |]). assumption.
  - intros Hv _. split; exact Hv.
Qed.

Lemma validity_is_kept_by_laxer_settings_witness :
  superRefine {| customMode := true; instrumental := true; title := "Anthem";
                 style := "rock"; prompt := ""; model := V5; negativeTags := "" |} = [].
Proof.
  apply (validity_is_kept_by_laxer_settings anthem V5); [reflexivity | by right; left].
Defined.

(** X5.  The wait-upload schema adds one rule to the rules of the other
    two endpoints, and only in custom mode: [kieUploadPath] must not be
    blank.  With [customMode = false] the upload path is not checked at
    all, and [kieFileName] is never checked. *)
Theorem upload_request_validation (u : UploadRequest) :
  (superRefineUpload u = [] <->
     superRefine (generation u) = []
     /\ (customMode (generation u) = true -> blank (kieUploadPath u) = false))
  /\ (customMode (generation u) = false ->
        forall path, superRefineUpload
                       {| generation := generation u; kieUploadPath := path;
                          kieFileName := kieFileName u |}
                     = superRefine (generation u))
  /\ (forall name, superRefineUpload
                     {| generation := generation u; kieUploadPath := kieUploadPath u;
                        kieFileName := name |}
                   = superRefineUpload u).
Proof.
  unfold superRefineUpload, superRefine. cbn [generation kieUploadPath].
  destruct (customMode (generation u)); cbn [negb]; (split; [| split]); try done.
  - rewrite app_nil, addIssueIf_nil. split; [intros [? ?] | intros [? ?]]; auto.
  - split; [intros ? | intros [? ?]]; auto. split; [done | discriminate].
Qed.

(** X6.  The form of the test page refuses exactly what the endpoints
    refuse: its schema reports as many issues as the server's for every
    payload, so [validate] lets a payload through if and only if the
    server accepts it, and otherwise shows the form's own message for
    the first rule violated. *)
Theorem form_agrees_with_server (v : GenerationRequest) :
  length (UI.formIssues v) = length (superRefine v)
  /\ (UI.validatePaxPayload v = inr v <-> checked superRefine (Typed v) = inr v)
  /\ (forall message, UI.validatePaxPayload v = inl message <->
        head (UI.formIssues v) = Some message)
  /\ (forall message, UI.validatePaxPayload v = inl message ->
        exists errors, checked superRefine (Typed v)
                       = inl (invalidRequest (flatten errors)) /\ errors <> []).
Proof.
  assert (Hlen : length (UI.formIssues v) = length (superRefine v)).
  { unfold UI.formIssues, superRefine, UI.nonCustomIssues, UI.customIssues,
      nonCustomIssues, customIssues.
    destruct (customMode v); cbn [negb]; rewrite !length_app, !addIssueIf_length; lia. }
  split; [exact Hlen |]. unfold UI.validatePaxPayload, checked.
  destruct (UI.formIssues v) as [| first rest], (superRefine v) as [| e es] eqn:Hs;
    try discriminate Hlen; (split; [| split]); try done.
  - intros message. cbn [head]. split; congruence.
  - intros message _. exists (e :: es). split; [| done]. reflexivity.
Qed.

(** ** X7 - X8: before and at the launch *)

Lemma requireKey_Ok (name : string) (key : option string) (k : string) :
  requireKey name key = Ok k <-> key = Some k /\ k <> "".
Proof.
  unfold requireKey. destruct key as [k' |]; [| split; [done | by intros [? ?]]].
  destruct (String.eqb_spec k' "") as [-> | Hne].
  - split; [done | intros [[= ->] ?]; done].
  - split; [intros [= ->]; done | intros [[= ->] _]; done].
Qed.

(** X7.  The generate endpoint sends the provider at most one request,
    the launch of the validated payload, and sends it exactly when the
    method is POST, the body passes validation and the provider's
    credential is set to a non-empty string; it answers 200 exactly
    when that request was sent and answered with a 2xx status. *)
Theorem provider_is_contacted_iff (env : environment) (net : network)
    (req : request GenerationRequest) :
  let out := generateHandler env net req in
  (out.1 = [] \/ exists v, payload req = Typed v /\ out.1 = [StartJob (payloadToUpstream v)])
  /\ (out.1 <> [] <->
        method req = "POST"
        /\ (exists v, payload req = Typed v /\ superRefine v = [])
        /\ (exists key, PAXSENIX_API_KEY env = Some key /\ key <> ""))
  /\ (statusCode out.2 = 200 <->
        exists sent r, out.1 = [StartJob sent]
                       /\ startJob net sent = Responded r /\ ok r = true).
Proof.
  cbv zeta. unfold generateHandler.
  destruct (String.eqb_spec (method req) "OPTIONS") as [Hopt | Hopt].
  { cbn. split; [by left |]. split; [| split; [done | by intros (? & ? & ? & _)]].
    split; [done |]. intros [Hp _]. rewrite Hp in Hopt. done. }
  destruct (String.eqb_spec (method req) "POST") as [Hpost | Hpost]; cbn [negb].
  2: { cbn. split; [by left |]. split; [| split; [done | by intros (? & ? & ? & _)]].
       split; [done |]. intros [Hp _]. done. }
  unfold checked.
  destruct (payload req) as [| errors | v] eqn:Hpay.
  1, 2: cbn; (split; [by left |]);
    (split; [| split; [done | by intros (? & ? & ? & _)]]);
    (split; [done | by intros (_ & (? & ? & _) & _)]).
  destruct (superRefine v) as [| issue issues] eqn:Hv.
  2: { cbn. split; [by left |]. split; [| split; [done | by intros (? & ? & ? & _)]].
       split; [done |]. intros (_ & (v' & [= <-] & Hv') & _). congruence. }
  unfold getApiKey. destruct (requireKey _ _) as [key | m] eqn:Hkey.
  2: { cbn. split; [by left |]. split; [| split; [done | by intros (? & ? & ? & _)]].
       split; [done |]. intros (_ & _ & key & Hk).
       apply (requireKey_Ok "PAXSENIX_API_KEY") in Hk. congruence. }
  apply requireKey_Ok in Hkey.
  assert (Hsent : forall resp : httpResponse,
    ([StartJob (payloadToUpstream v)], resp).1 <> [] <->
    "POST" = "POST"
    /\ (exists v0, Typed v = Typed v0 /\ superRefine v0 = [])
    /\ (exists key, PAXSENIX_API_KEY env = Some key /\ key <> "")).
  { intros resp. split; [| done]. intros _. split; [done |]. split; eauto. }
  rewrite Hpost in *.
  destruct (startJob net (payloadToUpstream v)) as [m | r] eqn:Hstart.
  - split; [right; eauto |]. split; [apply Hsent |]. cbn. split; [done |].
    intros (sent & r & [= <-] & Hr & _). congruence.
  - destruct (ok r) eqn:Hok; cbn [negb].
    + split; [right; eauto |]. split; [apply Hsent |]. cbn. split; [| done].
      intros _. eauto.
    + split; [right; eauto |]. split; [apply Hsent |]. cbn. split; [done |].
      intros (sent & r' & [= <-] & Hr & Hok'). congruence.
Qed.

(** X8.  Whatever the generate endpoint answers without relaying the
    provider (204, 405, 400, 500: a request it refuses, a missing
    credential, a launch that did not get through), the wait endpoint
    answers to the same request, with the same effects. *)
Theorem wait_refuses_as_generate {rt : Runtime} (env : environment) (net : network)
    (fuel : nat) (req : request GenerationRequest) :
  statusCode (generateHandler env net req).2 <> 200 ->
  statusCode (generateHandler env net req).2 <> 502 ->
  waitHandler env net fuel req = Some (generateHandler env net req).
Proof.
  unfold generateHandler, waitHandler, launchAndPoll.
  destruct (String.eqb (method req) "OPTIONS"); [done |].
  destruct (negb (String.eqb (method req) "POST")); [done |].
  destruct (checked superRefine (payload req)) as [refused | v]; [done |].
  destruct (getApiKey env) as [key | m]; [| done].
  destruct (startJob net (payloadToUpstream v)) as [m | r]; [done |].
  destruct (negb (ok r)); cbn; done.
Qed.

Lemma wait_refuses_as_generate_witness :
  waitHandler (rt := sampleRuntime) bothKeys stuckNet 0
    {| method := "GET"; query := ∅; payload := Typed lofi |}
  = Some ([], methodNotAllowed).
Proof.
  apply (wait_refuses_as_generate (rt := sampleRuntime) bothKeys stuckNet 0
           {| method := "GET"; query := ∅; payload := Typed lofi |});
    vm_compute; discriminate.
Defined.

Lemma superRefineUpload_generation (u : UploadRequest) :
  superRefineUpload u = [] -> superRefine (generation u) = [].
Proof.
  unfold superRefineUpload, superRefine.
  destruct (customMode (generation u)); cbn [negb]; [| done].
  intros H. by apply app_nil in H as [? _].
Qed.

Lemma recordTask_events {rt : Runtime} env net u jobId (i : nat) (r : jsval) :
  Forall (fun e => isUpload e = true) (recordTask env net u jobId i r).1.
Proof.
  unfold recordTask. destruct (String.eqb (audioUrlOf r) ""); [constructor |].
  destruct (getKieApiKey env); [| constructor].
  destruct (kieUpload net i _); repeat constructor.
Qed.

Lemma uploadAll_events {rt : Runtime} env net u jobId taskUrl statusJson trace out :
  uploadAll env net u jobId taskUrl statusJson trace = Some out ->
  exists uploads, out.1 = trace ++ uploads /\ Forall (fun e => isUpload e = true) uploads.
Proof.
  unfold uploadAll. intros H.
  exists (concat (fst <$> imap (recordTask env net u jobId) (recordsOf statusJson))).
  split.
  - destruct (promiseAll _ _ _) as [[uploads | m] |]; by inversion H.
  - apply Forall_concat, Forall_fmap, Forall_forall.
    intros [events result] Hin. apply elem_of_lookup_imap in Hin as (i & r & Heq & _).
    cbn. pose proof (recordTask_events env net u jobId i r) as Hev.
    by rewrite <- Heq in Hev.
Qed.

(** X9.  The wait-upload endpoint differs from the wait endpoint only
    in what it does with a finished job: whenever wait answers anything
    but 200, wait-upload gives the same answer with the same effects;
    and when wait answers 200, whatever wait-upload does comes after
    wait's effects and consists of upload requests only. *)
Theorem wait_upload_extends_wait {rt : Runtime} (env : environment) (net : network)
    (fuel : nat) (q : gmap string qval) (u : UploadRequest)
    (trace : list event) (resp : httpResponse) :
  superRefineUpload u = [] ->
  waitHandler env net fuel (post q (generation u)) = Some (trace, resp) ->
  (statusCode resp <> 200 ->
     waitUploadHandler env net fuel (post q u) = Some (trace, resp))
  /\ (statusCode resp = 200 ->
        forall out, waitUploadHandler env net fuel (post q u) = Some out ->
        exists uploads, out.1 = trace ++ uploads
                        /\ Forall (fun e => isUpload e = true) uploads).
Proof.
  intros Hu. rewrite (waitUploadHandler_post _ _ _ _ _ Hu).
  rewrite (waitHandler_post _ _ _ _ _ (superRefineUpload_generation _ Hu)).
  unfold launchAndPoll.
  destruct (getApiKey env) as [key | m]; [| intros [= <- <-]; split; done].
  destruct (startJob net _) as [m | r]; [intros [= <- <-]; split; done |].
  destruct (startRefused r); [intros [= <- <-]; split; done |].
  destruct (pollUntilDone _ _ _ _ _ _ _ _ _) as [[[statusJson | last | m] events] |];
    [| | | done]; intros [= <- <-]; cbn [statusCode json timedOut internalError];
    (split; [done |]); try done.
  intros _ out Hout. by apply uploadAll_events in Hout.
Qed.

Lemma wait_upload_extends_wait_witness :
  waitUploadHandler (rt := sampleRuntime) bothKeys stuckNet 5 (post timeoutQuery lofiUpload)
  = waitHandler (rt := sampleRuntime) bothKeys stuckNet 5 (post timeoutQuery lofi).
Proof.
  destruct (waitHandler (rt := sampleRuntime) bothKeys stuckNet 5 (post timeoutQuery lofi))
    as [[trace resp] |] eqn:Hwait; [| vm_compute in Hwait; discriminate].
  apply (wait_upload_extends_wait (rt := sampleRuntime) bothKeys stuckNet 5 timeoutQuery
           lofiUpload trace resp); [reflexivity | exact Hwait |].
  vm_compute in Hwait. injection Hwait as <- <-. vm_compute. discriminate.
Defined.

(** ** X10 - X11: how long the wait endpoint polls *)

Lemma patient_timely (net : network) (i : Q) :
  (1 <= i)%Q -> patient net (Fin i) -> timely net (Fin i).
Proof.
  intros Hi Hp k. destruct (Hp k) as [Hf Hs]. split; [done |].
  unfold num in Hs. cbn [num_le] in Hs.
  destruct (Qle_bool_spec i (inject_Z (sleepMs net k (Fin i)))) as [Hle | ?]; [| done].
  assert (H1 : (inject_Z 1 <= inject_Z (sleepMs net k (Fin i)))%Q)
    by (change (inject_Z 1) with 1%Q; lra).
  by rewrite <- Zle_Qle in H1.
Qed.

Lemma clock_patient (net : network) (i : Q) :
  patient net (Fin i) ->
  forall k, (inject_Z (Z.of_nat k) * i <= inject_Z (clock net (Fin i) k))%Q.
Proof.
  intros Hp. induction k as [|k IH];
    [cbn [clock]; change (inject_Z (Z.of_nat 0)) with 0%Q;
     change (inject_Z 0) with 0%Q; lra |].
  cbn [clock]. destruct (Hp k) as [Hf Hs].
  unfold num in Hs. cbn [num_le] in Hs.
  destruct (Qle_bool_spec i (inject_Z (sleepMs net k (Fin i)))) as [Hle | ?]; [| done].
  rewrite Nat2Z.inj_succ. unfold Z.succ. rewrite !inject_Z_plus.
  assert (Hf' : (0 <= inject_Z (fetchMs net k))%Q)
    by (change 0%Q with (inject_Z 0); by rewrite <- Zle_Qle).
  change (inject_Z 1) with 1%Q. lra.
Qed.

(** Under the clamps and with timers that are never early, the loop
    stops at a guard [n <= 900], after fewer than [b / i + 1] reads. *)
Lemma patient_stop (net : network) (taskUrl : jsval) (b i : Q) (before : list event) :
  (0 < b <= 900000)%Q -> (1000 <= i <= 30000)%Q -> patient net (Fin i) ->
  exists n, (n <= 900)%nat
    /\ reaches net (Fin b) (Fin i) n
    /\ stops net (Fin b) (Fin i) n = true
    /\ ((inject_Z (Z.of_nat (n + length (lastRead net taskUrl (Fin b) (Fin i) n))) - 1) * i
        < b)%Q
    /\ forall fuel, (n < fuel)%nat ->
         pollFrom net taskUrl (Fin b) (Fin i) fuel before
         = Some (exitAt net (Fin b) (Fin i) n,
                 before ++ rounds taskUrl (Fin i) n
                 ++ lastRead net taskUrl (Fin b) (Fin i) n).
Proof.
  intros Hb Hi Hp.
  assert (Hclk : forall k, inBudget net (Fin b) (Fin i) k = true ->
                           (inject_Z (Z.of_nat k) * i < b)%Q).
  { intros k Hin. unfold inBudget, num in Hin. apply num_lt_Fin in Hin.
    pose proof (clock_patient net i Hp k). lra. }
  assert (Hend : stops net (Fin b) (Fin i) 900 = true).
  { unfold stops. destruct (inBudget net (Fin b) (Fin i) 900) eqn:Hin; [| done].
    apply Hclk in Hin. change (inject_Z (Z.of_nat 900)) with 900%Q in Hin. lra. }
  destruct (first_stop net (Fin b) (Fin i) 900 Hend) as (n & Hn & Hr & Hs).
  exists n. split; [done |]. split; [done |]. split; [done |]. split.
  - unfold lastRead. destruct (inBudget net (Fin b) (Fin i) n) eqn:Hin; cbn [length].
    + apply Hclk in Hin. rewrite Nat2Z.inj_add, inject_Z_plus.
      change (inject_Z (Z.of_nat 1)) with 1%Q. lra.
    + rewrite Nat.add_0_r. destruct n as [|n].
      * change (inject_Z (Z.of_nat 0)) with 0%Q. lra.
      * destruct (Hr n ltac:(lia)) as [Hin' _]. apply Hclk in Hin'.
        rewrite Nat2Z.inj_succ. unfold Z.succ. rewrite inject_Z_plus.
        change (inject_Z 1) with 1%Q. lra.
  - intros fuel Hfuel. apply pollFrom_iff. exists n. done.
Qed.

Lemma polls_course (net : network) (taskUrl : jsval) (B I : jsnum) (sent : jsval) (n : nat) :
  polls ([StartJob sent] ++ rounds taskUrl I n ++ lastRead net taskUrl B I n)
  = (n + length (lastRead net taskUrl B I n))%nat.
Proof.
  rewrite !polls_app, polls_rounds. unfold lastRead.
  destruct (inBudget net B I n); reflexivity.
Qed.

Lemma few_polls (p : nat) (b i : Q) :
  (0 < b <= 900000)%Q -> (1000 <= i <= 30000)%Q ->
  ((inject_Z (Z.of_nat p) - 1) * i < b)%Q -> (p <= 900)%nat.
Proof.
  intros Hb Hi Hp. destruct (le_lt_dec p 900) as [? | Hgt]; [done |]. exfalso.
  assert (H901 : (901 <= inject_Z (Z.of_nat p))%Q).
  { change 901%Q with (inject_Z 901). rewrite <- Zle_Qle. lia. }
  assert (Hmul : (900 * i <= (inject_Z (Z.of_nat p) - 1) * i)%Q).
  { apply Qmult_le_compat_r; lra. }
  lra.
Qed.

(** A run that ends before the loop made no status read. *)
Ltac no_poll H := eapply H; [| intros ? ?; reflexivity]; reflexivity.

(** X10.  With timers that are never early the wait endpoint always
    answers, whatever the query asks for: it reads the job's status
    fewer than [timeoutMs / pollIntervalMs + 1] times (the clamped
    values), hence at most 900 times, and then answers; 901 units of
    fuel are enough for every request. *)
Theorem wait_polls_at_most_900_times {rt : Runtime} (env : environment) (net : network)
    (req : request GenerationRequest) :
  patient net (parsePollIntervalMs (query req)) ->
  exists trace resp b i,
    (forall fuel, (900 < fuel)%nat -> waitHandler env net fuel req = Some (trace, resp))
    /\ parseTimeoutMs (query req) = Fin b
    /\ parsePollIntervalMs (query req) = Fin i
    /\ ((inject_Z (Z.of_nat (polls trace)) - 1) * i < b)%Q
    /\ (polls trace <= 900)%nat.
Proof.
  destruct (parseTimeoutMs_range (query req)) as (b & HB & Hb).
  destruct (parsePollIntervalMs_range (query req)) as (i & HI & Hi).
  intros Hp.
  assert (Hnone : forall (trace : list event) (resp : httpResponse),
    polls trace = O ->
    (forall fuel, (900 < fuel)%nat -> waitHandler env net fuel req = Some (trace, resp)) ->
    exists trace resp b i,
      (forall fuel, (900 < fuel)%nat -> waitHandler env net fuel req = Some (trace, resp))
      /\ parseTimeoutMs (query req) = Fin b
      /\ parsePollIntervalMs (query req) = Fin i
      /\ ((inject_Z (Z.of_nat (polls trace)) - 1) * i < b)%Q
      /\ (polls trace <= 900)%nat).
  { intros trace resp H0 Hrun. exists trace, resp, b, i.
    rewrite H0. change (inject_Z (Z.of_nat 0)) with 0%Q.
    repeat (split; [done || lra |]). lia. }
  unfold waitHandler in *.
  destruct (String.eqb (method req) "OPTIONS"); [no_poll Hnone |].
  destruct (negb (String.eqb (method req) "POST")); [no_poll Hnone |].
  destruct (checked superRefine (payload req)) as [refused | v]; [no_poll Hnone |].
  unfold launchAndPoll in *.
  destruct (getApiKey env) as [key | m]; [| no_poll Hnone].
  destruct (startJob net (payloadToUpstream v)) as [m | r]; [no_poll Hnone |].
  destruct (startRefused r); [no_poll Hnone |].
  clear Hnone. rewrite HB, HI in *.
  destruct (patient_stop net (taskUrlOf (jsonOrNull r)) b i
              [StartJob (payloadToUpstream v)] Hb Hi Hp)
    as (n & Hn & _ & _ & Hbound & Hrun).
  unfold pollFrom in Hrun.
  rewrite <- (polls_course net (taskUrlOf (jsonOrNull r)) (Fin b) (Fin i)
                (payloadToUpstream v) n) in Hbound.
  set (trace := [StartJob (payloadToUpstream v)] ++ _) in *.
  assert (Hfew := few_polls _ _ _ Hb Hi Hbound).
  destruct (exitAt net (Fin b) (Fin i) n) as [statusJson | last | m] eqn:Hexit;
    eexists trace, _, b, i;
    (split; [intros fuel Hfuel; rewrite Hrun by lia; reflexivity | done]).
Qed.

Lemma stuckNet_patient :
  patient stuckNet (parsePollIntervalMs (rt := sampleRuntime) timeoutQuery).
Proof. intros k. split; [done | by vm_compute]. Qed.

Lemma wait_polls_at_most_900_times_witness :
  exists trace resp b i,
    (forall fuel, (900 < fuel)%nat ->
       waitHandler (rt := sampleRuntime) bothKeys stuckNet fuel (post timeoutQuery lofi)
       = Some (trace, resp))
    /\ parseTimeoutMs (rt := sampleRuntime) (query (post timeoutQuery lofi)) = Fin b
    /\ parsePollIntervalMs (rt := sampleRuntime) (query (post timeoutQuery lofi)) = Fin i
    /\ ((inject_Z (Z.of_nat (polls trace)) - 1) * i < b)%Q
    /\ (polls trace <= 900)%nat.
Proof.
  apply (wait_polls_at_most_900_times (rt := sampleRuntime) bothKeys stuckNet
           (post timeoutQuery lofi)).
  exact stuckNet_patient.
Defined.

(** X11.  Every run of the wait endpoint has one shape: nothing at all,
    or the launch alone, or the launch followed by status reads that
    all go to one URL and alternate with sleeps of the clamped interval.
    It never uploads.  A run that ends in 408 ends with a sleep, after
    one read at least; every other run that polled ends with a read. *)
Theorem wait_trace_shape {rt : Runtime} (env : environment) (net : network)
    (fuel : nat) (req : request GenerationRequest)
    (trace : list event) (resp : httpResponse) :
  waitHandler env net fuel req = Some (trace, resp) ->
  (trace = [] /\ statusCode resp ∈ [204; 405; 400; 500])
  \/ exists v, payload req = Typed v
       /\ ((trace = [StartJob (payloadToUpstream v)] /\ statusCode resp ∈ [500; 502])
           \/ exists r n,
                startJob net (payloadToUpstream v) = Responded r
                /\ let url := taskUrlOf (jsonOrNull r) in
                   let every := parsePollIntervalMs (query req) in
                   (statusCode resp = 408 /\ (1 <= n)%nat
                    /\ trace = StartJob (payloadToUpstream v) :: rounds url every n)
                   \/ (statusCode resp ∈ [200; 500]
                       /\ trace = StartJob (payloadToUpstream v)
                                  :: rounds url every n ++ [GetStatus url])).
Proof.
  unfold waitHandler.
  destruct (String.eqb (method req) "OPTIONS");
    [intros [= <- <-]; left; split; [done | set_solver] |].
  destruct (negb (String.eqb (method req) "POST"));
    [intros [= <- <-]; left; split; [done | cbn; set_solver] |].
  unfold checked.
  destruct (payload req) as [| errors | v] eqn:Hpay;
    [intros [= <- <-]; left; split; [done | cbn; set_solver] ..|].
  destruct (superRefine v) as [| issue issues];
    [| intros [= <- <-]; left; split; [done | cbn; set_solver]].
  unfold launchAndPoll.
  destruct (getApiKey env) as [key | m];
    [| intros [= <- <-]; left; split; [done | cbn; set_solver]].
  destruct (startJob net (payloadToUpstream v)) as [m | r] eqn:Hstart;
    [intros [= <- <-]; right; exists v; split; [done |]; left; split;
       [done | cbn; set_solver] |].
  destruct (startRefused r);
    [intros [= <- <-]; right; exists v; split; [done |]; left; split;
       [done | cbn; set_solver] |].
  destruct (pollUntilDone _ _ _ _ _ _ _ _ _) as [[exit events] |] eqn:Hloop; [| done].
  apply (pollFrom_iff net (taskUrlOf (jsonOrNull r)) (parseTimeoutMs (query req))
           (parsePollIntervalMs (query req)) fuel [StartJob (payloadToUpstream v)])
    in Hloop as (n & _ & Hreach & _ & [= -> ->]).
  intros Hout. right. exists v. split; [done |]. right. exists r, n.
  split; [done |]. cbv zeta. unfold exitAt, lastRead in *.
  destruct (inBudget net _ _ n) eqn:Hin.
  - right. destruct (statusAt net n) as [m | s]; injection Hout as <- <-;
      (split; [cbn; set_solver | reflexivity]).
  - left. injection Hout as <- <-. split; [done |]. split.
    + destruct n as [|n]; [| lia]. by rewrite first_guard_holds in Hin.
    + by rewrite app_nil_r.
Qed.

Lemma wait_trace_shape_witness :
  exists trace resp n,
    waitHandler (rt := sampleRuntime) bothKeys stuckNet 5 (post timeoutQuery lofi)
    = Some (trace, resp)
    /\ statusCode resp = 408
    /\ trace = StartJob (payloadToUpstream lofi)
               :: rounds abcUrl (parsePollIntervalMs (rt := sampleRuntime) timeoutQuery) n.
Proof.
  destruct (waitHandler (rt := sampleRuntime) bothKeys stuckNet 5 (post timeoutQuery lofi))
    as [[trace resp] |] eqn:Hwait; [| vm_compute in Hwait; discriminate].
  destruct (wait_trace_shape (rt := sampleRuntime) bothKeys stuckNet 5
              (post timeoutQuery lofi) trace resp Hwait)
    as [[-> _] | (v & [= <-] & [[-> _] | (r & n & [= <-] & [(Hcode & _ & ->) | (Hcode & _)])])];
    try (vm_compute in Hwait; discriminate).
  - eexists _, resp, n. split; [reflexivity |]. split; [exact Hcode | reflexivity].
  - exfalso. vm_compute in Hwait. injection Hwait as _ <-.
    change (statusCode _) with 408 in Hcode.
    apply elem_of_cons in Hcode as [Hcode | Hcode]; [discriminate |].
    apply list_elem_of_singleton in Hcode. discriminate.
Defined.

(** ** X12 - X14: the batch of uploads *)

Lemma length_append (s t : string) :
  String.length (s +:+ t) = (String.length s + String.length t)%nat.
Proof.
  induction s as [|a s IH]; [done |].
  change (S (String.length (s +:+ t)) = S (String.length s + String.length t)).
  by rewrite IH.
Qed.

Lemma append_inj_l (t s1 s2 : string) : s1 +:+ t = s2 +:+ t -> s1 = s2.
Proof.
  revert s2. induction s1 as [|a s1 IH]; intros [|b s2] H; [done | | |].
  - apply (f_equal String.length) in H.
    change (String b s2 +:+ t) with (String b (s2 +:+ t)) in H.
    change ("" +:+ t) with t in H. cbn [String.length] in H.
    rewrite length_append in H. lia.
  - apply (f_equal String.length) in H.
    change (String a s1 +:+ t) with (String a (s1 +:+ t)) in H.
    change ("" +:+ t) with t in H. cbn [String.length] in H.
    rewrite length_append in H. lia.
  - change (String a (s1 +:+ t) = String b (s2 +:+ t)) in H.
    injection H as -> H. f_equal. by apply IH.
Qed.

Lemma append_nonempty_r (s t : string) : t <> "" -> s +:+ t <> "".
Proof.
  intros Ht H. apply (f_equal String.length) in H. rewrite length_append in H.
  destruct t; [done |]. cbn [String.length] in H. lia.
Qed.

(** X12.  The name a record is stored under.  Without a [kieFileName]
    (absent, empty or blank) the records of a job get names that differ
    from record to record; with one, every record of the batch is sent
    under that same (trimmed) name.  The name sent is never empty, and
    the path sent is the requested [kieUploadPath] as it stands. *)
Theorem upload_file_names {rt : Runtime} (u : UploadRequest) (jobId : jsval) :
  (blank (kieFileName u) = true ->
     forall i j r r',
       fileName (uploadRequestFor u jobId i r) = fileName (uploadRequestFor u jobId j r') ->
       i = j)
  /\ (blank (kieFileName u) = false ->
        forall i r, fileName (uploadRequestFor u jobId i r) = trim (kieFileName u))
  /\ (forall i r, fileName (uploadRequestFor u jobId i r) <> ""
                  /\ uploadPath (uploadRequestFor u jobId i r) = kieUploadPath u
                  /\ fileUrl (uploadRequestFor u jobId i r) = audioUrlOf r).
Proof.
  unfold uploadRequestFor, fileNameFor, blank. cbn [fileName uploadPath fileUrl].
  destruct (String.eqb_spec (trim (kieFileName u)) "") as [Hblank | Hname].
  - split; [| split; [done |]].
    + intros _ i j r r' H.
      apply String.app_inj, String.app_inj, append_inj_l, pretty_Z_inj in H. lia.
    + intros i r. split; [| done].
      by apply append_nonempty_r, append_nonempty_r, append_nonempty_r.
  - split; [done |]. split; [done |]. done.
Qed.

Lemma upload_file_names_witness :
  fileName (uploadRequestFor (rt := sampleRuntime) namedUpload (JStr "abc") 0 JNull)
  = fileName (uploadRequestFor (rt := sampleRuntime) namedUpload (JStr "abc") 1 JNull)
  /\ forall i j,
       fileName (uploadRequestFor (rt := sampleRuntime) lofiUpload (JStr "abc") i JNull)
       = fileName (uploadRequestFor (rt := sampleRuntime) lofiUpload (JStr "abc") j JNull) ->
       i = j.
Proof.
  destruct (upload_file_names (rt := sampleRuntime) namedUpload (JStr "abc"))
    as (_ & Hsame & _).
  destruct (upload_file_names (rt := sampleRuntime) lofiUpload (JStr "abc"))
    as (Hdiff & _).
  split.
  - by rewrite !Hsame.
  - intros i j. apply Hdiff. reflexivity.
Defined.

(** [Promise.all] over promises of which one that settles is rejected
    is rejected, with the reason of a rejected promise. *)
Lemma promiseAll_rejects (promises : list settled) :
  forall (order : list nat) (slots : list (option jsval)),
    (forall i, i ∈ order -> (i < length promises)%nat) ->
    (exists i m, i ∈ order /\ promises !! i = Some (Rejected m)) ->
    exists j m, promises !! j = Some (Rejected m)
                /\ promiseAll promises order slots = Some (Rejected m).
Proof.
  induction order as [|i later IH]; intros slots Hin (k & m & Hk & Hrej).
  - by apply elem_of_nil in Hk.
  - cbn [promiseAll].
    destruct (lookup_lt_is_Some_2 promises i) as [p Hp]; [apply Hin; left |].
    rewrite Hp. destruct p as [v | m'].
    + apply IH; [intros j Hj; apply Hin; by right |].
      exists k, m. split; [| done].
      apply elem_of_cons in Hk as [-> | Hk]; [congruence | done].
    + exists i, m'. done.
Qed.

Section Rejections.
Context {rt : Runtime} (env : environment) (net : network) (u : UploadRequest)
  (jobId : jsval).

Lemma tasks_lookup (records : list jsval) (i : nat) :
  (snd <$> imap (recordTask env net u jobId) records) !! i
  = (fun r => (recordTask env net u jobId i r).2) <$> records !! i.
Proof. rewrite list_lookup_fmap, list_lookup_imap. by destruct (records !! i). Qed.

Lemma tasks_length (records : list jsval) :
  length (snd <$> imap (recordTask env net u jobId) records) = length records.
Proof. by rewrite length_fmap, length_imap. Qed.

Lemma someAudio_iff (records : list jsval) :
  someAudio records = true <-> exists i r, records !! i = Some r /\ audioUrlOf r <> "".
Proof.
  unfold someAudio. rewrite existsb_exists. split.
  - intros (r & Hin & Hr). apply list_elem_of_In, list_elem_of_lookup in Hin as [i Hi].
    exists i, r. split; [done |]. intros E. by rewrite E in Hr.
  - intros (i & r & Hi & Hr). exists r. split.
    + apply list_elem_of_In. by eapply list_elem_of_lookup_2.
    + by destruct (String.eqb_spec (audioUrlOf r) "").
Qed.

Lemma uploadsIssued_has (records : list jsval) (key : string) (j : nat) (r : jsval) :
  getKieApiKey env = Ok key ->
  records !! j = Some r -> audioUrlOf r <> "" ->
  Upload (uploadRequestFor u jobId j r) ∈ uploadsIssued env net u jobId records.
Proof.
  intros Hkey Hr E. unfold uploadsIssued. rewrite list_elem_of_In, in_concat.
  exists (recordTask env net u jobId j r).1. split.
  - apply list_elem_of_In, list_elem_of_fmap.
    exists (recordTask env net u jobId j r). split; [done |].
    by apply elem_of_lookup_imap_2.
  - apply list_elem_of_In. unfold recordTask.
    destruct (String.eqb_spec (audioUrlOf r) ""); [done |]. rewrite Hkey.
    destruct (kieUpload net j _); cbn; by left.
Qed.

End Rejections.

(** X13.  The storage credential is asked for only when there is
    something to store.  Without it, a finished job whose records all
    lack an audio URL is answered 200, each record reported as missing
    its audio; as soon as one record has an audio URL the step answers
    500 "Missing env KIE_API_KEY".  Either way nothing is uploaded. *)
Theorem storage_credential_is_asked_for_audio_only {rt : Runtime} (env : environment)
    (net : network) (u : UploadRequest) (jobId taskUrl statusJson : jsval)
    (trace : list event) (m : string) :
  getKieApiKey env = Throw m ->
  completion net ≡ₚ seq 0 (length (recordsOf statusJson)) ->
  uploadAll env net u jobId taskUrl statusJson trace
  = Some (trace,
          if someAudio (recordsOf statusJson)
          then internalError "Missing env KIE_API_KEY"
          else uploaded jobId taskUrl statusJson
                 (JArr (imap (fun i _ => missingAudio i) (recordsOf statusJson)))).
Proof.
  intros Hkey Hperm.
  assert (Hm : m = "Missing env KIE_API_KEY").
  { unfold getKieApiKey, requireKey in Hkey.
    destruct (KIE_API_KEY env) as [k |]; [destruct (String.eqb k "") |];
      try discriminate; injection Hkey as <-; reflexivity. }
  subst m. unfold uploadAll. set (records := recordsOf statusJson) in *.
  assert (Htask : forall i r, records !! i = Some r ->
            recordTask env net u jobId i r
            = ([], if String.eqb (audioUrlOf r) "" then Fulfilled (missingAudio i)
                   else Rejected "Missing env KIE_API_KEY")).
  { intros i r _. unfold recordTask. rewrite Hkey.
    by destruct (String.eqb (audioUrlOf r) ""). }
  assert (Hquiet : concat (fst <$> imap (recordTask env net u jobId) records) = []).
  { apply concat_nil_Forall, Forall_fmap, Forall_forall. intros task Hin.
    apply elem_of_lookup_imap in Hin as (i & r & -> & Hr). by rewrite (Htask i r Hr). }
  rewrite Hquiet, app_nil_r, length_imap.
  destruct (someAudio records) eqn:Hsome.
  - apply someAudio_iff in Hsome as (i & r & Hr & E).
    destruct (promiseAll_rejects (snd <$> imap (recordTask env net u jobId) records)
                (completion net) (replicate (length records) None))
      as (j & m & Hj & ->).
    + intros k Hk. rewrite tasks_length. rewrite Hperm in Hk.
      apply elem_of_seq in Hk. lia.
    + exists i, "Missing env KIE_API_KEY". split.
      * rewrite Hperm. apply elem_of_seq. apply lookup_lt_Some in Hr. lia.
      * rewrite tasks_lookup, Hr. cbn. rewrite (Htask i r Hr).
        by destruct (String.eqb_spec (audioUrlOf r) "").
    + rewrite tasks_lookup in Hj. destruct (records !! j) as [r' |] eqn:Hr'; [| done].
      cbn in Hj. rewrite (Htask j r' Hr') in Hj.
      destruct (String.eqb (audioUrlOf r') ""); cbn in Hj; congruence.
  - assert (Hall : snd <$> imap (recordTask env net u jobId) records
                   = Fulfilled <$> imap (fun i _ => missingAudio i) records).
    { apply list_eq. intros i. rewrite tasks_lookup, list_lookup_fmap, list_lookup_imap.
      destruct (records !! i) as [r |] eqn:Hr; [| done]. cbn. rewrite (Htask i r Hr).
      destruct (String.eqb_spec (audioUrlOf r) "") as [E | E]; [done |].
      assert (someAudio records = true) by (apply someAudio_iff; eauto). congruence. }
    rewrite Hall.
    pose proof (promiseAll_permutation (imap (fun i _ => missingAudio i) records)
                  (completion net)) as Hdone.
    rewrite length_imap in Hdone. by rewrite (Hdone Hperm).
Qed.

Lemma storage_credential_is_asked_for_audio_only_witness :
  uploadAll (rt := sampleRuntime) paxKeyOnly batchNet lofiUpload (JStr "abc") abcUrl
    threeRecords []
  = Some ([], internalError "Missing env KIE_API_KEY").
Proof.
  apply (storage_credential_is_asked_for_audio_only (rt := sampleRuntime) paxKeyOnly
           batchNet lofiUpload (JStr "abc") abcUrl threeRecords []
           "Missing env KIE_API_KEY"); [reflexivity |].
  apply (Permutation_cons_append [0; 1]%nat 2%nat).
Defined.

(** X14.  [Promise.all] makes the batch all-or-nothing for uploads that
    get no answer: when the storage provider cannot be reached for one
    record, the step answers 500 with the reason of such a failure and
    delivers no [kieUploads] at all, although the upload of every
    record with an audio URL has been requested. *)
Theorem unanswered_upload_fails_the_batch {rt : Runtime} (env : environment)
    (net : network) (u : UploadRequest) (jobId taskUrl statusJson : jsval)
    (trace : list event) (key : string) (i : nat) (r : jsval) (m : string) :
  getKieApiKey env = Ok key ->
  completion net ≡ₚ seq 0 (length (recordsOf statusJson)) ->
  recordsOf statusJson !! i = Some r ->
  audioUrlOf r <> "" ->
  kieUpload net i (uploadRequestFor u jobId i r) = NetworkError m ->
  exists j r' m',
    recordsOf statusJson !! j = Some r'
    /\ audioUrlOf r' <> ""
    /\ kieUpload net j (uploadRequestFor u jobId j r') = NetworkError m'
    /\ uploadAll env net u jobId taskUrl statusJson trace
       = Some (trace ++ uploadsIssued env net u jobId (recordsOf statusJson),
               internalError m')
    /\ bodyField "kieUploads" (internalError m') = JUndefined
    /\ forall k s, recordsOf statusJson !! k = Some s -> audioUrlOf s <> "" ->
         Upload (uploadRequestFor u jobId k s)
         ∈ uploadsIssued env net u jobId (recordsOf statusJson).
Proof.
  intros Hkey Hperm Hr E Hfail. set (records := recordsOf statusJson) in *.
  destruct (promiseAll_rejects (snd <$> imap (recordTask env net u jobId) records)
              (completion net) (replicate (length (imap (recordTask env net u jobId) records)) None))
    as (j & m' & Hj & Hall).
  - intros k Hk. rewrite tasks_length. rewrite Hperm in Hk.
    apply elem_of_seq in Hk. lia.
  - exists i, m. split.
    + rewrite Hperm. apply elem_of_seq. apply lookup_lt_Some in Hr. lia.
    + rewrite tasks_lookup, Hr. cbn. unfold recordTask.
      destruct (String.eqb_spec (audioUrlOf r) ""); [done |]. by rewrite Hkey, Hfail.
  - rewrite tasks_lookup in Hj. destruct (records !! j) as [r' |] eqn:Hr'; [| done].
    cbn in Hj. unfold recordTask in Hj.
    destruct (String.eqb_spec (audioUrlOf r') "") as [| E']; [done |].
    rewrite Hkey in Hj.
    destruct (kieUpload net j (uploadRequestFor u jobId j r')) as [m'' | resp] eqn:Hup;
      [| done].
    injection Hj as ->. exists j, r', m'. split; [done |]. split; [done |].
    split; [done |]. split; [| split; [reflexivity |]].
    + unfold uploadAll. fold records. by rewrite Hall.
    + intros k s Hs Es. by apply (uploadsIssued_has env net u jobId records key).
Qed.

Lemma unanswered_upload_fails_the_batch_witness :
  exists m,
    uploadAll (rt := sampleRuntime) bothKeys unreachableNet lofiUpload (JStr "abc") abcUrl
      threeRecords []
    = Some ([] ++ uploadsIssued (rt := sampleRuntime) bothKeys unreachableNet lofiUpload
                    (JStr "abc") (recordsOf threeRecords),
            internalError m).
Proof.
  destruct (unanswered_upload_fails_the_batch (rt := sampleRuntime) bothKeys unreachableNet
              lofiUpload (JStr "abc") abcUrl threeRecords [] "kie-key" 2%nat
              (JObj [("id", JStr "r3"); ("audio_url", JStr "https://x/b.mp3")])
              "fetch failed" eq_refl)
    as (j & r' & m' & _ & _ & _ & Hrun & _).
  - apply (Permutation_cons_append [0; 1]%nat 2%nat).
  - reflexivity.
  - discriminate.
  - reflexivity.
  - exists m'. exact Hrun.
Defined.

(** ** X15 - X16: the status endpoint *)

(** X15.  The status endpoint reads the provider at most once, at the
    URL of the job asked for, and does so exactly when the method is
    GET, [jobId] is one non-empty string and the credential is set; a
    missing, empty or repeated [jobId] is answered 400.  Unlike the poll
    loop it looks at the HTTP status of the read: it answers 200 exactly
    when the read was answered 2xx (whatever state the job is in) and
    502 exactly when it was answered with another status. *)
Theorem status_endpoint_outcome {A : Type} (env : environment) (net : network)
    (req : request A) :
  let out := statusHandler env net req in
  (out.1 = [] \/ exists jobId, query req !! "jobId" = Some (QStr jobId)
                               /\ out.1 = [GetStatus (statusUrl jobId)])
  /\ (out.1 <> [] <->
        method req = "GET"
        /\ (exists jobId, query req !! "jobId" = Some (QStr jobId) /\ jobId <> "")
        /\ (exists key, PAXSENIX_API_KEY env = Some key /\ key <> ""))
  /\ (statusCode out.2 = 400 <->
        method req = "GET"
        /\ forall jobId, query req !! "jobId" = Some (QStr jobId) -> jobId = "")
  /\ (statusCode out.2 = 200 <->
        out.1 <> [] /\ exists r, statusAt net O = Responded r /\ ok r = true)
  /\ (statusCode out.2 = 502 <->
        out.1 <> [] /\ exists r, statusAt net O = Responded r /\ ok r = false).
Proof.
  cbv zeta. unfold statusHandler.
  destruct (String.eqb_spec (method req) "OPTIONS") as [Hopt | Hopt].
  { cbn. split; [by left |]. repeat split; try done; try (by intros [? _]).
    all: intros [Hget _]; rewrite Hget in Hopt; done. }
  destruct (String.eqb_spec (method req) "GET") as [Hget | Hget]; cbn [negb].
  2: { cbn. split; [by left |]. repeat split; try done; by intros [? _]. }
  assert (Hnone : (forall jobId, query req !! "jobId" = Some (QStr jobId) -> jobId = "") ->
    (@nil event = [] \/ exists jobId, query req !! "jobId" = Some (QStr jobId)
                                      /\ [] = [GetStatus (statusUrl jobId)])
    /\ (@nil event <> [] <->
          method req = "GET"
          /\ (exists jobId, query req !! "jobId" = Some (QStr jobId) /\ jobId <> "")
          /\ (exists key, PAXSENIX_API_KEY env = Some key /\ key <> ""))
    /\ (statusCode jobIdRequired = 400 <->
          method req = "GET"
          /\ forall jobId, query req !! "jobId" = Some (QStr jobId) -> jobId = "")
    /\ (statusCode jobIdRequired = 200 <->
          @nil event <> [] /\ exists r, statusAt net O = Responded r /\ ok r = true)
    /\ (statusCode jobIdRequired = 502 <->
          @nil event <> [] /\ exists r, statusAt net O = Responded r /\ ok r = false)).
  { intros Hno. split; [by left |]. split; [| split; [| split]].
    - split; [done |]. intros (_ & (jobId & Hq & Hne) & _). by apply Hno in Hq.
    - done.
    - split; [done | by intros [? _]].
    - split; [done | by intros [? _]]. }
  destruct (query req !! "jobId") as [[jobId | l] |] eqn:Hq;
    [| apply Hnone; intros ? [=] | apply Hnone; intros ? [=]].
  destruct (String.eqb_spec jobId "") as [-> | Hne];
    [apply Hnone; by intros ? [= <-] | clear Hnone].
  unfold getApiKey. destruct (requireKey _ _) as [key | m] eqn:Hkey.
  2: { cbn. split; [by left |]. split; [| split; [| split]].
       - split; [done |]. intros (_ & _ & key & Hk).
         apply (requireKey_Ok "PAXSENIX_API_KEY") in Hk. congruence.
       - split; [done |]. intros [_ Hno]. by specialize (Hno jobId eq_refl).
       - split; [done | by intros [? _]].
       - split; [done | by intros [? _]]. }
  apply requireKey_Ok in Hkey.
  assert (Hcontact : method req = "GET"
          /\ (exists jobId0, Some (QStr jobId) = Some (QStr jobId0) /\ jobId0 <> "")
          /\ (exists key, PAXSENIX_API_KEY env = Some key /\ key <> "")) by eauto 10.
  assert (Hnot400 : ~ (method req = "GET"
                       /\ forall jobId0, Some (QStr jobId) = Some (QStr jobId0) -> jobId0 = "")).
  { intros [_ Hno]. by specialize (Hno jobId eq_refl). }
  destruct (statusAt net O) as [m | r] eqn:Hst;
    [| destruct (ok r) eqn:Hok; cbn [negb]];
    (split; [right; eauto |]); cbn; repeat split; try done; eauto;
    try (by intros H; destruct (Hnot400 H));
    intros (_ & r0 & Hr & Hok'); congruence.
Qed.

Lemma encodeUnit_length (c : ascii) :
  unreserved c = false -> (3 <= String.length (encodeUnit c))%nat.
Proof.
  intros H. unfold encodeUnit. rewrite H.
  destruct (nat_of_ascii c <? 128)%nat; [done |].
  rewrite length_append. cbn [escape String.length]. lia.
Qed.

Lemma encodeURIComponent_length (s : string) :
  (String.length s <= String.length (encodeURIComponent s))%nat.
Proof.
  induction s as [|c s IH]; [done |].
  cbn [encodeURIComponent String.length]. rewrite length_append.
  destruct (unreserved c) eqn:H.
  - unfold encodeUnit. rewrite H. cbn [String.length]. lia.
  - pose proof (encodeUnit_length c H). lia.
Qed.

Lemma encodeURIComponent_fixed (s : string) :
  encodeURIComponent s = s <-> forallb unreserved (list_ascii_of_string s) = true.
Proof.
  induction s as [|c s IH]; [done |].
  cbn [encodeURIComponent list_ascii_of_string forallb].
  destruct (unreserved c) eqn:H; cbn [andb].
  - unfold encodeUnit. rewrite H, <- IH.
    change (String c "" +:+ encodeURIComponent s) with (String c (encodeURIComponent s)).
    split; [by intros [= ?] | by intros ->].
  - split; [| done]. intros Heq. apply (f_equal String.length) in Heq.
    rewrite length_append in Heq. cbn [String.length] in Heq.
    pose proof (encodeUnit_length c H). pose proof (encodeURIComponent_length s). lia.
Qed.

(** X16.  Picking a job up again.  When the provider names no
    [task_url] the wait flows poll [BASE/task/<jobId>] with the job id as
    it stands, while the status endpoint escapes the id it is given: the
    status endpoint reads the very URL the loop polled (the [task_url]
    of a 408 answer) if and only if the job id consists of letters,
    digits and the marks [- _ . ! ~ * ' ( )]. *)
Theorem status_endpoint_reads_the_polled_url {rt : Runtime} (env : environment)
    (net : network) (startJson : jsval) (jobId key : string) :
  get "jobId" startJson = JStr jobId ->
  truthy (get "task_url" startJson) = false ->
  jobId <> "" ->
  getApiKey env = Ok key ->
  ((statusHandler env net (statusOf jobId)).1 = [GetStatus (taskUrlOf startJson)]
   <-> forallb unreserved (list_ascii_of_string jobId) = true)
  /\ forall last,
       bodyField "task_url" (timedOut (JStr jobId) (taskUrlOf startJson) last)
       = taskUrlOf startJson.
Proof.
  intros Hid Hurl Hne Hkey. split.
  - unfold statusHandler, statusOf. cbn [method query]. rewrite lookup_singleton_eq.
    destruct (String.eqb_spec jobId "") as [| _]; [done |]. rewrite Hkey.
    cbn [String.eqb Ascii.eqb Bool.eqb negb].
    rewrite <- encodeURIComponent_fixed.
    unfold taskUrlOf, js_or, statusUrl. rewrite Hurl, Hid. cbn [ToString].
    assert (Hiff : [GetStatus (JStr (PAXSENIX_BASE_URL +:+ "/task/"
                                      +:+ encodeURIComponent jobId))]
                   = [GetStatus (JStr (PAXSENIX_BASE_URL +:+ "/task/" +:+ jobId))]
                   <-> encodeURIComponent jobId = jobId).
    { split; [| by intros ->]. by intros [= H]. }
    destruct (statusAt net O) as [m | r]; [exact Hiff |].
    destruct (negb (ok r)); exact Hiff.
  - intros last. reflexivity.
Qed.

Lemma status_endpoint_reads_the_polled_url_witness :
  (statusHandler bothKeys stuckNet (statusOf "abc")).1
  = [GetStatus (taskUrlOf (rt := sampleRuntime) (jsonOrNull accepted))].
Proof.
  apply (status_endpoint_reads_the_polled_url (rt := sampleRuntime) bothKeys stuckNet
           (jsonOrNull accepted) "abc" "pax-key");
    (reflexivity || discriminate).
Defined.

(** ** X17 - X18: starting a cover *)

Lemma assoc_spread (k : string) (more : list (string * jsval)) :
  NoDup (keys more) ->
  forall base,
    assoc k (spread base more)
    = match assoc k more with Some v => Some v | None => assoc k base end.
Proof.
  unfold spread. induction more as [|[k1 v1] more IH]; intros Hnd base; [done |].
  unfold keys in Hnd. cbn [fmap list_fmap fst] in Hnd.
  apply NoDup_cons in Hnd as [Hk1 Hnd]. fold (keys more) in Hk1, Hnd.
  cbn [fold_left fst snd assoc]. rewrite (IH Hnd).
  destruct (String.eqb_spec k k1) as [-> | Hne].
  - apply assoc_None in Hk1. by rewrite Hk1, assoc_obj_set_eq.
  - by rewrite assoc_obj_set_ne.
Qed.

Lemma get_normalizeAuthor (k : string) (props : list (string * jsval)) :
  NoDup (keys props) -> k <> "creator" -> k <> "Author" ->
  get k (normalizeAuthor (JObj props)) = get k (JObj props).
Proof.
  intros Hnd Hc Ha. cbn [normalizeAuthor get].
  rewrite assoc_spread by by apply NoDup_without.
  rewrite assoc_without by done. cbn [assoc].
  destruct (String.eqb_spec k "Author"); [done |]. by destruct (assoc k props).
Qed.

Lemma NoDup_obj_set (k : string) (v : jsval) (props : list (string * jsval)) :
  NoDup (keys props) -> NoDup (keys (obj_set k v props)).
Proof.
  induction props as [|[k' v'] props IH]; intros Hnd.
  - cbn. apply NoDup_singleton.
  - unfold keys in Hnd. cbn [fmap list_fmap fst] in Hnd.
    apply NoDup_cons in Hnd as [Hk' Hnd]. fold (keys props) in Hk', Hnd.
    cbn [obj_set]. destruct (String.eqb_spec k k') as [-> | Hne].
    + unfold keys. cbn [fmap list_fmap fst]. by apply NoDup_cons.
    + unfold keys. cbn [fmap list_fmap fst]. apply NoDup_cons. split; [| by apply IH].
      fold (keys (obj_set k v props)). apply assoc_None.
      rewrite assoc_obj_set_ne by done. by apply assoc_None.
Qed.

Lemma NoDup_spread (more base : list (string * jsval)) :
  NoDup (keys base) -> NoDup (keys (spread base more)).
Proof.
  unfold spread. revert base. induction more as [|[k v] more IH]; intros base Hnd; [done |].
  cbn [fold_left fst snd]. by apply IH, NoDup_obj_set.
Qed.

(** X17.  The cover endpoint posts to the provider at most once, and
    exactly when the method is POST, the body has the shape of the
    schema, a custom-mode request has a style and a title that are not
    blank, and the storage provider's credential is set.  The rule on
    style and title comes before the credential: a request that breaks
    it is answered 400 whatever the deployment.  Nothing else of the
    request is checked: no prompt is required and no length is bounded. *)
Theorem cover_start_outcome (env : environment) (upstream : jsval -> fetched)
    (headers : gmap string string) (req : request CoverStart.Request) :
  let out := CoverStart.handler env upstream headers req in
  (out.1 <> [] <->
     method req = "POST"
     /\ (exists v, payload req = Typed v
                   /\ (CoverStart.customMode v = true ->
                       blank (CoverStart.style v) = false
                       /\ blank (CoverStart.title v) = false))
     /\ (exists key, KIE_API_KEY env = Some key /\ key <> ""))
  /\ (length out.1 <= 1)%nat
  /\ (forall v, method req = "POST" -> payload req = Typed v ->
        CoverStart.customMode v = true ->
        blank (CoverStart.style v) = true \/ blank (CoverStart.title v) = true ->
        out = ([], CoverStart.styleAndTitleRequired))
  /\ (statusCode out.2 = 200 <->
        exists sent r, out.1 = [sent] /\ upstream sent = Responded r /\ ok r = true).
Proof.
  cbv zeta. unfold CoverStart.handler.
  destruct (String.eqb_spec (method req) "OPTIONS") as [Hopt | Hopt].
  { cbn. repeat split; try done; try lia; try (by intros (? & ? & ? & _)).
    all: intros; exfalso; intuition congruence. }
  destruct (String.eqb_spec (method req) "POST") as [Hpost | Hpost]; cbn [negb].
  2: { cbn. repeat split; try done; try lia; try (by intros (? & ? & ? & _)).
       all: intros; exfalso; intuition congruence. }
  destruct (payload req) as [| errors | v] eqn:Hpay.
  1, 2: cbn; repeat split; try done; try lia; try (by intros (? & ? & ? & _));
    by intros (_ & (? & ? & _) & _).
  destruct (CoverStart.customMode v) eqn:Hmode,
           (blank (CoverStart.style v)) eqn:Hstyle,
           (blank (CoverStart.title v)) eqn:Htitle; cbn [andb orb].
  1, 2, 3: cbn; repeat split; try done; try lia; try (by intros (? & ? & ? & _));
    try (intros (_ & (v' & [= <-] & Hrule) & _); rewrite Hstyle, Htitle in Hrule;
         by destruct (Hrule Hmode));
    by intros v' _ [= <-].
  all: unfold getKieApiKey; destruct (requireKey _ _) as [key | m] eqn:Hkey.
  all: try (apply requireKey_Ok in Hkey).
  all: try (remember (JObj (spread _ _)) as sent eqn:Hsent; clear Hsent;
            destruct (upstream sent) as [m | r] eqn:Hup;
            [| destruct (ok r) eqn:Hok; cbn [negb]]).
  all: cbn; repeat split; try done; try lia; eauto 10;
    try (intros v' _ [= <-] ? [? | ?]; congruence);
    try (intros (sent0 & r' & [= <-] & Hr & Hok'); congruence);
    try (by intros (? & ? & ? & _));
    try (intros (_ & _ & key' & Hk);
         apply (requireKey_Ok "KIE_API_KEY") in Hk; congruence).
Qed.

(** X18.  The callback URL of a cover.  A [callBackUrl] given in the
    request stands; without one the endpoint builds
    [<proto>://<host>/api/ai-music/cover-audio/callback] from the
    forwarding headers ([https] and the [host] header standing in for
    missing ones).  That URL replaces the request's in the body posted,
    whose other fields are those of the request.  In the 200 answer the
    fields of the provider's body come on top of [ok: true],
    [provider: "kie"] and [callBackUrl]: a field the provider sends is
    answered as sent (an [ok: false] stays [ok: false] under HTTP 200),
    and only fields it does not send keep those three values. *)
Theorem cover_start_callback_url (env : environment) (upstream : jsval -> fetched)
    (headers : gmap string string) (v : CoverStart.Request) (key : string)
    (r : response) (props : list (string * jsval)) :
  getKieApiKey env = Ok key ->
  (CoverStart.customMode v = true ->
   blank (CoverStart.style v) = false /\ blank (CoverStart.title v) = false) ->
  (forall sent, upstream sent = Responded r) ->
  ok r = true ->
  decoded r = Some (JObj props) ->
  NoDup (keys props) ->
  exists sent answer,
    CoverStart.handler env upstream headers (post ∅ v) = ([sent], json 200 answer)
    /\ get "callBackUrl" sent = JStr (CoverStart.callBackUrlOf headers v)
    /\ (forall k, k <> "callBackUrl" -> get k sent = get k (JObj (CoverStart.toProps v)))
    /\ (forall k, k <> "creator" -> k <> "Author" ->
          get k answer
          = match assoc k props with
            | Some sent_back => sent_back
            | None => get k (JObj [("ok", JBool true); ("provider", JStr "kie");
                                   ("callBackUrl",
                                    JStr (CoverStart.callBackUrlOf headers v))])
            end)
    /\ (forall given, CoverStart.callBackUrl v = Some given -> given <> "" ->
          CoverStart.callBackUrlOf headers v = given)
    /\ (CoverStart.callBackUrl v = None ->
        forall proto host,
          CoverStart.orElse (headers !! "x-forwarded-proto") (Some "https") = Some proto ->
          CoverStart.orElse (headers !! "x-forwarded-host") (headers !! "host") = Some host ->
          CoverStart.callBackUrlOf headers v
          = (proto +:+ "://" +:+ host) +:+ "/api/ai-music/cover-audio/callback").
Proof.
  intros Hkey Hrule Hup Hok Hdec Hnd.
  eexists _, _. split; [| split; [| split; [| split; [| split]]]].
  - unfold CoverStart.handler, post. cbn [method payload String.eqb Ascii.eqb Bool.eqb negb].
    assert (Hpass : CoverStart.customMode v
                    && (blank (CoverStart.style v) || blank (CoverStart.title v)) = false).
    { destruct (CoverStart.customMode v); [| done].
      destruct (Hrule eq_refl) as [-> ->]. done. }
    rewrite Hpass, Hkey, Hup, Hok. cbn [negb]. unfold CoverStart.started. reflexivity.
  - cbn [get]. rewrite assoc_spread; [reflexivity |].
    unfold keys. cbn [fmap list_fmap fst]. distinct_keys.
  - intros k Hk. cbn [get]. rewrite assoc_spread.
    + cbn [assoc]. by destruct (String.eqb_spec k "callBackUrl").
    + unfold keys. cbn [fmap list_fmap fst]. distinct_keys.
  - intros k Hc Ha. unfold jsonOrNull. rewrite Hdec. cbn [default CoverStart.spreadable].
    rewrite get_normalizeAuthor; [| | done | done].
    + cbn [get]. rewrite assoc_spread by done.
      change (CoverStart.spreadable _) with props. by destruct (assoc k props).
    + apply NoDup_spread. unfold keys. cbn [fmap list_fmap fst]. distinct_keys.
  - intros given Hgiven Hne. unfold CoverStart.callBackUrlOf, CoverStart.orElse.
    rewrite Hgiven. by destruct (String.eqb_spec given "").
  - intros Hnone proto host Hproto Hhost.
    unfold CoverStart.callBackUrlOf, CoverStart.getBaseUrl.
    rewrite Hnone, Hproto, Hhost. reflexivity.
Qed.

Lemma cover_start_callback_url_witness :
  exists sent answer,
    CoverStart.handler bothKeys CoverStart.grudging CoverStart.forwarded
      (post ∅ CoverStart.remix)
    = ([sent], json 200 answer)
    /\ get "callBackUrl" sent
       = JStr "http://melody.example/api/ai-music/cover-audio/callback"
    /\ get "ok" answer = JBool false
    /\ get "provider" answer = JStr "kie".
Proof.
  destruct (cover_start_callback_url bothKeys CoverStart.grudging CoverStart.forwarded
              CoverStart.remix "kie-key"
              {| status := 200;
                 decoded := Some (JObj [("ok", JBool false); ("code", JNum (num 200));
                                        ("data", JObj [("taskId", JStr "t-1")])]) |}
              [("ok", JBool false); ("code", JNum (num 200));
               ("data", JObj [("taskId", JStr "t-1")])])
    as (sent & answer & Hrun & Hurl & _ & Hanswer & _).
  - reflexivity.
  - discriminate.
  - reflexivity.
  - reflexivity.
  - reflexivity.
  - unfold keys. cbn [fmap list_fmap fst]. distinct_keys.
  - exists sent, answer. split; [exact Hrun |]. split; [exact Hurl |]. split.
    + apply (Hanswer "ok"); discriminate.
    + apply (Hanswer "provider"); discriminate.
Defined.

(** ** X19 - X20: what the query and the body contribute *)

(** X19.  The query parameters and their short names.  [timeout] is
    read only when [timeoutMs] is absent: a [timeoutMs] that is present
    shadows it even when it is unusable, and an absent one lets
    [timeout] count exactly as [timeoutMs] would.  Of a repeated key the
    first value counts, and an empty repetition gives the default.  The
    same holds of [poll] and [pollIntervalMs]. *)
Theorem query_parameter_aliases {rt : Runtime} (query : gmap string qval) (alias : qval) :
  (is_Some (query !! "timeoutMs") ->
     parseTimeoutMs (<["timeout" := alias]> query) = parseTimeoutMs query)
  /\ (query !! "timeoutMs" = None ->
        parseTimeoutMs (<["timeout" := alias]> query)
        = parseTimeoutMs (<["timeoutMs" := alias]> query))
  /\ (is_Some (query !! "pollIntervalMs") ->
        parsePollIntervalMs (<["poll" := alias]> query) = parsePollIntervalMs query)
  /\ (query !! "pollIntervalMs" = None ->
        parsePollIntervalMs (<["poll" := alias]> query)
        = parsePollIntervalMs (<["pollIntervalMs" := alias]> query))
  /\ (forall first others,
        parseTimeoutMs (<["timeoutMs" := QArr (first :: others)]> query)
        = parseTimeoutMs (<["timeoutMs" := QStr first]> query)
        /\ parsePollIntervalMs (<["pollIntervalMs" := QArr (first :: others)]> query)
           = parsePollIntervalMs (<["pollIntervalMs" := QStr first]> query))
  /\ parseTimeoutMs (<["timeoutMs" := QArr []]> query) = num 300000
  /\ parsePollIntervalMs (<["pollIntervalMs" := QArr []]> query) = num 5000.
Proof.
  unfold parseTimeoutMs, parsePollIntervalMs, timeoutRaw, pollIntervalRaw, queryEither.
  repeat split.
  - intros [raw Hraw]. rewrite lookup_insert_ne by done. by rewrite Hraw.
  - intros Hnone. rewrite lookup_insert_ne by done.
    by rewrite Hnone, !lookup_insert_eq.
  - intros [raw Hraw]. rewrite lookup_insert_ne by done. by rewrite Hraw.
  - intros Hnone. rewrite lookup_insert_ne by done.
    by rewrite Hnone, !lookup_insert_eq.
  - by rewrite !lookup_insert_eq.
  - by rewrite !lookup_insert_eq.
  - by rewrite lookup_insert_eq.
  - by rewrite lookup_insert_eq.
Qed.

Lemma modelName_inj (m n : Model) : modelName m = modelName n -> m = n.
Proof. by destruct m, n. Qed.

(** X20.  What of a request reaches the provider.  In custom mode all
    seven fields do: two requests are launched with the same body only
    if they are the same request.  Otherwise the prompt alone does: the
    other fields are sent empty and [instrumental] is sent [false],
    whatever the request says. *)
Theorem what_reaches_the_provider (v w : GenerationRequest) :
  (payloadToUpstream v = payloadToUpstream w <->
     customMode v = customMode w
     /\ if customMode v then v = w else prompt v = prompt w)
  /\ (customMode v = false ->
        get "instrumental" (payloadToUpstream v) = JBool false
        /\ get "model" (payloadToUpstream v) = JStr ""
        /\ get "prompt" (payloadToUpstream v) = JStr (prompt v)).
Proof.
  unfold payloadToUpstream, toJson. split.
  - destruct v as [cv iv tv sv pv mv nv], w as [cw iw tw sw pw mw nw].
    cbn [customMode instrumental title style prompt model negativeTags].
    destruct cv, cw; split.
    + intros [= -> -> -> -> Hm ->]. apply modelName_inj in Hm as ->. done.
    + by intros [_ [= -> -> -> -> -> ->]].
    + intros H. discriminate H.
    + by intros [? _].
    + intros H. discriminate H.
    + by intros [? _].
    + by intros [= ->].
    + by intros [_ ->].
  - by intros ->.
Qed.

(** ** X21 - X23: what the test console shows *)

Lemma wire_JObj (props : list (string * jsval)) : wire (JObj props) = JObj (wireProps props).
Proof. reflexivity. Qed.

Lemma wireProps_cons (k : string) (x : jsval) (props : list (string * jsval)) :
  wireProps ((k, x) :: props)
  = match x with JUndefined => [] | _ => [(k, wire x)] end ++ wireProps props.
Proof. unfold wireProps. cbn [flat_map]. by destruct x. Qed.

Lemma keys_wireProps (k : string) (props : list (string * jsval)) :
  k ∈ keys (wireProps props) -> k ∈ keys props.
Proof.
  induction props as [|[k1 x1] props IH]; [done |].
  rewrite wireProps_cons. unfold keys in *. rewrite fmap_app, elem_of_app.
  cbn [fmap list_fmap fst]. rewrite elem_of_cons. intros [Hhead | Htail]; [| auto].
  left. destruct x1; cbn in Hhead;
    first [by apply elem_of_nil in Hhead | by apply list_elem_of_singleton in Hhead].
Qed.

(** Reading a property after the round trip. *)
Lemma assoc_wireProps (k : string) (props : list (string * jsval)) :
  NoDup (keys props) ->
  default JUndefined (assoc k (wireProps props))
  = wireField (default JUndefined (assoc k props)).
Proof.
  induction props as [|[k1 x1] props IH]; [done |].
  unfold keys. cbn [fmap list_fmap fst]. rewrite NoDup_cons. fold (keys props).
  intros [Hk1 Hnd]. rewrite wireProps_cons. cbn [assoc].
  destruct (String.eqb_spec k k1) as [-> | Hne].
  - assert (Hgone : assoc k1 (wireProps props) = None).
    { apply assoc_None. intros Hin. by apply keys_wireProps in Hin. }
    destruct x1; cbn [app assoc]; rewrite ?String.eqb_refl; try done.
    by rewrite Hgone.
  - destruct x1; cbn [app assoc]; try (destruct (String.eqb_spec k k1); [done |]);
      by apply IH.
Qed.

Lemma get_wire (k : string) (props : list (string * jsval)) :
  NoDup (keys props) ->
  get k (wire (JObj props)) = wireField (get k (JObj props)).
Proof. intros Hnd. rewrite wire_JObj. cbn [get]. by apply assoc_wireProps. Qed.

(** A decoded value comes back from the round trip as it was. *)
Lemma wire_isJson : forall v, isJson v = true -> wire v = v.
Proof.
  fix IH 1. intros [| | b | [| | | q] | s | items | props]; cbn [isJson wire]; try done.
  - intros H. f_equal. induction items as [|x items IHl]; [done |].
    cbn [forallb map] in *. apply andb_true_iff in H as [Hx Hl].
    rewrite (IHl Hl). f_equal. rewrite (IH x Hx). by destruct x.
  - intros H. apply andb_true_iff in H as [_ H]. f_equal.
    induction props as [|[k x] props IHl]; [done |].
    cbn [forallb flat_map] in *. apply andb_true_iff in H as [Hx Hl].
    rewrite (IHl Hl), (IH x Hx). by destruct x.
Qed.

Lemma isJson_assoc (k : string) (props : list (string * jsval)) (x : jsval) :
  isJson (JObj props) = true -> assoc k props = Some x -> isJson x = true.
Proof.
  cbn [isJson]. intros H. apply andb_true_iff in H as [_ H].
  induction props as [|[k1 x1] props IHl]; [done |].
  cbn [forallb assoc] in *. apply andb_true_iff in H as [Hx Hl].
  destruct (String.eqb k k1); [by intros [= <-] | by apply IHl].
Qed.

Lemma isJson_keys (props : list (string * jsval)) :
  isJson (JObj props) = true -> NoDup (keys props).
Proof.
  cbn [isJson]. intros H. apply andb_true_iff in H as [H _].
  by apply bool_decide_eq_true in H.
Qed.

Lemma isJson_items (items : list jsval) (i : nat) (x : jsval) :
  isJson (JArr items) = true -> items !! i = Some x -> isJson x = true.
Proof.
  cbn [isJson]. intros H Hi. rewrite forallb_forall in H. apply H.
  apply list_elem_of_In. by eapply list_elem_of_lookup_2.
Qed.

(** [Promise.all] delivers an array only when every promise was
    fulfilled, and then the promises' values in index order. *)
Lemma promiseAll_delivers (promises : list settled) (out : jsval) :
  forall (order : list nat) (slots : list (option jsval)),
    promiseAll promises order slots = Some (Fulfilled out) ->
    length slots = length promises ->
    (forall i v, slots !! i = Some (Some v) -> promises !! i = Some (Fulfilled v)) ->
    exists vals, out = JArr vals /\ promises = Fulfilled <$> vals.
Proof.
  induction order as [|i later IH]; intros slots Hrun Hlen Hfilled.
  - cbn [promiseAll] in Hrun. destruct (mapM id slots) as [vals |] eqn:E; [| done].
    injection Hrun as <-. exists vals. split; [done |].
    apply mapM_Some in E. apply list_eq. intros i. rewrite list_lookup_fmap.
    destruct (vals !! i) as [v |] eqn:Hv.
    + destruct (Forall2_lookup_r _ _ _ _ _ E Hv) as (slot & Hslot & Hid).
      cbn in Hid. subst slot. by rewrite (Hfilled i v Hslot).
    + apply lookup_ge_None in Hv. apply lookup_ge_None.
      rewrite <- Hlen, (Forall2_length _ _ _ E). done.
  - cbn [promiseAll] in Hrun.
    destruct (promises !! i) as [[v | m] |] eqn:Hi; [| done | done].
    apply (IH (<[i := Some v]> slots) Hrun).
    + by rewrite length_insert.
    + intros j w. destruct (decide (i = j)) as [<- | Hne].
      * assert (Hlt : (i < length slots)%nat)
          by (rewrite Hlen; by eapply lookup_lt_Some).
        rewrite list_lookup_insert_eq by done. by intros [= <-].
      * rewrite list_lookup_insert_ne by done. apply Hfilled.
Qed.

Lemma stringOf_wireField (x : jsval) : Page.stringOf (wireField x) = Page.stringOf x.
Proof. destruct x as [| | | [| | |] | | |]; reflexivity. Qed.

(** What the console finds in the 200 answer of the wait-upload flow:
    the records of the finished job as the provider sent them, and the
    [kieUploads] array after its round trip. *)
Lemma received_uploaded (jobId taskUrl uploads : jsval) (sprops : list (string * jsval)) :
  isJson (JObj sprops) = true ->
  recordsOf (Page.received (uploaded jobId taskUrl (JObj sprops) uploads))
  = recordsOf (JObj sprops)
  /\ get "kieUploads" (Page.received (uploaded jobId taskUrl (JObj sprops) uploads))
     = wireField uploads.
Proof.
  intros Hjson. pose proof (isJson_keys _ Hjson) as Hnd.
  unfold uploaded, Page.received, json. cbn [body propsOf].
  set (extra := [("jobId", jobId); ("task_url", taskUrl); ("kieUploads", uploads)]).
  assert (Hextra : NoDup (keys extra)).
  { unfold keys, extra. cbn [fmap list_fmap fst]. distinct_keys. }
  assert (Hsp : NoDup (keys (spread sprops extra))) by by apply NoDup_spread.
  cbn [normalizeAuthor].
  set (bprops := spread [("Author", JStr AUTHOR)] (without "creator" (spread sprops extra))).
  assert (Hb : NoDup (keys bprops)).
  { apply NoDup_spread. unfold keys. cbn [fmap list_fmap fst]. distinct_keys. }
  assert (Hget : forall k, k <> "creator" -> k <> "Author" ->
            get k (wire (JObj bprops))
            = wireField (default JUndefined
                (match assoc k extra with Some v => Some v | None => assoc k sprops end))).
  { intros k Hc Ha. rewrite (get_wire k bprops Hb). f_equal.
    change (JObj bprops) with (normalizeAuthor (JObj (spread sprops extra))).
    rewrite (get_normalizeAuthor k _ Hsp Hc Ha). cbn [get].
    by rewrite (assoc_spread k extra Hextra). }
  split.
  - unfold recordsOf at 1. rewrite (Hget "records") by done. cbn [assoc extra].
    unfold recordsOf. cbn [get String.eqb Ascii.eqb Bool.eqb].
    destruct (assoc "records" sprops) as [x |] eqn:Hx; [| done]. cbn [default].
    rewrite <- (wire_isJson x (isJson_assoc _ _ _ Hjson Hx)) at 2.
    by destruct x.
  - rewrite (Hget "kieUploads") by done. reflexivity.
Qed.

Lemma tracks_listed (records : list jsval) :
  Page.audio_url <$> filter (fun t => Page.given (Page.audio_url t))
                       (Page.trackOf <$> records)
  = flat_map (fun r => if String.eqb (audioUrlOf r) "" then [] else [Some (audioUrlOf r)])
      records.
Proof.
  induction records as [|r records IH]; [done |].
  rewrite fmap_cons, filter_cons. cbn [flat_map]. rewrite <- IH. clear IH.
  assert (Hau : Page.audio_url (Page.trackOf r) = Page.stringOf (get "audio_url" r))
    by reflexivity.
  unfold audioUrlOf.
  destruct (decide (Page.given (Page.audio_url (Page.trackOf r)))) as [H | H];
    rewrite ?fmap_cons, Hau in *;
    destruct (get "audio_url" r) as [| | | | s | |]; cbn in *; try done;
    destruct (String.eqb s ""); cbn in *; first [done | exfalso; by apply H].
Qed.

Section Shown.
Context {rt : Runtime} (env : environment) (net : network) (u : UploadRequest)
  (jobId : jsval).

Lemma urlsUploaded_app (t1 t2 : list event) :
  urlsUploaded (t1 ++ t2) = urlsUploaded t1 ++ urlsUploaded t2.
Proof. unfold urlsUploaded. apply flat_map_app. Qed.

(** A task that is fulfilled either had no audio to upload, or had the
    credential and an answer. *)
Lemma recordTask_fulfilled (i : nat) (r : jsval) (e : jsval) :
  (recordTask env net u jobId i r).2 = Fulfilled e ->
  (audioUrlOf r = "" /\ recordTask env net u jobId i r = ([], Fulfilled (missingAudio i)))
  \/ (audioUrlOf r <> ""
      /\ exists resp,
           kieUpload net i (uploadRequestFor u jobId i r) = Responded resp
           /\ recordTask env net u jobId i r
              = ([Upload (uploadRequestFor u jobId i r)],
                 Fulfilled (uploadEntry i (audioUrlOf r) resp))).
Proof.
  unfold recordTask. destruct (String.eqb_spec (audioUrlOf r) "") as [E | E].
  - intros _. by left.
  - destruct (getKieApiKey env); [| done].
    destruct (kieUpload net i _) as [m | resp]; [done |]. intros _. right. eauto.
Qed.

Lemma uploads_of_fulfilled (records : list jsval) : forall n,
  (forall i r, records !! i = Some r ->
     exists e, (recordTask env net u jobId (n + i) r).2 = Fulfilled e) ->
  urlsUploaded (concat (fst <$> imap (fun i => recordTask env net u jobId (n + i)) records))
  = flat_map (fun r => if String.eqb (audioUrlOf r) "" then [] else [audioUrlOf r]) records.
Proof.
  induction records as [|r records IH]; intros n Hall; [done |].
  cbn [imap fmap list_fmap concat flat_map]. rewrite urlsUploaded_app. f_equal.
  - destruct (Hall O r eq_refl) as [e He].
    apply recordTask_fulfilled in He as [[E ->] | (E & resp & _ & ->)].
    + by rewrite E.
    + cbn. by destruct (String.eqb_spec (audioUrlOf r) "").
  - rewrite <- (IH (S n)).
    + do 3 f_equal. apply imap_ext. intros i x _. cbn. f_equal. lia.
    + intros i x Hi. destruct (Hall (S i) x Hi) as [e He]. exists e.
      by replace (S n + i)%nat with (n + S i)%nat by lia.
Qed.

Lemma kieFields_keys (data : jsval) : NoDup (keys (kieFields data)).
Proof. unfold kieFields, keys. cbn [fmap list_fmap fst]. distinct_keys. Qed.

(** What the console makes of the entry of a fulfilled task: a row
    exactly for a record that was stored, with the record's audio URL
    and the download URL the storage provider reported. *)
Lemma hosted_of_entry (i : nat) (r e : jsval) :
  (recordTask env net u jobId i r).2 = Fulfilled e ->
  let h := Page.hostedOf (match e with JUndefined => JNull | _ => wire e end) in
  (Page.given (Page.sourceAudioUrl h) || Page.given (Page.downloadUrl h) = true
   /\ exists url dl, storedAt net u jobId i r = [(url, dl)]
                     /\ Page.sourceAudioUrl h = Some url
                     /\ Page.downloadUrl h = Page.stringOf dl)
  \/ (Page.given (Page.sourceAudioUrl h) || Page.given (Page.downloadUrl h) = false
      /\ storedAt net u jobId i r = []).
Proof.
  intros He. pose proof He as Hcase.
  apply recordTask_fulfilled in Hcase as [[E Htask] | (E & resp & Hup & Htask)];
    rewrite Htask in He; injection He as <-; unfold storedAt.
  - right. rewrite E. split; reflexivity.
  - destruct (String.eqb_spec (audioUrlOf r) "") as [| _]; [done |]. rewrite Hup.
    unfold uploadEntry. destruct (ok resp); cbn [negb].
    + left. cbv zeta.
      change (wire (JObj [("ok", JBool true);
                          ("recordIndex", JNum (num (Z.of_nat i)));
                          ("sourceAudioUrl", JStr (audioUrlOf r));
                          ("kie", JObj (kieFields (jsonOrNull resp)))]))
        with (JObj [("ok", JBool true);
                    ("recordIndex", JNum (num (Z.of_nat i)));
                    ("sourceAudioUrl", JStr (audioUrlOf r));
                    ("kie", JObj (wireProps (kieFields (jsonOrNull resp))))]).
      unfold Page.hostedOf.
      cbn [get assoc String.eqb Ascii.eqb Bool.eqb default from_option id
           Page.sourceAudioUrl Page.downloadUrl Page.stringOf Page.given].
      split.
      * by destruct (String.eqb_spec (audioUrlOf r) "").
      * exists (audioUrlOf r), (get "downloadUrl" (get "data" (jsonOrNull resp))).
        split; [done |]. split; [done |].
        rewrite (assoc_wireProps "downloadUrl" _ (kieFields_keys _)).
        by rewrite stringOf_wireField.
    + right. split; reflexivity.
Qed.

Lemma filter_cons_bool {A : Type} (P : A -> bool) (x : A) (l : list A) :
  filter (fun a => P a) (x :: l) = if P x then x :: filter (fun a => P a) l
                                   else filter (fun a => P a) l.
Proof.
  rewrite filter_cons. destruct (P x) eqn:E; destruct (decide _) as [H | H];
    first [done | exfalso; by apply H].
Qed.

Lemma hosted_listed (records : list jsval) : forall n,
  (forall i r, records !! i = Some r ->
     exists e, (recordTask env net u jobId (n + i) r).2 = Fulfilled e) ->
  (fun h => (Page.sourceAudioUrl h, Page.downloadUrl h))
  <$> filter (fun h => Page.given (Page.sourceAudioUrl h) || Page.given (Page.downloadUrl h))
        (Page.hostedOf
         <$> map (fun x => match x with JUndefined => JNull | _ => wire x end)
               (imap (fun i => entryOf env net u jobId (n + i)) records))
  = (fun p => (Some p.1, Page.stringOf p.2))
    <$> concat (imap (fun i => storedAt net u jobId (n + i)) records).
Proof.
  induction records as [|r records IH]; intros n Hall; [done |].
  cbn [imap map concat]. rewrite fmap_cons, fmap_app, filter_cons_bool.
  assert (Hrest :
    (fun h => (Page.sourceAudioUrl h, Page.downloadUrl h))
    <$> filter (fun h => Page.given (Page.sourceAudioUrl h) || Page.given (Page.downloadUrl h))
          (Page.hostedOf
           <$> map (fun x => match x with JUndefined => JNull | _ => wire x end)
                 (imap ((fun i => entryOf env net u jobId (n + i)) ∘ S) records))
    = (fun p => (Some p.1, Page.stringOf p.2))
      <$> concat (imap ((fun i => storedAt net u jobId (n + i)) ∘ S) records)).
  { rewrite (imap_ext _ (fun i => entryOf env net u jobId (S n + i)) records)
      by (intros i x _; cbn; f_equal; lia).
    rewrite (imap_ext ((fun i => storedAt net u jobId (n + i)) ∘ S)
               (fun i => storedAt net u jobId (S n + i)) records)
      by (intros i x _; cbn; f_equal; lia).
    apply IH. intros i x Hi. destruct (Hall (S i) x Hi) as [e He]. exists e.
    by replace (S n + i)%nat with (n + S i)%nat by lia. }
  destruct (Hall O r eq_refl) as [e He].
  assert (Hentry : entryOf env net u jobId (n + 0) r = e) by (unfold entryOf; by rewrite He).
  rewrite Hentry.
  destruct (hosted_of_entry (n + 0) r e He) as [(-> & url & dl & -> & Hs & Hd) | (-> & ->)].
  - rewrite fmap_cons, Hs, Hd, Hrest. reflexivity.
  - rewrite Hrest. reflexivity.
Qed.

Lemma uploadAll_200 (taskUrl statusJson : jsval) (before trace : list event)
    (resp : httpResponse) :
  uploadAll env net u jobId taskUrl statusJson before = Some (trace, resp) ->
  statusCode resp = 200 ->
  trace = before ++ uploadsIssued env net u jobId (recordsOf statusJson)
  /\ resp = uploaded jobId taskUrl statusJson
              (JArr (imap (entryOf env net u jobId) (recordsOf statusJson)))
  /\ forall i r, recordsOf statusJson !! i = Some r ->
       exists e, (recordTask env net u jobId i r).2 = Fulfilled e.
Proof.
  unfold uploadAll, uploadsIssued. set (records := recordsOf statusJson).
  destruct (promiseAll _ _ _) as [[uploads | m] |] eqn:Hall; [| | done].
  2: { intros [= <- <-]. done. }
  intros [= <- <-] _.
  apply promiseAll_delivers in Hall as (vals & -> & Hvals).
  - assert (Hdone : forall i r, records !! i = Some r ->
              (recordTask env net u jobId i r).2 = Fulfilled (entryOf env net u jobId i r)
              /\ vals !! i = Some (entryOf env net u jobId i r)).
    { intros i r Hr. pose proof (f_equal (fun l => l !! i) Hvals) as Hi. cbn in Hi.
      rewrite tasks_lookup, Hr, list_lookup_fmap in Hi. cbn in Hi.
      destruct (vals !! i) as [v |]; [| done]. injection Hi as Hi.
      unfold entryOf. rewrite Hi. done. }
    split; [done |]. split.
    + do 2 f_equal. apply list_eq. intros i. rewrite list_lookup_imap.
      destruct (records !! i) as [r |] eqn:Hr; cbn.
      * by destruct (Hdone i r Hr) as [_ ->].
      * apply lookup_ge_None. apply lookup_ge_None in Hr.
        pose proof (f_equal length Hvals) as Hlen.
        rewrite tasks_length, length_fmap in Hlen. lia.
    + intros i r Hr. destruct (Hdone i r Hr) as [-> _]. eauto.
  - by rewrite length_replicate, length_fmap.
  - intros i v Hi. apply lookup_replicate in Hi as [[=] _].
Qed.

End Shown.

Lemma isDone_object (statusJson : jsval) :
  isDone statusJson = true -> exists sprops, statusJson = JObj sprops.
Proof. destruct statusJson; try done. eauto. Qed.

Lemma flat_map_Some {A B : Type} (c : A -> bool) (a : A -> B) (l : list A) :
  Some <$> flat_map (fun r => if c r then [] else [a r]) l
  = flat_map (fun r => if c r then [] else [Some (a r)]) l.
Proof.
  induction l as [|x l IH]; [done |]. cbn [flat_map]. rewrite fmap_app, IH.
  by destruct (c x).
Qed.

(** X21.  After a wait-upload answered 200, what the console lists as
    the job's source audio is what the endpoint uploaded: the audio URLs
    of the upload requests it made, one row per request, in order. *)
Theorem console_lists_the_records_uploaded {rt : Runtime} (env : environment)
    (net : network) (u : UploadRequest) (jobId taskUrl statusJson : jsval)
    (before trace : list event) (resp : httpResponse) :
  isJson statusJson = true ->
  isDone statusJson = true ->
  uploadAll env net u jobId taskUrl statusJson before = Some (trace, resp) ->
  statusCode resp = 200 ->
  exists uploads,
    trace = before ++ uploads
    /\ Page.audio_url <$> Page.extractPaxRecords (Page.received resp)
       = Some <$> urlsUploaded uploads.
Proof.
  intros Hjson Hdone Hrun Hcode.
  destruct (isDone_object _ Hdone) as [sprops ->].
  destruct (uploadAll_200 _ _ _ _ _ _ _ _ _ Hrun Hcode) as (-> & -> & Hall).
  exists (uploadsIssued env net u jobId (recordsOf (JObj sprops))). split; [done |].
  unfold Page.extractPaxRecords.
  destruct (received_uploaded jobId taskUrl
              (JArr (imap (entryOf env net u jobId) (recordsOf (JObj sprops))))
              sprops Hjson) as [-> _].
  rewrite tracks_listed. unfold uploadsIssued.
  rewrite (imap_ext (recordTask env net u jobId)
             (fun i => recordTask env net u jobId (0 + i))) by done.
  rewrite (uploads_of_fulfilled env net u jobId (recordsOf (JObj sprops)) O Hall).
  by rewrite flat_map_Some.
Qed.

Lemma console_lists_the_records_uploaded_witness :
  exists trace resp,
    uploadAll (rt := sampleRuntime) bothKeys batchNet lofiUpload (JStr "abc") abcUrl
      threeRecords []
    = Some (trace, resp)
    /\ Page.audio_url <$> Page.extractPaxRecords (Page.received resp)
       = Some <$> urlsUploaded trace.
Proof.
  destruct (uploadAll (rt := sampleRuntime) bothKeys batchNet lofiUpload (JStr "abc")
              abcUrl threeRecords [])
    as [[trace resp] |] eqn:Hrun; [| vm_compute in Hrun; discriminate].
  exists trace, resp. split; [reflexivity |].
  destruct (console_lists_the_records_uploaded (rt := sampleRuntime) bothKeys batchNet
              lofiUpload (JStr "abc") abcUrl threeRecords [] trace resp)
    as (uploads & -> & Hlist).
  - reflexivity.
  - reflexivity.
  - exact Hrun.
  - vm_compute in Hrun. injection Hrun as _ <-. reflexivity.
  - exact Hlist.
Defined.

(** X22.  After a wait-upload answered 200, the console lists as hosted
    audio exactly the records that were stored: one row for each record
    with an audio URL whose upload the storage provider answered with a
    2xx status, in order, carrying the record's audio URL and, as the
    URL to play, the [downloadUrl] of that answer when it is a string.
    Records without audio and uploads answered with another status get
    no row. *)
Theorem console_lists_the_uploads_stored {rt : Runtime} (env : environment)
    (net : network) (u : UploadRequest) (jobId taskUrl statusJson : jsval)
    (before trace : list event) (resp : httpResponse) :
  isJson statusJson = true ->
  isDone statusJson = true ->
  uploadAll env net u jobId taskUrl statusJson before = Some (trace, resp) ->
  statusCode resp = 200 ->
  (fun h => (Page.sourceAudioUrl h, Page.downloadUrl h))
  <$> Page.extractKieUploads (Page.received resp)
  = (fun p => (Some p.1, Page.stringOf p.2))
    <$> storedRecords net u jobId (recordsOf statusJson).
Proof.
  intros Hjson Hdone Hrun Hcode.
  destruct (isDone_object _ Hdone) as [sprops ->].
  destruct (uploadAll_200 _ _ _ _ _ _ _ _ _ Hrun Hcode) as (_ & -> & Hall).
  unfold Page.extractKieUploads, Page.uploadsOf, storedRecords.
  destruct (received_uploaded jobId taskUrl
              (JArr (imap (entryOf env net u jobId) (recordsOf (JObj sprops))))
              sprops Hjson) as [_ ->].
  cbn [wireField wire].
  rewrite (imap_ext (entryOf env net u jobId)
             (fun i => entryOf env net u jobId (0 + i))) by done.
  rewrite (imap_ext (storedAt net u jobId)
             (fun i => storedAt net u jobId (0 + i))) by done.
  by apply (hosted_listed env net u jobId (recordsOf (JObj sprops)) O).
Qed.

Lemma console_lists_the_uploads_stored_witness :
  exists trace resp,
    uploadAll (rt := sampleRuntime) bothKeys batchNet lofiUpload (JStr "abc") abcUrl
      threeRecords []
    = Some (trace, resp)
    /\ (fun h => (Page.sourceAudioUrl h, Page.downloadUrl h))
       <$> Page.extractKieUploads (Page.received resp)
       = [(Some "https://x/a.mp3", Some "https://files/a.mp3")].
Proof.
  destruct (uploadAll (rt := sampleRuntime) bothKeys batchNet lofiUpload (JStr "abc")
              abcUrl threeRecords [])
    as [[trace resp] |] eqn:Hrun; [| vm_compute in Hrun; discriminate].
  exists trace, resp. split; [reflexivity |].
  rewrite (console_lists_the_uploads_stored (rt := sampleRuntime) bothKeys batchNet
             lofiUpload (JStr "abc") abcUrl threeRecords [] trace resp).
  - reflexivity.
  - reflexivity.
  - reflexivity.
  - exact Hrun.
  - vm_compute in Hrun. injection Hrun as _ <-. reflexivity.
Defined.

Lemma get_received (k : string) (code : Z) (props : list (string * jsval)) :
  NoDup (keys props) -> k <> "creator" -> k <> "Author" ->
  get k (Page.received (json code (normalizeAuthor (JObj props))))
  = wireField (get k (JObj props)).
Proof.
  intros Hnd Hc Ha. unfold Page.received, json. cbn [body normalizeAuthor].
  set (bprops := spread [("Author", JStr AUTHOR)] (without "creator" props)).
  assert (Hb : NoDup (keys bprops)).
  { apply NoDup_spread. unfold keys. cbn [fmap list_fmap fst]. distinct_keys. }
  rewrite (get_wire k bprops Hb). f_equal.
  change (JObj bprops) with (normalizeAuthor (JObj props)).
  by apply get_normalizeAuthor.
Qed.

(** X23.  The cover the console offers for playing after a callback.
    What it reads from the receiver's answer is the [downloadUrl] the
    storage provider reported, and it reads one only when the receiver
    did upload the first track and the storage provider answered with a
    2xx status; after every other answer of the receiver (nothing to
    upload, an upload that failed, a request refused) it reads
    [undefined] and offers nothing. *)
Theorem console_plays_the_stored_cover {rt : Runtime} (env : environment)
    (net : network) (req : request Cover.envelope) :
  let out := Cover.handler env net req in
  Page.coverUploadedUrl (Page.received out.2)
  = match out.1 with
    | [Upload sent] =>
        match kieUpload net O sent with
        | Responded up =>
            if ok up then wireField (get "downloadUrl" (get "data" (jsonOrNull up)))
            else JUndefined
        | NetworkError _ => JUndefined
        end
    | _ => JUndefined
    end.
Proof.
  cbv zeta. unfold Cover.handler, Page.coverUploadedUrl.
  assert (Hplain : forall code props,
            NoDup (keys props) -> assoc "kieUploadedFirstTrack" props = None ->
            get "downloadUrl"
              (get "kieUploadedFirstTrack"
                 (Page.received (json code (normalizeAuthor (JObj props)))))
            = JUndefined).
  { intros code props Hnd Hnone. rewrite get_received by done. cbn [get].
    by rewrite Hnone. }
  assert (Hack : forall e uploaded,
            get "kieUploadedFirstTrack" (Page.received (Cover.acknowledged e uploaded))
            = wireField uploaded).
  { intros e uploaded. unfold Cover.acknowledged. rewrite get_received; [done | | done | done].
    unfold keys. cbn [fmap list_fmap fst]. distinct_keys. }
  destruct (String.eqb (method req) "OPTIONS"); [reflexivity |].
  destruct (negb (String.eqb (method req) "POST")).
  { cbn [fst snd]. unfold methodNotAllowed. apply Hplain; [| reflexivity].
    unfold keys. cbn [fmap list_fmap fst]. distinct_keys. }
  destruct (payload req) as [| errors | e].
  { cbn [fst snd]. unfold internalError. apply Hplain; [| reflexivity].
    unfold keys. cbn [fmap list_fmap fst]. distinct_keys. }
  { cbn [fst snd]. unfold Cover.invalidCallback. apply Hplain; [| reflexivity].
    unfold keys. cbn [fmap list_fmap fst]. distinct_keys. }
  destruct (Cover.wanted e) as [sent |]; [| cbn [fst snd]; by rewrite Hack].
  destruct (getKieApiKey env) as [key | m].
  2: { cbn [fst snd]. unfold internalError. apply Hplain; [| reflexivity].
       unfold keys. cbn [fmap list_fmap fst]. distinct_keys. }
  destruct (kieUpload net O sent) as [m | up] eqn:Hup; cbn [fst snd]; rewrite Hup.
  { unfold internalError. apply Hplain; [| reflexivity].
    unfold keys. cbn [fmap list_fmap fst]. distinct_keys. }
  rewrite Hack. unfold Cover.uploadedOf. destruct (ok up); [| reflexivity].
  cbn [wireField]. rewrite get_wire.
  - reflexivity.
  - unfold keys. cbn [fmap list_fmap fst]. fold (keys (kieFields (jsonOrNull up))).
    apply NoDup_cons. split; [| apply kieFields_keys].
    unfold kieFields, keys. cbn [fmap list_fmap fst].
    rewrite !not_elem_of_cons. repeat split; first [discriminate | apply not_elem_of_nil].
Qed.

(** ** X24: the URL the console calls *)









(** ** X25 - X26: answers and requests end to end *)

(** X25.  The 200 answer of the wait-upload flow is the provider's
    status body with three fields of the endpoint's own on top: [jobId],
    [task_url] and [kieUploads] are the launch's job id, the URL polled
    and one entry per record, whatever the status body says under those
    names; every other field (but [creator] and [Author]) is the
    provider's. *)
Theorem upload_answer_fields {rt : Runtime} (env : environment) (net : network)
    (u : UploadRequest) (jobId taskUrl statusJson : jsval)
    (before trace : list event) (resp : httpResponse) :
  distinctKeys statusJson ->
  isDone statusJson = true ->
  uploadAll env net u jobId taskUrl statusJson before = Some (trace, resp) ->
  statusCode resp = 200 ->
  bodyField "jobId" resp = jobId
  /\ bodyField "task_url" resp = taskUrl
  /\ (exists entries, bodyField "kieUploads" resp = JArr entries
                      /\ length entries = length (recordsOf statusJson))
  /\ bodyField "status" resp = JStr "done"
  /\ bodyField "ok" resp = JBool true
  /\ forall k, k ∉ ["creator"; "Author"; "jobId"; "task_url"; "kieUploads"] ->
       bodyField k resp = get k statusJson.
Proof.
  intros Hkeys Hdone Hrun Hcode.
  destruct (isDone_object _ Hdone) as [sprops ->]. cbn [distinctKeys] in Hkeys.
  destruct (uploadAll_200 _ _ _ _ _ _ _ _ _ Hrun Hcode) as (_ & -> & _).
  set (entries := imap (entryOf env net u jobId) (recordsOf (JObj sprops))).
  set (extra := [("jobId", jobId); ("task_url", taskUrl); ("kieUploads", JArr entries)]).
  assert (Hextra : NoDup (keys extra)).
  { unfold keys, extra. cbn [fmap list_fmap fst]. distinct_keys. }
  assert (Hget : forall k, k <> "creator" -> k <> "Author" ->
            bodyField k (uploaded jobId taskUrl (JObj sprops) (JArr entries))
            = default JUndefined
                (match assoc k extra with Some v => Some v | None => assoc k sprops end)).
  { intros k Hc Ha. unfold bodyField, uploaded, json. cbn [body propsOf].
    rewrite get_normalizeAuthor; [| by apply NoDup_spread | done | done].
    cbn [get]. by rewrite (assoc_spread k extra Hextra). }
  apply isDone_iff in Hdone as [Hstatus Hok].
  split; [by rewrite Hget |]. split; [by rewrite Hget |]. split.
  { exists entries. split; [by rewrite Hget |]. apply length_imap. }
  split; [by rewrite Hget |]. split; [by rewrite Hget |].
  intros k Hk. rewrite !not_elem_of_cons in Hk.
  destruct Hk as (Hc & Ha & Hj & Ht & Hu & _). rewrite Hget by done.
  cbn [assoc extra get].
  destruct (String.eqb_spec k "jobId"); [done |].
  destruct (String.eqb_spec k "task_url"); [done |].
  by destruct (String.eqb_spec k "kieUploads").
Qed.

Lemma upload_answer_fields_witness :
  exists trace resp,
    uploadAll (rt := sampleRuntime) bothKeys batchNet lofiUpload (JStr "abc") abcUrl
      threeRecords []
    = Some (trace, resp)
    /\ bodyField "jobId" resp = JStr "abc"
    /\ bodyField "status" resp = JStr "done".
Proof.
  destruct (uploadAll (rt := sampleRuntime) bothKeys batchNet lofiUpload (JStr "abc")
              abcUrl threeRecords [])
    as [[trace resp] |] eqn:Hrun; [| vm_compute in Hrun; discriminate].
  exists trace, resp. split; [reflexivity |].
  destruct (upload_answer_fields (rt := sampleRuntime) bothKeys batchNet lofiUpload
              (JStr "abc") abcUrl threeRecords [] trace resp)
    as (Hjob & _ & _ & Hstatus & _).
  - unfold threeRecords, distinctKeys, keys. cbn [fmap list_fmap fst]. distinct_keys.
  - reflexivity.
  - exact Hrun.
  - vm_compute in Hrun. injection Hrun as _ <-. reflexivity.
  - split; [exact Hjob | exact Hstatus].
Defined.

Lemma superRefineUpload_nil (u : UploadRequest) :
  superRefineUpload u = [] <->
  superRefine (generation u) = []
  /\ (customMode (generation u) = true -> blank (kieUploadPath u) = false).
Proof.
  unfold superRefineUpload, superRefine.
  destruct (customMode (generation u)); cbn [negb].
  - rewrite app_nil, addIssueIf_nil. split; [intros [? ?] | intros [? ?]]; auto.
  - split; [intros ? | intros [? ?]]; auto. split; [done | discriminate].
Qed.

Lemma launchAndPoll_not_400 {rt : Runtime} env net fuel B I sent finish out :
  (forall jobId taskUrl statusJson trace out,
     finish jobId taskUrl statusJson trace = Some out -> statusCode out.2 <> 400) ->
  launchAndPoll env net fuel B I sent finish = Some out ->
  statusCode out.2 <> 400.
Proof.
  intros Hfinish. unfold launchAndPoll.
  destruct (getApiKey env) as [key | m]; [| by intros [= <-]].
  destruct (startJob net sent) as [m | r]; [by intros [= <-] |].
  destruct (startRefused r); [by intros [= <-] |].
  destruct (pollUntilDone _ _ _ _ _ _ _ _ _) as [[[statusJson | last | m] events] |];
    [| by intros [= <-] | by intros [= <-] | done].
  apply Hfinish.
Qed.

(** X26.  What the console's form lets through, the endpoints accept:
    for a payload that passes [validatePaxPayload], generate and wait
    never answer 400.  The wait-upload endpoint, to which the console
    adds its [kieUploadPath] and [kieFileName] unchecked, answers 400
    exactly when the payload is in custom mode and the upload path is
    blank. *)
Theorem console_requests_are_accepted {rt : Runtime} (env : environment)
    (net : network) (fuel : nat) (q : gmap string qval) (v : GenerationRequest)
    (path name : string) :
  UI.validatePaxPayload v = inr v ->
  statusCode (generateHandler env net (post q v)).2 <> 400
  /\ (forall out, waitHandler env net fuel (post q v) = Some out ->
        statusCode out.2 <> 400)
  /\ (forall out,
        waitUploadHandler env net fuel
          (post q {| generation := v; kieUploadPath := path; kieFileName := name |})
        = Some out ->
        (statusCode out.2 = 400 <-> customMode v = true /\ blank path = true)).
Proof.
  intros Hform.
  assert (Hv : superRefine v = []).
  { apply length_zero_iff_nil.
    assert (Hlen : length (UI.formIssues v) = length (superRefine v)).
    { unfold UI.formIssues, superRefine, UI.nonCustomIssues, UI.customIssues,
        nonCustomIssues, customIssues.
      destruct (customMode v); cbn [negb]; rewrite !length_app, !addIssueIf_length; lia. }
    unfold UI.validatePaxPayload in Hform.
    destruct (UI.formIssues v); [by rewrite <- Hlen | done]. }
  split; [| split].
  - unfold generateHandler, post. cbn [method payload String.eqb Ascii.eqb Bool.eqb negb].
    rewrite (checked_valid _ _ Hv).
    destruct (getApiKey env); [| done].
    destruct (startJob net _) as [m | r]; [done |]. by destruct (negb (ok r)).
  - intros out. rewrite (waitHandler_post _ _ _ _ _ Hv).
    apply launchAndPoll_not_400. by intros ? ? ? ? ? [= <-].
  - intros out.
    set (u := {| generation := v; kieUploadPath := path; kieFileName := name |}).
    destruct (customMode v && blank path) eqn:Hcase.
    + apply andb_true_iff in Hcase as [Hmode Hblank].
      unfold waitUploadHandler, post, checked.
      cbn [method payload String.eqb Ascii.eqb Bool.eqb negb].
      destruct (superRefineUpload u) as [| issue issues] eqn:Hu.
      * apply superRefineUpload_nil in Hu as [_ Hu]. specialize (Hu Hmode).
        change (blank path = false) in Hu. congruence.
      * intros [= <-]. done.
    + assert (Hu : superRefineUpload u = []).
      { apply superRefineUpload_nil. split; [done |].
        change (customMode v = true -> blank path = false). intros Hmode.
        rewrite Hmode in Hcase. done. }
      rewrite (waitUploadHandler_post _ _ _ _ _ Hu). intros Hrun.
      split.
      * intros H400. exfalso. revert H400. eapply launchAndPoll_not_400; [| exact Hrun].
        intros jobId taskUrl statusJson trace out' Hup. unfold uploadAll in Hup.
        destruct (promiseAll _ _ _) as [[uploads | m] |]; [| | done];
          by injection Hup as <-.
      * intros [Hmode Hblank]. rewrite Hmode, Hblank in Hcase. done.
Qed.

Lemma console_requests_are_accepted_witness :
  statusCode (generateHandler bothKeys stuckNet (post ∅ anthem)).2 <> 400.
Proof.
  destruct (console_requests_are_accepted (rt := sampleRuntime) bothKeys stuckNet 0 ∅
              anthem "" "" eq_refl) as [Hgenerate _].
  exact Hgenerate.
Defined.

(** ** C8 and C10: the uploads array of the answer *)

Lemma audioUrlOf_string (r : jsval) (url : string) :
  get "audio_url" r = JStr url -> audioUrlOf r = url.
Proof. unfold audioUrlOf. by intros ->. Qed.



(** The array the answer of the upload step carries. *)
Lemma bodyField_uploaded (jobId taskUrl statusJson uploads : jsval) :
  NoDup (keys (propsOf statusJson)) ->
  statusCode (uploaded jobId taskUrl statusJson uploads) = 200
  /\ bodyField "kieUploads" (uploaded jobId taskUrl statusJson uploads) = uploads.
Proof.
  intros Hnd. split; [reflexivity |]. unfold bodyField, uploaded, json. cbn [body].
  rewrite get_normalizeAuthor; [| by apply NoDup_spread | done | done].
  cbn [get]. rewrite assoc_spread; [reflexivity |].
  unfold keys. cbn [fmap list_fmap fst]. distinct_keys.
Qed.

(** An upload request that gets no answer rejects the whole step. *)
Lemma uploadAll_rejected {rt : Runtime} env net u jobId taskUrl statusJson trace
    (key : string) (i : nat) (r : jsval) (m : string) :
  getKieApiKey env = Ok key ->
  completion net ≡ₚ seq 0 (length (recordsOf statusJson)) ->
  recordsOf statusJson !! i = Some r ->
  audioUrlOf r <> "" ->
  kieUpload net i (uploadRequestFor u jobId i r) = NetworkError m ->
  exists m',
    uploadAll env net u jobId taskUrl statusJson trace
    = Some (trace ++ uploadsIssued env net u jobId (recordsOf statusJson),
            internalError m').
Proof.
  intros Hkey Hperm Hr E Hfail. set (records := recordsOf statusJson) in *.
  destruct (promiseAll_rejects (snd <$> imap (recordTask env net u jobId) records)
              (completion net)
              (replicate (length (imap (recordTask env net u jobId) records)) None))
    as (j & m' & _ & Hall).
  - intros k Hk. rewrite tasks_length. rewrite Hperm in Hk.
    apply elem_of_seq in Hk. lia.
  - exists i, m. split.
    + rewrite Hperm. apply elem_of_seq. apply lookup_lt_Some in Hr. lia.
    + rewrite tasks_lookup, Hr. cbn. unfold recordTask.
      destruct (String.eqb_spec (audioUrlOf r) ""); [done |]. by rewrite Hkey, Hfail.
  - exists m'. unfold uploadAll. fold records. by rewrite Hall.
Qed.

(** C8 (as the code has it).  With the storage credential set and the
    uploads settling in any order: when every upload request of the
    batch over [N] records is answered, the step answers 200 and the
    [kieUploads] field of the answer is an array of length [N] in which
    position [i] holds the entry of record [i]: for a record whose
    upload was answered with a non-2xx status an [ok:false] entry
    embedding that status (and the decoded answer), for one answered
    with 2xx an [ok:true] entry with the record's audio URL and the
    download URL the provider reported; the answer does not depend on
    the order in which the uploads settle.  An upload request that gets
    no answer is not recorded per item: the step then answers 500, and
    the answer has no [kieUploads]. *)
Theorem batch_upload_isolates_failures {rt : Runtime} (env : environment)
    (net : network) (u : UploadRequest) (jobId taskUrl statusJson : jsval)
    (trace : list event) (key : string) :
  getKieApiKey env = Ok key ->
  completion net ≡ₚ seq 0 (length (recordsOf statusJson)) ->
  NoDup (keys (propsOf statusJson)) ->
  (answered net u jobId (recordsOf statusJson) ->
   exists uploads resp,
     uploadAll env net u jobId taskUrl statusJson trace
     = Some (trace ++ uploadsIssued env net u jobId (recordsOf statusJson), resp)
     /\ statusCode resp = 200
     /\ bodyField "kieUploads" resp = JArr uploads
     /\ length uploads = length (recordsOf statusJson)
     /\ (forall i r url answer,
           recordsOf statusJson !! i = Some r ->
           get "audio_url" r = JStr url ->
           url <> "" ->
           kieUpload net i {| fileUrl := url; uploadPath := kieUploadPath u;
                              fileName := fileNameFor u jobId i |}
           = Responded answer ->
           exists entry,
             uploads !! i = Some entry
             /\ get "recordIndex" entry = JNum (num (Z.of_nat i))
             /\ (ok answer = false ->
                   get "ok" entry = JBool false
                   /\ get "status" (get "uploadError" entry) = JNum (num (status answer))
                   /\ get "upstream" (get "uploadError" entry) = jsonOrNull answer)
             /\ (ok answer = true ->
                   get "ok" entry = JBool true
                   /\ get "sourceAudioUrl" entry = JStr url
                   /\ get "downloadUrl" (get "kie" entry)
                      = get "downloadUrl" (get "data" (jsonOrNull answer))))
     /\ (forall order,
           order ≡ₚ seq 0 (length (recordsOf statusJson)) ->
           uploadAll env (withCompletion order net) u jobId taskUrl statusJson trace
           = uploadAll env net u jobId taskUrl statusJson trace))
  /\ (forall i r url m,
        recordsOf statusJson !! i = Some r ->
        get "audio_url" r = JStr url ->
        url <> "" ->
        kieUpload net i {| fileUrl := url; uploadPath := kieUploadPath u;
                           fileName := fileNameFor u jobId i |}
        = NetworkError m ->
        exists resp,
          uploadAll env net u jobId taskUrl statusJson trace
          = Some (trace ++ uploadsIssued env net u jobId (recordsOf statusJson), resp)
          /\ statusCode resp = 500
          /\ bodyField "ok" resp = JBool false
          /\ bodyField "kieUploads" resp = JUndefined).
Proof.
  intros Hkey Hperm Hnd. split.
  - intros Hans.
    exists (imap (entryOf env net u jobId) (recordsOf statusJson)),
           (uploaded jobId taskUrl statusJson
              (JArr (imap (entryOf env net u jobId) (recordsOf statusJson)))).
    split; [by apply (uploadAll_fulfilled env net u jobId taskUrl statusJson trace key) |].
    destruct (bodyField_uploaded jobId taskUrl statusJson
                (JArr (imap (entryOf env net u jobId) (recordsOf statusJson))) Hnd)
      as [Hcode Hfield].
    split; [exact Hcode |]. split; [exact Hfield |]. split; [apply length_imap |]. split.
    + intros i r url answer Hr Hurl Hne Hanswer.
      pose proof (audioUrlOf_string r url Hurl) as Haudio.
      assert (Hgiven : audioUrlOf r <> "") by by rewrite Haudio.
      assert (Hsent : kieUpload net i (uploadRequestFor u jobId i r) = Responded answer).
      { unfold uploadRequestFor. by rewrite Haudio. }
      exists (uploadEntry i (audioUrlOf r) answer). split.
      * rewrite list_lookup_imap, Hr. simpl. unfold entryOf.
        by rewrite (recordTask_answered env net u jobId i r key answer Hgiven Hkey Hsent).
      * rewrite Haudio. unfold uploadEntry. destruct (ok answer); simpl.
        -- split; [done |]. split; [done |]. intros _. done.
        -- split; [done |]. split; [| done]. intros _. done.
    + intros order Horder.
      rewrite (uploadAll_fulfilled env net u jobId taskUrl statusJson trace key
                 Hkey Hans Hperm).
      by rewrite (uploadAll_fulfilled env (withCompletion order net) u jobId taskUrl
                    statusJson trace key Hkey Hans Horder).
  - intros i r url m Hr Hurl Hne Hfail.
    pose proof (audioUrlOf_string r url Hurl) as Haudio.
    assert (Hgiven : audioUrlOf r <> "") by by rewrite Haudio.
    assert (Hsent : kieUpload net i (uploadRequestFor u jobId i r) = NetworkError m).
    { unfold uploadRequestFor. by rewrite Haudio. }
    destruct (uploadAll_rejected env net u jobId taskUrl statusJson trace key i r m
                Hkey Hperm Hr Hgiven Hsent) as [m' Hrun].
    exists (internalError m'). split; [exact Hrun |]. split; [reflexivity |].
    split; reflexivity.
Qed.

Lemma batch_upload_isolates_failures_witness :
  exists uploads resp,
    uploadAll (rt := sampleRuntime) bothKeys batchNet lofiUpload (JStr "abc") abcUrl
      threeRecords []
    = Some ([] ++ uploadsIssued (rt := sampleRuntime) bothKeys batchNet lofiUpload
                    (JStr "abc") (recordsOf threeRecords), resp)
    /\ statusCode resp = 200
    /\ bodyField "kieUploads" resp = JArr uploads
    /\ length uploads = 3%nat
    /\ (exists entry,
          uploads !! 2%nat = Some entry
          /\ get "ok" entry = JBool false
          /\ get "status" (get "uploadError" entry) = JNum (num 500))
    /\ (exists entry,
          uploads !! 0%nat = Some entry
          /\ get "ok" entry = JBool true
          /\ get "sourceAudioUrl" entry = JStr "https://x/a.mp3"
          /\ get "downloadUrl" (get "kie" entry) = JStr "https://files/a.mp3").
Proof.
  destruct (batch_upload_isolates_failures (rt := sampleRuntime) bothKeys batchNet
              lofiUpload (JStr "abc") abcUrl threeRecords [] "kie-key" eq_refl)
    as [Hanswered _].
  { apply (Permutation_cons_append [0; 1]%nat 2%nat). }
  { unfold threeRecords, propsOf, keys. cbn [fmap list_fmap fst]. distinct_keys. }
  destruct (Hanswered batchNet_answered)
    as (uploads & resp & Hrun & Hcode & Hfield & Hlen & Hentry & _).
  exists uploads, resp. split; [exact Hrun |]. split; [exact Hcode |].
  split; [exact Hfield |]. split; [exact Hlen |]. split.
  - destruct (Hentry 2%nat
                (JObj [("id", JStr "r3"); ("audio_url", JStr "https://x/b.mp3")])
                "https://x/b.mp3" storageDown eq_refl eq_refl ltac:(discriminate) eq_refl)
      as (entry & Hi & _ & Hfail & _).
    exists entry. split; [exact Hi |].
    destruct (Hfail eq_refl) as (Hok & Hstatus & _). split; [exact Hok | exact Hstatus].
  - destruct (Hentry 0%nat
                (JObj [("id", JStr "r1"); ("audio_url", JStr "https://x/a.mp3")])
                "https://x/a.mp3" stored eq_refl eq_refl ltac:(discriminate) eq_refl)
      as (entry & Hi & _ & _ & Hgood).
    exists entry. split; [exact Hi |].
    destruct (Hgood eq_refl) as (Hok & Hsource & Hdownload).
    split; [exact Hok |]. split; [exact Hsource | exact Hdownload].
Defined.

(** C8, as stated, fails: the job is done with three records and the
    storage provider cannot be reached for the third; the request is
    answered 500 and no uploads array is returned, although the uploads
    of the first and the third record were requested and the first was
    stored. *)
Lemma unanswered_upload_fails_the_whole_request :
  kieUpload unreachableNet 0
    (uploadRequestFor (rt := sampleRuntime) lofiUpload (JStr "abc") 0
       (JObj [("id", JStr "r1"); ("audio_url", JStr "https://x/a.mp3")]))
  = Responded stored
  /\ uploadAll (rt := sampleRuntime) bothKeys unreachableNet lofiUpload (JStr "abc")
       abcUrl threeRecords []
     = Some ([Upload {| fileUrl := "https://x/a.mp3"; uploadPath := "music/paxsenix";
                        fileName := "abc-1.mp3" |};
              Upload {| fileUrl := "https://x/b.mp3"; uploadPath := "music/paxsenix";
                        fileName := "abc-3.mp3" |}],
             json 500 (JObj [("Author", JStr "@Dafidxcode"); ("ok", JBool false);
                             ("message", JStr "fetch failed")])).
Proof. split; [reflexivity | vm_compute; reflexivity]. Qed.


